(** * pino-transport-rotating-file: a shallow embedding of [src/index.ts]

    The transport receives log lines, hands them to a rotating file
    stream, compresses rotated files, sweeps files past a retention
    window and reports operational problems through a buffered error
    logger.  This development embeds the repository's own functions
    (the validators, [generator], [createErrorLogger], [compressFile],
    [cleanupOldFiles] and the wiring of [pinoTransportRotatingFile]) and
    proves the properties its specification states about them.

    Conventions.
    - A JavaScript string is a [string]; [String.length] counts its
      code units.
    - A JavaScript [number] that holds a count of milliseconds, a size
      or a number of days is a [Z].
    - A function that can throw returns a [Result]; a function that
      mutates module state takes the state and returns the new one.
    - An [async] function is embedded twice where its [await]s matter:
      once read in one piece, as the run in which nothing else happens
      between its [await]s, and once [await] by [await], so that other
      listeners, timers and programs can run in between. *)

From Stdlib Require Import ZArith String Ascii List Lia Bool.
From stdpp Require Import base gmap strings list pretty.

Local Open Scope string_scope.
Local Open Scope Z_scope.

(** * The embedding *)

(** ** Exceptions *)

(** The values the code throws or rejects with: [new Error(msg)], the
    system errors of [node:fs], which carry a code, the failing call and
    the path, and the [RangeError]s of Node's argument checks, which
    carry a code. *)
Inductive JsError : Type :=
| Error (message : string)
| SystemError (code syscall path : string)
| RangeError (code message : string).

Inductive Result (A : Type) : Type :=
| Ok (value : A)
| Throw (err : JsError).
Arguments Ok {A} value.
Arguments Throw {A} err.

#[global] Instance result_ret : MRet Result := fun _ a => Ok a.
#[global] Instance result_bind : MBind Result := fun _ _ k r =>
  match r with
  | Ok a => k a
  | Throw e => Throw e
  end.

(** ** Strings *)

Module Str.

(** [s.startsWith(p)] *)
Fixpoint startsWith (p s : string) : bool :=
  match p, s with
  | EmptyString, _ => true
  | String a p', String b s' => if Ascii.eqb a b then startsWith p' s' else false
  | String _ _, EmptyString => false
  end.

Definition rev (s : string) : string :=
  string_of_list_ascii (List.rev (list_ascii_of_string s)).

(** [s.endsWith(p)] *)
Definition endsWith (p s : string) : bool := startsWith (rev p) (rev s).

(** [s.slice(0, n)] for [0 <= n] *)
Fixpoint slice0 (n : nat) (s : string) : string :=
  match n, s with
  | O, _ => EmptyString
  | S n', String a s' => String a (slice0 n' s')
  | S _, EmptyString => EmptyString
  end.

(** [parts.join('')] *)
Definition concat (parts : list string) : string :=
  fold_right String.append EmptyString parts.

Definition is_digit (a : ascii) : bool :=
  let n := nat_of_ascii a in (48 <=? n)%nat && (n <=? 57)%nat.

Definition digit_value (a : ascii) : Z := Z.of_nat (nat_of_ascii a) - 48.

Definition all_digits (s : string) : bool :=
  forallb is_digit (list_ascii_of_string s).

(** The last code unit of a string and what comes before it. *)
Fixpoint unsnoc (s : string) : option (string * ascii) :=
  match s with
  | EmptyString => None
  | String a EmptyString => Some (EmptyString, a)
  | String a s' =>
      match unsnoc s' with
      | Some (init, last) => Some (String a init, last)
      | None => None
      end
  end.

End Str.

(** ** Config validator *)

Module Validator.

(** [Number.parseInt(num, 10)] on a string of decimal digits.  The code
    only compares the result with [0]; the double that JavaScript
    computes has the sign of the exact integer, so the exact integer is
    kept. *)
Definition parseInt10 (num : string) : Z :=
  fold_left (fun acc a => 10 * acc + Str.digit_value a)
            (list_ascii_of_string num) 0.

(** [/^(\d+)([<units>])$/.exec(s)]: the two capture groups, or [None]
    when the string does not match.  [\d] is an ASCII digit and, with no
    [m] flag, [^] and [$] are the two ends of the string. *)
Definition exec_num_unit (units : list ascii) (s : string) : option (string * ascii) :=
  match Str.unsnoc s with
  | Some (num, unit) =>
      if negb (String.eqb num EmptyString) && Str.all_digits num
         && existsb (Ascii.eqb unit) units
      then Some (num, unit)
      else None
  | None => None
  end.

Definition storage_units : list ascii := ["B"; "K"; "M"; "G"]%char.
Definition time_units : list ascii := ["s"; "m"; "h"; "d"; "M"]%char.

(** The tables [sizeUnits] and [timeUnits]; a key that is not in the
    object reads as [undefined], here [None]. *)
Definition sizeUnits (unit : ascii) : option Z :=
  if Ascii.eqb unit "B" then Some 1
  else if Ascii.eqb unit "K" then Some 1024
  else if Ascii.eqb unit "M" then Some (1024 ^ 2)
  else if Ascii.eqb unit "G" then Some (1024 ^ 3)
  else None.

Definition timeUnits (unit : ascii) : option Z :=
  if Ascii.eqb unit "s" then Some 1000
  else if Ascii.eqb unit "m" then Some (60 * 1000)
  else if Ascii.eqb unit "h" then Some (60 * 60 * 1000)
  else if Ascii.eqb unit "d" then Some (24 * 60 * 60 * 1000)
  else if Ascii.eqb unit "M" then Some (30 * 24 * 60 * 60 * 1000)
  else None.

(** [!table[unit]]: an absent key and the number [0] are falsy. *)
Definition falsy_entry (v : option Z) : bool :=
  match v with
  | None => true
  | Some n => n =? 0
  end.

Definition validateSize (size : string) : Result unit :=
  match exec_num_unit storage_units size with
  | None =>
      Throw (Error ("Invalid size format: " ++ size
                    ++ ". Expected format: <number><B|K|M|G>"))
  | Some (num, unit) =>
      if parseInt10 num <=? 0
      then Throw (Error ("Size must be positive: " ++ size))
      else if falsy_entry (sizeUnits unit)
      then Throw (Error ("Unknown size unit: " ++ String unit EmptyString))
      else Ok tt
  end.

Definition validateInterval (interval : string) : Result unit :=
  match exec_num_unit time_units interval with
  | None =>
      Throw (Error ("Invalid interval format: " ++ interval
                    ++ ". Expected format: <number><s|m|h|d|M>"))
  | Some (num, unit) =>
      if parseInt10 num <=? 0
      then Throw (Error ("Interval must be positive: " ++ interval))
      else if falsy_entry (timeUnits unit)
      then Throw (Error ("Unknown time unit: " ++ String unit EmptyString))
      else Ok tt
  end.

Definition validFormats : list string := ["iso"; "unix"; "utc"; "rfc2822"; "epoch"].

(** [validFormats.includes(format)] *)
Definition includes (l : list string) (x : string) : bool :=
  existsb (String.eqb x) l.

(** [validFormats.join(', ')] *)
Fixpoint join_with (sep : string) (l : list string) : string :=
  match l with
  | [] => EmptyString
  | [x] => x
  | x :: rest => x ++ sep ++ join_with sep rest
  end.

Definition validateTimestampFormat (format : string) : Result unit :=
  if negb (includes validFormats format)
  then Throw (Error ("Invalid timestampFormat: " ++ format
                     ++ ". Expected one of: " ++ join_with ", " validFormats))
  else Ok tt.

End Validator.

(** ** The platform *)

(** What the code takes from Node, the JavaScript runtime and its
    libraries and does not define itself: [path.join] (and
    [path.basename] and [path.dirname], which the code does not call
    but which say what [readdir] lists, the paths that are their
    directory joined with their own last component, and in which
    directory a file is created), the three renderings of a [Date]
    (given here by its time value in milliseconds), [createGzip] of
    [node:zlib], which checks its options and throws when it rejects
    them and otherwise gives the transform from a content to its
    compressed form, the formatter that [prettyFactory] builds, and
    [createStream] of [rotating-file-stream], which checks the options
    it is given and throws when it rejects them.  The stream that
    [createStream] returns is not a value of the model: what it does
    shows as events, a [rotated] notification or a change of the
    files. *)
Record ZlibOptions : Type := { level : Z; strategy : Z }.

Class Platform : Type := {
  join : string -> string -> string;
  basename : string -> string;
  dirname : string -> string;
  toISOString : Z -> string;
  toUTCString : Z -> string;
  toLocalString : Z -> string;
  createGzip : ZlibOptions -> Result (string -> string);
  pretty_print : string -> Result string;
  createStream : string -> string -> bool -> Result unit
}.

(** ** Filename generator *)

Module Generator.

(** The first argument of [generator]: [null], a number or a [Date]
    (with its time value). *)
Inductive TimeArg : Type :=
| TimeNull
| TimeNumber (ms : Z)
| TimeDate (ms : Z).

(** [!time]: [null] and the number [0] are falsy, an object never is. *)
Definition falsy (time : TimeArg) : bool :=
  match time with
  | TimeNull => true
  | TimeNumber ms => ms =? 0
  | TimeDate _ => false
  end.

(** [new Date(time).getTime()].  A [Date] holds a time value of at most
    8.64e15 in magnitude; beyond that [new Date(n)] is an invalid date,
    which is not an instant and which this function does not
    describe. *)
Definition getTime (time : TimeArg) : Z :=
  match time with
  | TimeNull => 0
  | TimeNumber ms => ms
  | TimeDate ms => ms
  end.

Definition is_alnum (a : ascii) : bool :=
  let n := nat_of_ascii a in
  ((48 <=? n) && (n <=? 57) || (65 <=? n) && (n <=? 90)
   || (97 <=? n) && (n <=? 122))%nat.

Definition is_space (a : ascii) : bool :=
  let n := nat_of_ascii a in ((9 <=? n) && (n <=? 13) || (n =? 32))%nat.

(** [s.replace(/[-:T]/g, '')] *)
Fixpoint strip_separators (s : string) : string :=
  match s with
  | EmptyString => EmptyString
  | String a s' =>
      if (Ascii.eqb a "-" || Ascii.eqb a ":" || Ascii.eqb a "T")%char
      then strip_separators s'
      else String a (strip_separators s')
  end.

(** [s.split('.')[0]] *)
Fixpoint before_dot (s : string) : string :=
  match s with
  | EmptyString => EmptyString
  | String a s' => if Ascii.eqb a "." then EmptyString else String a (before_dot s')
  end.

(** [s.replace(/[^a-zA-Z0-9]/g, '-')] *)
Fixpoint hyphenate (s : string) : string :=
  match s with
  | EmptyString => EmptyString
  | String a s' => String (if is_alnum a then a else "-"%char) (hyphenate s')
  end.

(** [s.replace(/-+/g, '-')] *)
Fixpoint collapse_hyphens (s : string) : string :=
  match s with
  | EmptyString => EmptyString
  | String a s' =>
      if Ascii.eqb a "-"
      then match s' with
           | String b _ =>
               if Ascii.eqb b "-" then collapse_hyphens s'
               else String a (collapse_hyphens s')
           | EmptyString => String a EmptyString
           end
      else String a (collapse_hyphens s')
  end.

Fixpoint trim_start (s : string) : string :=
  match s with
  | EmptyString => EmptyString
  | String a s' => if is_space a then trim_start s' else s
  end.

(** [s.trim()] *)
Definition trim (s : string) : string :=
  Str.rev (trim_start (Str.rev (trim_start s))).

(** [(ms / 1000).toFixed(0)].  [toFixed] writes the sign, then the
    integer nearest to the magnitude, the larger one on a tie.  For the
    time value of a valid [Date] (at most 8.64e15 in magnitude) the
    double [ms / 1000] lies on the same side of every half-integer as
    the exact quotient, so the exact quotient is rounded here. *)
Definition seconds_toFixed0 (ms : Z) : string :=
  (if ms <? 0 then "-" else EmptyString) ++ pretty ((Z.abs ms + 500) / 1000).

Section WithPlatform.
Context `{Platform}.

(** The [switch] on [timestampFormat]. *)
Definition timestamp (timestampFormat : string) (ms : Z) : string :=
  if String.eqb timestampFormat "iso"
  then before_dot (strip_separators (toISOString ms))
  else if String.eqb timestampFormat "unix"
  then pretty ms
  else if String.eqb timestampFormat "utc"
  then trim (collapse_hyphens (hyphenate (toUTCString ms)))
  else if String.eqb timestampFormat "rfc2822"
  then trim (collapse_hyphens (hyphenate (toLocalString ms)))
  else if String.eqb timestampFormat "epoch"
  then seconds_toFixed0 ms
  else before_dot (strip_separators (toISOString ms)).

(** [fullName.length > 200 ? fullName.slice(0, 200) : fullName] *)
Definition truncate (fullName : string) : string :=
  if (200 <? String.length fullName)%nat then Str.slice0 200 fullName else fullName.

Definition generator (time : TimeArg) (dir filename timestampFormat : string) : string :=
  if falsy time then join dir (filename ++ ".log")
  else
    let fullName := filename ++ "-" ++ timestamp timestampFormat (getTime time) ++ ".log" in
    join dir (truncate fullName).

End WithPlatform.

End Generator.

(** ** JavaScript values handed to the error logger *)

Module Js.

(** The [unknown] second argument of [errorLogger.log]. *)
Inductive Value : Type :=
| VUndefined
| VNull
| VBool (b : bool)
| VNumber (n : Z)
| VString (s : string)
| VError (e : JsError).

(** [value ? ... : ...] *)
Definition truthy (v : Value) : bool :=
  match v with
  | VUndefined | VNull => false
  | VBool b => b
  | VNumber n => negb (n =? 0)
  | VString s => negb (String.eqb s EmptyString)
  | VError _ => true
  end.

Definition describe (code : string) : string :=
  if String.eqb code "ENOENT" then "no such file or directory"
  else if String.eqb code "EISDIR" then "illegal operation on a directory"
  else if String.eqb code "ENOTDIR" then "not a directory"
  else "unknown error".

(** The [message] property of an error. *)
Definition message (e : JsError) : string :=
  match e with
  | Error msg => msg
  | SystemError code syscall path =>
      code ++ ": " ++ describe code ++ ", " ++ syscall ++ " '" ++ path ++ "'"
  | RangeError code msg => msg
  end.

(** [Error.prototype.toString] with the name [Error]; the errors of
    Node's argument checks write their name and code before the
    message. *)
Definition error_toString (e : JsError) : string :=
  match e with
  | RangeError code msg => "RangeError [" ++ code ++ "]: " ++ msg
  | _ => if String.eqb (message e) EmptyString then "Error" else "Error: " ++ message e
  end.

(** [`${value}`] *)
Definition toString (v : Value) : string :=
  match v with
  | VUndefined => "undefined"
  | VNull => "null"
  | VBool true => "true"
  | VBool false => "false"
  | VNumber n => pretty n
  | VString s => s
  | VError e => error_toString e
  end.

End Js.

(** ** Error logger *)

Module ErrorLogger.

(** Where a flush goes: a [write] on a stream opened for appending to
    the error file, or [console.error]. *)
Inductive Target : Type :=
| ErrorFile (path : string)
| Console.

(** The closure that [createErrorLogger] returns: its three arguments,
    the two variables [buffer] and [flushInterval] it captures (the
    timer is kept as a flag: running or not), and [written], the calls
    of [write] and [console.error] its flushes have made so far, in the
    order of the calls.  Each flush to a file opens a stream of its own
    and listens to none of its events: [written] is what the logger
    has handed over, not the content of the file, where two writes
    that are made close together can land in either order, and it does
    not say whether a write arrived. *)
Record t : Type := mk {
  errorLogFile : option string;
  bufferSize : Z;
  flushIntervalMs : Z;
  buffer : list string;
  flushInterval : bool;
  written : list (Target * string)
}.

(** [errorLogFile ? file : console]: [undefined] and the empty string
    are falsy. *)
Definition target (errorLogFile : option string) : Target :=
  match errorLogFile with
  | Some path => if String.eqb path EmptyString then Console else ErrorFile path
  | None => Console
  end.

(** [flush()]: nothing on an empty buffer; otherwise the buffer is
    joined and emptied and the text handed over in one call.  The call
    itself does not throw: a stream that cannot open or write its file
    says so later in an event that nothing listens to, which is no part
    of this function. *)
Definition flush (l : t) : t :=
  match buffer l with
  | [] => l
  | _ :: _ =>
      let logMessage := Str.concat (buffer l) in
      {| errorLogFile := errorLogFile l;
         bufferSize := bufferSize l;
         flushIntervalMs := flushIntervalMs l;
         buffer := [];
         flushInterval := flushInterval l;
         written := written l ++ [(target (errorLogFile l), logMessage)] |}
  end.

(** [createErrorLogger(errorLogFile, bufferSize, flushIntervalMs)]; the
    call to [startFlushInterval] starts the timer. *)
Definition createErrorLogger (errorLogFile : option string)
    (bufferSize flushIntervalMs : Z) : t :=
  {| errorLogFile := errorLogFile;
     bufferSize := bufferSize;
     flushIntervalMs := flushIntervalMs;
     buffer := [];
     flushInterval := true;
     written := [] |}.

(** The timer set by [setInterval(flush, flushIntervalMs)] fires. *)
Definition interval_elapsed (l : t) : t :=
  if flushInterval l then flush l else l.

Definition destroy (l : t) : t :=
  let l' := flush l in
  {| errorLogFile := errorLogFile l';
     bufferSize := bufferSize l';
     flushIntervalMs := flushIntervalMs l';
     buffer := buffer l';
     flushInterval := false;
     written := written l' |}.

(** The character [\n]. *)
Definition newline : string := String (ascii_of_nat 10) EmptyString.

Section WithPlatform.
Context `{Platform}.

(** The line [log] builds; [now] is the time value of [new Date()]. *)
Definition line (now : Z) (message : string) (error : Js.Value) : string :=
  toISOString now ++ " - " ++ message
  ++ (if Js.truthy error then ": " ++ Js.toString error else EmptyString) ++ newline.

Definition log (now : Z) (message : string) (error : Js.Value) (l : t) : t :=
  let logMessage := line now message error in
  let l' := {| errorLogFile := errorLogFile l;
               bufferSize := bufferSize l;
               flushIntervalMs := flushIntervalMs l;
               buffer := buffer l ++ [logMessage];
               flushInterval := flushInterval l;
               written := written l |} in
  if bufferSize l' <=? Z.of_nat (length (buffer l')) then flush l' else l'.

(** One call of [log]: the clock at the call and the two arguments. *)
Definition Call : Type := Z * string * Js.Value.

Definition call_line (c : Call) : string :=
  let '(now, message, error) := c in line now message error.

(** A run of [log] calls, first to last. *)
Definition log_all (calls : list Call) (l : t) : t :=
  fold_left (fun l c => let '(now, message, error) := c in log now message error l)
            calls l.

End WithPlatform.

End ErrorLogger.

(** ** The state the transport works on *)

(** What a path of the file system holds. *)
Inductive Node : Type :=
| File (content : string) (mtimeMs : Z)
| Directory (mtimeMs : Z).

(** The file system, the clock ([Date.now()]), and what the closures of
    [pinoTransportRotatingFile] capture and mutate: the error logger,
    the map [compressedFiles], and the pending [setTimeout] callbacks
    that delete a path from that map (with the time each is due).
    [compressions] records every call of [compressFile] made by the
    rotation handler, source and destination, and [delivered] the
    chunks handed to the rotating stream; the code reads neither.
    What the error logger writes, to its file or to the console, is
    kept in the logger ([ErrorLogger.written]) and not in [fs]. *)
Record State : Type := mkState {
  fs : gmap string Node;
  now : Z;
  errorLogger : ErrorLogger.t;
  compressedFiles : gmap string Z;
  timeouts : list (Z * string);
  compressions : list (string * string);
  delivered : list string
}.

(** The state right after the error logger is created: nothing
    compressed, no timer pending, nothing written. *)
Definition boot (files : gmap string Node) (clock : Z) (logger : ErrorLogger.t) : State :=
  {| fs := files; now := clock; errorLogger := logger;
     compressedFiles := ∅; timeouts := []; compressions := []; delivered := [] |}.

(** A computation that reads and writes the state and either returns or
    throws; the state it leaves behind is kept in both cases. *)
Definition IO (A : Type) : Type := State -> Result A * State.

#[global] Instance io_ret : MRet IO := fun _ a s => (Ok a, s).
#[global] Instance io_bind : MBind IO := fun _ _ k m s =>
  match m s with
  | (Ok a, s') => k a s'
  | (Throw e, s') => (Throw e, s')
  end.

Definition throw {A : Type} (e : JsError) : IO A := fun s => (Throw e, s).

(** A call that touches no state: its result, returned or thrown. *)
Definition lift {A : Type} (r : Result A) : IO A := fun s => (r, s).

(** [try { body } catch (error) { handler(error) }] *)
Definition try_catch {A : Type} (body : IO A) (handler : JsError -> IO A) : IO A :=
  fun s =>
    match body s with
    | (Ok a, s') => (Ok a, s')
    | (Throw e, s') => handler e s'
    end.

Definition set_fs (fs' : gmap string Node) (s : State) : State :=
  {| fs := fs'; now := now s; errorLogger := errorLogger s;
     compressedFiles := compressedFiles s; timeouts := timeouts s;
     compressions := compressions s; delivered := delivered s |}.

Definition set_errorLogger (l : ErrorLogger.t) (s : State) : State :=
  {| fs := fs s; now := now s; errorLogger := l;
     compressedFiles := compressedFiles s; timeouts := timeouts s;
     compressions := compressions s; delivered := delivered s |}.

(** ** File system calls *)

Module Fs.

Record Stats : Type := { isFile : bool; isDirectory : bool; mtimeMs : Z }.

Definition stats_of (n : Node) : Stats :=
  match n with
  | File _ mtime => {| isFile := true; isDirectory := false; mtimeMs := mtime |}
  | Directory mtime => {| isFile := false; isDirectory := true; mtimeMs := mtime |}
  end.

(** [access(path)] *)
Definition access (path : string) : IO unit := fun s =>
  match fs s !! path with
  | Some _ => (Ok tt, s)
  | None => (Throw (SystemError "ENOENT" "access" path), s)
  end.

(** [stat(path)] *)
Definition stat (path : string) : IO Stats := fun s =>
  match fs s !! path with
  | Some n => (Ok (stats_of n), s)
  | None => (Throw (SystemError "ENOENT" "stat" path), s)
  end.

(** [unlink(path)]; a directory cannot be unlinked. *)
Definition unlink (path : string) : IO unit := fun s =>
  match fs s !! path with
  | Some (File _ _) => (Ok tt, set_fs (delete path (fs s)) s)
  | Some (Directory _) => (Throw (SystemError "EISDIR" "unlink" path), s)
  | None => (Throw (SystemError "ENOENT" "unlink" path), s)
  end.

Section WithPlatform.
Context `{Platform}.

(** What opening [dest] for writing meets: a directory at the path, or
    no directory to create the file in. *)
Definition open_for_writing (dest : string) (files : gmap string Node) : Result unit :=
  match files !! dest with
  | Some (Directory _) => Throw (SystemError "EISDIR" "open" dest)
  | _ =>
      match files !! dirname dest with
      | Some (Directory _) => Ok tt
      | Some (File _ _) => Throw (SystemError "ENOTDIR" "open" dest)
      | None => Throw (SystemError "ENOENT" "open" dest)
      end
  end.

(** What reading [src] to its end gives. *)
Definition read_all (src : string) (files : gmap string Node) : Result string :=
  match files !! src with
  | Some (File content _) => Ok content
  | Some (Directory _) => Throw (SystemError "EISDIR" "read" src)
  | None => Throw (SystemError "ENOENT" "open" src)
  end.

(** [pipelineAsync(createReadStream(src), gz, createWriteStream(dest))]
    for the transform [gz] that [createGzip] has returned, taken as one
    step when its promise settles.  The two streams open their files on
    their own: when the destination cannot be opened the pipeline
    fails and the files are as they were; when the destination is opened
    it is created or emptied, also when the source then cannot be read;
    when both can be used the destination holds the compressed
    content. *)
Definition pipelineAsync (src : string) (gz : string -> string) (dest : string)
  : IO unit := fun s =>
  match open_for_writing dest (fs s), read_all src (fs s) with
  | Ok _, Ok content =>
      (Ok tt, set_fs (<[dest := File (gz content) (now s)]> (fs s)) s)
  | Ok _, Throw e =>
      (Throw e, set_fs (<[dest := File EmptyString (now s)]> (fs s)) s)
  | Throw e, _ => (Throw e, s)
  end.

End WithPlatform.

End Fs.

(** ** Compression worker *)

Section Compression.
Context `{Platform}.

(** [errorLogger.log(message, error)] on the logger of the state. *)
Definition log (message : string) (error : Js.Value) : IO unit := fun s =>
  (Ok tt, set_errorLogger (ErrorLogger.log (now s) message error (errorLogger s)) s).

Definition fileExists (path : string) : IO bool :=
  try_catch (Fs.access path ≫= fun _ => mret true) (fun _ => mret false).

(** [compressFile], read in one piece: the call in which nothing else
    touches the files between its [await]s.  [compressFile_resume]
    below is the same code [await] by [await]. *)
Definition compressFile (src dest : string) (compressionOptions : ZlibOptions)
  : IO unit :=
  try_catch
    (exists_ ← fileExists src;
     if negb exists_
     then log ("Skipping compression, file does not exist: " ++ src) Js.VUndefined
     else
       stats ← Fs.stat src;
       if Fs.isDirectory stats
       then log ("Skipping compression, source is a directory: " ++ src) Js.VUndefined
       else
         gz ← lift (createGzip compressionOptions);
         Fs.pipelineAsync src gz dest;;
         destExists ← fileExists dest;
         (if negb destExists
          then throw (Error ("Compression failed: Destination file " ++ dest
                             ++ " not found"))
          else mret tt);;
         Fs.unlink src)
    (fun error =>
       log ("Error compressing file " ++ src) (Js.VError error);;
       throw error).

End Compression.

(** ** Retention sweeper *)

Section Retention.
Context `{Platform}.

(** The names [readdir(dir)] lists: the last components of the paths
    that lie directly in [dir]. *)
Definition children (dir : string) (m : gmap string Node) : list string :=
  omap (fun path =>
          if String.eqb (join dir (basename path)) path
          then Some (basename path) else None)
       (elements (dom m)).

(** [readdir(dir)] *)
Definition readdir (dir : string) : IO (list string) := fun s =>
  match fs s !! dir with
  | Some (Directory _) => (Ok (children dir (fs s)), s)
  | Some (File _ _) => (Throw (SystemError "ENOTDIR" "scandir" dir), s)
  | None => (Throw (SystemError "ENOENT" "scandir" dir), s)
  end.

(** [Date.now()] *)
Definition date_now : IO Z := fun s => (Ok (now s), s).

(** [await Promise.all(tasks)] for tasks that were all started: each
    one runs to its end whether or not another one has failed, and
    [Promise.all] rejects with the first failure.  In which order the
    tasks settle is up to the scheduler.  This function gives the state
    when all of them have settled, for the order in which the tasks
    that succeed settle first, in the order of the list, and the
    failing ones after them; a failing task of the sweep logs nothing
    itself, so the lines are then in the order in which the calls of
    [log] are made.  Each task of the sweep works on a path of its own:
    the files that are left do not depend on the order.  The order of
    the logged lines and the failure that is reported do, and so does
    the state at the moment the awaiting function goes on. *)
Fixpoint promise_all (tasks : list (IO unit)) : IO unit :=
  match tasks with
  | [] => mret tt
  | task :: rest => fun s =>
      match task s with
      | (Ok _, s') => promise_all rest s'
      | (Throw e, s') => (Throw e, snd (promise_all rest s'))
      end
  end.

(** The filter on the listed names. *)
Definition is_log_of (filename file : string) : bool :=
  Str.startsWith filename file
  && (Str.endsWith ".log" file || Str.endsWith ".log.gz" file).

(** The callback mapped over the names that pass the filter. *)
Definition sweep_one (dir : string) (cutoff : Z) (file : string) : IO unit :=
  let filePath := join dir file in
  stats ← Fs.stat filePath;
  if Fs.mtimeMs stats <? cutoff
  then Fs.unlink filePath;;
       log ("Deleted old log file: " ++ filePath) Js.VUndefined
  else mret tt.

(** The [try] block of [cleanupOldFiles]. *)
Definition sweep (dir filename : string) (retentionDays : Z) : IO unit :=
  files ← readdir dir;
  today ← date_now;
  let cutoff := today - retentionDays * 24 * 60 * 60 * 1000 in
  promise_all (map (sweep_one dir cutoff) (filter (is_log_of filename) files)).

Definition cleanupOldFiles (dir filename : string) (retentionDays : Z) : IO unit :=
  try_catch
    (sweep dir filename retentionDays)
    (fun error =>
       log ("Error during log file cleanup in " ++ dir) (Js.VError error)).

End Retention.

(** ** Transport pipeline *)

(** [Partial<PinoTransportOptions>]: every field may be absent. *)
Module Options.
Record t : Type := mk {
  dir : option string;
  filename : option string;
  enabled : option bool;
  size : option string;
  interval : option string;
  compress : option bool;
  immutable : option bool;
  retentionDays : option Z;
  compressionOptions : option ZlibOptions;
  errorLogFile : option string;
  timestampFormat : option string;
  skipPretty : option bool;
  errorFlushIntervalMs : option Z
}.

(** [{}]: no field given. *)
Definition empty : t :=
  mk None None None None None None None None None None None None None.
End Options.

(** What the closures of an enabled transport capture: the options after
    the defaults are filled in, whether the daily cleanup timer is set,
    whether the pipeline [source -> prettyStream -> rotatingStream] is
    still up, and the mutable state. *)
Module Active.
Record t : Type := mk {
  dir : string;
  filename : string;
  size : string;
  interval : string;
  compress : bool;
  immutable : bool;
  retentionDays : Z;
  compressionOptions : ZlibOptions;
  timestampFormat : string;
  skipPretty : bool;
  cleanupInterval : bool;
  piped : bool;
  state : State
}.

Definition set_state (s : State) (a : t) : t :=
  mk (dir a) (filename a) (size a) (interval a) (compress a) (immutable a)
     (retentionDays a) (compressionOptions a) (timestampFormat a) (skipPretty a)
     (cleanupInterval a) (piped a) s.

Definition set_cleanupInterval (b : bool) (a : t) : t :=
  mk (dir a) (filename a) (size a) (interval a) (compress a) (immutable a)
     (retentionDays a) (compressionOptions a) (timestampFormat a) (skipPretty a)
     b (piped a) (state a).

Definition set_piped (b : bool) (a : t) : t :=
  mk (dir a) (filename a) (size a) (interval a) (compress a) (immutable a)
     (retentionDays a) (compressionOptions a) (timestampFormat a) (skipPretty a)
     (cleanupInterval a) b (state a).
End Active.

(** The stream [pinoTransportRotatingFile] resolves to: the pass-through
    of a disabled transport, or an enabled one. *)
Inductive Transport : Type :=
| PassThrough
| Running (a : Active.t).

(** What a [Transform] hands to its callback: [callback(null, data)] or
    [callback(error)]. *)
Inductive CallbackArg : Type :=
| Data (chunk : string)
| Failure (error : JsError).

(** The promise a run of [compressFile] is waiting for: [fileExists(src)],
    [stat(src)], the pipeline (with the transform that [createGzip] has
    returned), [fileExists(dest)] or [unlink(src)]. *)
Inductive CompressAwait : Type :=
| SourceExists
| SourceStat
| Pipeline (gz : string -> string)
| DestExists
| Unlink.

(** The promise a run of the [rotated] listener is waiting for: its own
    [stat(rotatedFile)], or one inside its call of [compressFile]. *)
Inductive Await : Type :=
| RotatedStat
| InCompressFile (at_ : CompressAwait).

Section TransportPipeline.
Context `{Platform}.

Definition MAX_COMPRESSION_AGE : Z := 24 * 60 * 60 * 1000.

(** [compressedFiles.has(path)] *)
Definition ledger_has (path : string) : IO bool := fun s =>
  (Ok (bool_decide (is_Some (compressedFiles s !! path))), s).

(** [compressedFiles.set(path, Date.now())] *)
Definition ledger_set (path : string) : IO unit := fun s =>
  (Ok tt,
   {| fs := fs s; now := now s; errorLogger := errorLogger s;
      compressedFiles := <[path := now s]> (compressedFiles s);
      timeouts := timeouts s; compressions := compressions s;
      delivered := delivered s |}).

(** [setTimeout(() => compressedFiles.delete(path), delay)] *)
Definition setTimeout_delete (path : string) (delay : Z) : IO unit := fun s =>
  (Ok tt,
   {| fs := fs s; now := now s; errorLogger := errorLogger s;
      compressedFiles := compressedFiles s;
      timeouts := (now s + delay, path) :: timeouts s;
      compressions := compressions s; delivered := delivered s |}).

Definition record_compression (src dest : string) : IO unit := fun s =>
  (Ok tt,
   {| fs := fs s; now := now s; errorLogger := errorLogger s;
      compressedFiles := compressedFiles s; timeouts := timeouts s;
      compressions := (compressions s ++ [(src, dest)])%list;
      delivered := delivered s |}).

(** The [try] block of the listener of the [rotated] event. *)
Definition compress_rotated (compressionOptions : ZlibOptions) (rotatedFile : string)
  : IO unit :=
  has ← ledger_has rotatedFile;
  if (has : bool) then mret tt
  else
    stats ← Fs.stat rotatedFile;
    if Fs.isFile stats
    then
      let compressedFile := rotatedFile ++ ".gz" in
      record_compression rotatedFile compressedFile;;
      compressFile rotatedFile compressedFile compressionOptions;;
      ledger_set rotatedFile;;
      setTimeout_delete rotatedFile MAX_COMPRESSION_AGE
    else
      log ("Skipping compression, rotated file is a directory: " ++ rotatedFile)
          Js.VUndefined.

(** The listener of the [rotated] event, read in one piece: the run in
    which no other listener, timer or program does anything between its
    [await]s.  [listener_resume] below is the same code [await] by
    [await]. *)
Definition on_rotated (compressionOptions : ZlibOptions) (rotatedFile : string)
  : IO unit :=
  try_catch
    (compress_rotated compressionOptions rotatedFile)
    (fun err =>
       log ("Error compressing rotated file " ++ rotatedFile) (Js.VError err)).

(** [compressFile] from the promise it waits for to the next one: the
    awaited call is made on the state of that moment and the code runs
    on to its next [await] ([Some]) or to its end ([None]); what it
    throws on the way goes through its [catch]. *)
Definition compressFile_resume (src dest : string) (compressionOptions : ZlibOptions)
    (at_ : CompressAwait) : IO (option CompressAwait) :=
  try_catch
    (match at_ with
     | SourceExists =>
         exists_ ← fileExists src;
         if negb exists_
         then log ("Skipping compression, file does not exist: " ++ src) Js.VUndefined;;
              mret None
         else mret (Some SourceStat)
     | SourceStat =>
         stats ← Fs.stat src;
         if Fs.isDirectory stats
         then log ("Skipping compression, source is a directory: " ++ src) Js.VUndefined;;
              mret None
         else
           gz ← lift (createGzip compressionOptions);
           mret (Some (Pipeline gz))
     | Pipeline gz =>
         Fs.pipelineAsync src gz dest;;
         mret (Some DestExists)
     | DestExists =>
         destExists ← fileExists dest;
         if negb destExists
         then throw (Error ("Compression failed: Destination file " ++ dest
                            ++ " not found"))
         else mret (Some Unlink)
     | Unlink =>
         Fs.unlink src;;
         mret None
     end)
    (fun error =>
       log ("Error compressing file " ++ src) (Js.VError error);;
       throw error).

(** The listener from the promise it waits for to the next one.  When
    [compressFile] has returned, the listener records the path and sets
    the timeout before it ends. *)
Definition listener_resume (compressionOptions : ZlibOptions) (rotatedFile : string)
    (at_ : Await) : IO (option Await) :=
  try_catch
    (match at_ with
     | RotatedStat =>
         stats ← Fs.stat rotatedFile;
         if Fs.isFile stats
         then
           record_compression rotatedFile (rotatedFile ++ ".gz");;
           mret (Some (InCompressFile SourceExists))
         else
           log ("Skipping compression, rotated file is a directory: " ++ rotatedFile)
               Js.VUndefined;;
           mret None
     | InCompressFile c =>
         next ← compressFile_resume rotatedFile (rotatedFile ++ ".gz")
                                    compressionOptions c;
         match next with
         | Some c' => mret (Some (InCompressFile c'))
         | None =>
             ledger_set rotatedFile;;
             setTimeout_delete rotatedFile MAX_COMPRESSION_AGE;;
             mret None
         end
     end)
    (fun err =>
       log ("Error compressing rotated file " ++ rotatedFile) (Js.VError err);;
       mret None).

(** A listener that is resumed again and again with nothing in between,
    until it ends; it has six [await]s. *)
Fixpoint settle (fuel : nat) (compressionOptions : ZlibOptions) (rotatedFile : string)
    (at_ : Await) (s : State) : State :=
  match fuel with
  | O => s
  | S fuel' =>
      match listener_resume compressionOptions rotatedFile at_ s with
      | (Ok (Some next), s') => settle fuel' compressionOptions rotatedFile next s'
      | (_, s') => s'
      end
  end.

(** The clock reaches [t]: every pending timeout that is due by then
    runs its callback and is dropped. *)
Definition due (t : Z) (timeout : Z * string) : bool := fst timeout <=? t.

Definition advance (t : Z) (s : State) : State :=
  let t' := Z.max t (now s) in
  {| fs := fs s; now := t'; errorLogger := errorLogger s;
     compressedFiles :=
       fold_right (fun timeout m => delete (snd timeout) m) (compressedFiles s)
                  (List.filter (due t') (timeouts s));
     timeouts := List.filter (fun timeout => negb (due t' timeout)) (timeouts s);
     compressions := compressions s; delivered := delivered s |}.

(** The [transform] method of the formatting stream, for a callback
    that works on a state of any kind: [try { callback(null,
    pretty(chunk)) } catch (error) { callback(error) }]. *)
Definition transform {S : Type} (chunk : string)
    (callback : CallbackArg -> S -> Result unit * S) : S -> Result unit * S :=
  fun s =>
    match (match pretty_print chunk with
           | Ok prettyLog => callback (Data prettyLog) s
           | Throw error => (Throw error, s)
           end) with
    | (Ok done, s') => (Ok done, s')
    | (Throw error, s') => callback (Failure error) s'
    end.

(** The callback given to [pipeline]. *)
Definition pipeline_done (err : option JsError) : IO unit :=
  match err with
  | Some e => log "Failed to write log in transport" (Js.VError e)
  | None => mret tt
  end.

(** The rotating stream takes a chunk. *)
Definition deliver (chunk : string) : IO unit := fun s =>
  (Ok tt,
   {| fs := fs s; now := now s; errorLogger := errorLogger s;
      compressedFiles := compressedFiles s; timeouts := timeouts s;
      compressions := compressions s;
      delivered := (delivered s ++ [chunk])%list |}).

Definition default {A : Type} (d : A) (o : option A) : A :=
  match o with Some a => a | None => d end.

(** [validate... ; rest]: a validator that throws ends the
    construction, and so does [createStream] when it throws. *)
Definition check (r : Result unit) (rest : Result Transport) : Result Transport :=
  match r with
  | Ok _ => rest
  | Throw e => Throw e
  end.

(** [pinoTransportRotatingFile(options)], started on the file system
    [files] at the time [clock]. *)
Definition pinoTransportRotatingFile (options : Options.t)
    (files : gmap string Node) (clock : Z) : Result Transport :=
  let dir := Options.dir options in
  let filename := default "app" (Options.filename options) in
  let enabled := default true (Options.enabled options) in
  let size := default "100K" (Options.size options) in
  let interval := default "1d" (Options.interval options) in
  let compress := default true (Options.compress options) in
  let immutable := default true (Options.immutable options) in
  let retentionDays := default 30 (Options.retentionDays options) in
  let compressionOptions :=
    default {| level := 6; strategy := 0 |} (Options.compressionOptions options) in
  let errorLogFile := Options.errorLogFile options in
  let timestampFormat := default "iso" (Options.timestampFormat options) in
  let skipPretty := default false (Options.skipPretty options) in
  let errorFlushIntervalMs :=
    default (60 * 1000) (Options.errorFlushIntervalMs options) in
  if negb enabled then Ok PassThrough
  else
    match dir with
    | None => Throw (Error "Missing required option: dir")
    | Some dir =>
        if String.eqb dir EmptyString
        then Throw (Error "Missing required option: dir")
        else
          check (Validator.validateSize size)
          (check (Validator.validateInterval interval)
          (check (Validator.validateTimestampFormat timestampFormat)
          (let errorLogger :=
             ErrorLogger.createErrorLogger errorLogFile 100 errorFlushIntervalMs in
           check (createStream size interval immutable)
           (let s0 := boot files clock errorLogger in
            let sweep : IO bool :=
              if 0 <? retentionDays
              then cleanupOldFiles dir filename retentionDays;; mret true
              else mret false in
            match sweep s0 with
            | (Ok cleanupInterval, s1) =>
                Ok (Running
                      (Active.mk dir filename size interval compress immutable
                                 retentionDays compressionOptions timestampFormat
                                 skipPretty cleanupInterval true s1))
            | (Throw e, _) => Throw e
            end))))
    end.

(** The name the rotating stream asks for. *)
Definition rotated_name (a : Active.t) (time : Generator.TimeArg) : string :=
  Generator.generator time (Active.dir a) (Active.filename a)
                      (Active.timestampFormat a).

(** Running an action of the transport and keeping the state. *)
Definition run (action : IO unit) (a : Active.t) : Result unit * Active.t :=
  let '(r, s) := action (Active.state a) in (r, Active.set_state s a).

(** The rotating stream emits [rotated]: the listener is there only when
    [compress] is set. *)
Definition emit_rotated (rotatedFile : string) (a : Active.t) : Result unit * Active.t :=
  if Active.compress a
  then run (on_rotated (Active.compressionOptions a) rotatedFile) a
  else (Ok tt, a).

(** The daily timer fires. *)
Definition cleanup_timer (a : Active.t) : Result unit * Active.t :=
  if Active.cleanupInterval a
  then run (cleanupOldFiles (Active.dir a) (Active.filename a) (Active.retentionDays a)) a
  else (Ok tt, a).

(** [close()], up to the end of the rotating stream: the error logger is
    destroyed and the cleanup timer cleared; the rotating stream is
    asked to end, which takes the pipeline down. *)
Definition close (a : Active.t) : Active.t :=
  let s := Active.state a in
  Active.set_piped false
    (Active.set_cleanupInterval false
       (Active.set_state (set_errorLogger (ErrorLogger.destroy (errorLogger s)) s) a)).

(** One of the streams of the pipeline fails with [err].  [pipeline]
    destroys its streams, and destroying [source] runs the [close] given
    to [build]; after that [pipeline] calls its callback with [err]. *)
Definition pipeline_error (err : JsError) (a : Active.t) : Result unit * Active.t :=
  run (pipeline_done (Some err)) (close a).

(** A line reaches the formatting stream of a transport that formats
    ([skipPretty] is false), and the formatted line the rotating stream;
    [engineError] is the error the rotating stream raises on it, if any.
    Once the pipeline is down its streams take nothing.  (With
    [skipPretty] the code hands [source] to [pipeline] twice; what the
    stream library makes of that is not embedded.) *)
Definition write (engineError : option JsError) (line : string) (a : Active.t)
  : Result unit * Active.t :=
  if negb (Active.piped a) then (Ok tt, a)
  else
    transform line
      (fun arg a' =>
         match arg with
         | Data prettyLog =>
             match engineError with
             | Some e => pipeline_error e a'
             | None => run (deliver prettyLog) a'
             end
         | Failure error => pipeline_error error a'
         end) a.

End TransportPipeline.

(** ** The life of the transport *)

(** The transport between two steps: its state, and the runs of the
    [rotated] listener that are waiting for a promise, each with the
    file it was called for. *)
Record World : Type := mkWorld {
  transport : State;
  listeners : list (string * Await)
}.

(** What happens after the transport is constructed: the rotating stream
    announces a rotated file and the listener starts; the promise that
    the listener at some position waits for settles and that listener
    runs on to its next [await]; the clock moves on; the daily sweep
    runs; the error logger's timer fires; or something outside the
    transport (the rotating stream first of all, or another program)
    changes the files. *)
Inductive Event : Type :=
| Rotated (rotatedFile : string)
| Settled (position : nat)
| Elapsed (t : Z)
| Swept (dir filename : string) (retentionDays : Z)
| Flushed
| Outside (files : gmap string Node).

Section Life.
Context `{Platform}.

Definition start (files : gmap string Node) (clock : Z) (logger : ErrorLogger.t) : World :=
  {| transport := boot files clock logger; listeners := [] |}.

Definition set_transport (s : State) (w : World) : World :=
  {| transport := s; listeners := listeners w |}.

(** The listener is called: it tests the ledger at once, and when the
    path is not there it calls [stat] and waits. *)
Definition notify (rotatedFile : string) (w : World) : World :=
  if bool_decide (is_Some (compressedFiles (transport w) !! rotatedFile))
  then w
  else {| transport := transport w;
          listeners := (listeners w ++ [(rotatedFile, RotatedStat)])%list |}.

(** The listener at [position] goes on. *)
Definition resume (options : ZlibOptions) (position : nat) (w : World) : World :=
  match listeners w !! position with
  | None => w
  | Some (rotatedFile, at_) =>
      match listener_resume options rotatedFile at_ (transport w) with
      | (Ok (Some next), s') =>
          {| transport := s';
             listeners := <[position := (rotatedFile, next)]> (listeners w) |}
      | (_, s') =>
          {| transport := s'; listeners := delete position (listeners w) |}
      end
  end.

Definition step (options : ZlibOptions) (w : World) (e : Event) : World :=
  match e with
  | Rotated rotatedFile => notify rotatedFile w
  | Settled position => resume options position w
  | Elapsed t => set_transport (advance t (transport w)) w
  | Swept dir filename retentionDays =>
      set_transport (snd (cleanupOldFiles dir filename retentionDays (transport w))) w
  | Flushed =>
      set_transport
        (set_errorLogger (ErrorLogger.interval_elapsed (errorLogger (transport w)))
                         (transport w)) w
  | Outside files => set_transport (set_fs files (transport w)) w
  end.

Definition run_events (options : ZlibOptions) (events : list Event) (w : World) : World :=
  fold_left (step options) events w.

End Life.

(** ** The life of an error logger *)

Module LoggerLife.
Import ErrorLogger.

(** What happens to an error logger: a call of [log] (with the clock at
    the call), the timer of [setInterval] firing, a call of [destroy]. *)
Inductive Event : Type :=
| Logged (now : Z) (message : string) (error : Js.Value)
| IntervalElapsed
| Destroyed.

Section WithPlatform.
Context `{Platform}.

Definition react (l : t) (e : Event) : t :=
  match e with
  | Logged now message error => log now message error l
  | IntervalElapsed => interval_elapsed l
  | Destroyed => destroy l
  end.

Definition replay (events : list Event) (l : t) : t := fold_left react events l.

(** The lines the [log] calls among the events build, in order. *)
Definition lines (events : list Event) : list string :=
  omap (fun e => match e with
                 | Logged now message error => Some (line now message error)
                 | _ => None
                 end) events.

End WithPlatform.

(** Everything the logger has taken so far, in order: what it has
    written, then what it still buffers. *)
Definition output (l : t) : string :=
  Str.concat (map snd (written l)) ++ Str.concat (buffer l).

End LoggerLife.

(** ** POSIX paths *)

(** [path.join], [path.basename] and [path.dirname] as [node:path] has
    them on a POSIX machine, where the one separator is the slash. *)
Module Posix.

Definition is_slash (a : ascii) : bool := Ascii.eqb a "/".


(** [path.split('/')] *)
Fixpoint segments (path : string) : list string :=
  match path with
  | EmptyString => [EmptyString]
  | String a rest =>
      if is_slash a then EmptyString :: segments rest
      else match segments rest with
           | segment :: others => String a segment :: others
           | [] => [String a EmptyString]
           end
  end.

(** [parts.join('/')] *)
Fixpoint unsegments (parts : list string) : string :=
  match parts with
  | [] => EmptyString
  | [part] => part
  | part :: rest => part ++ "/" ++ unsegments rest
  end.

(** One round of the loop of [normalizeString], on the segments kept so
    far, the last one first: an empty segment and [.] are dropped, [..]
    takes the last segment away when there is one that is not [..]
    itself, and else stays only where the path may climb above its
    start. *)
Definition resolve (allowAboveRoot : bool) (kept : list string) (segment : string)
  : list string :=
  if String.eqb segment EmptyString || String.eqb segment "." then kept
  else if String.eqb segment ".."
  then match kept with
       | top :: rest =>
           if String.eqb top ".."
           then (if allowAboveRoot then ".." :: kept else kept)
           else rest
       | [] => if allowAboveRoot then [".."] else []
       end
  else segment :: kept.

Definition starts_with_slash (path : string) : bool :=
  match path with
  | String a _ => is_slash a
  | EmptyString => false
  end.

Definition ends_with_slash (path : string) : bool :=
  match List.rev (list_ascii_of_string path) with
  | a :: _ => is_slash a
  | [] => false
  end.

(** [path.normalize(path)] *)
Definition normalize (path : string) : string :=
  if String.eqb path EmptyString then "."
  else
    let isAbsolute := starts_with_slash path in
    let trailingSeparator := ends_with_slash path in
    let body :=
      unsegments (List.rev (fold_left (resolve (negb isAbsolute)) (segments path) [])) in
    if String.eqb body EmptyString
    then (if isAbsolute then "/" else if trailingSeparator then "./" else ".")
    else (if isAbsolute then "/" else EmptyString) ++ body
         ++ (if trailingSeparator then "/" else EmptyString).

(** [path.join(dir, name)]: the arguments that are not empty, joined
    with a slash and normalized. *)
Definition join (dir name : string) : string :=
  if String.eqb dir EmptyString
  then (if String.eqb name EmptyString then "." else normalize name)
  else if String.eqb name EmptyString then normalize dir
  else normalize (dir ++ "/" ++ name).

Fixpoint drop_while (p : ascii -> bool) (l : list ascii) : list ascii :=
  match l with
  | a :: rest => if p a then drop_while p rest else l
  | [] => []
  end.

Fixpoint take_while (p : ascii -> bool) (l : list ascii) : list ascii :=
  match l with
  | a :: rest => if p a then a :: take_while p rest else []
  | [] => []
  end.

Definition not_slash (a : ascii) : bool := negb (is_slash a).

(** [path.basename(path)]: from the end, the slashes are passed over
    and what stands before the next slash is the name. *)
Definition basename (path : string) : string :=
  string_of_list_ascii
    (List.rev (take_while not_slash
                 (drop_while is_slash (List.rev (list_ascii_of_string path))))).

(** [path.dirname(path)]: from the end and not looking at the first
    character, the slashes and then the name are passed over; what
    stands before the slash that follows is the directory. *)
Definition dirname (path : string) : string :=
  match list_ascii_of_string path with
  | [] => "."
  | first :: rest =>
      let hasRoot := is_slash first in
      match drop_while not_slash (drop_while is_slash (List.rev rest)) with
      | [] => if hasRoot then "/" else "."
      | _ :: before =>
          match before with
          | [] => if hasRoot then "//" else String first EmptyString
          | _ :: _ => string_of_list_ascii (first :: List.rev before)
          end
      end
  end.

End Posix.

(** ** A reference platform *)

(** A POSIX machine in the UTC time zone, for running the model on
    concrete inputs: paths are those of [Posix], dates are rendered
    with the proleptic Gregorian calendar (years 0 to 9999), the
    compressor checks the level and the strategy as [node:zlib] does
    and is otherwise a stand-in that tags its input, the formatter is
    one that passes a line through and fails on the empty line, and the
    rotating stream checks its interval as [rotating-file-stream]
    documents: a number of seconds or minutes has to divide 60 and a
    number of hours 24. *)
Module Reference.

Definition pad (width : nat) (n : Z) : string :=
  let digits := pretty n in
  String.concat EmptyString (repeat "0" (width - String.length digits)) ++ digits.

Definition ms_per_day : Z := 86400000.

(** Year, month and day of a count of days since 1970-01-01. *)
Definition civil_from_days (days : Z) : Z * Z * Z :=
  let z := days + 719468 in
  let era := z / 146097 in
  let doe := z - era * 146097 in
  let yoe := (doe - doe / 1460 + doe / 36524 - doe / 146096) / 365 in
  let doy := doe - (365 * yoe + yoe / 4 - yoe / 100) in
  let mp := (5 * doy + 2) / 153 in
  let d := doy - (153 * mp + 2) / 5 + 1 in
  let m := if mp <? 10 then mp + 3 else mp - 9 in
  let y := yoe + era * 400 + (if m <=? 2 then 1 else 0) in
  (y, m, d).

Definition day_name (days : Z) : string :=
  nth (Z.to_nat ((days + 4) mod 7))
      ["Sun"; "Mon"; "Tue"; "Wed"; "Thu"; "Fri"; "Sat"] EmptyString.

Definition month_name (m : Z) : string :=
  nth (Z.to_nat (m - 1))
      ["Jan"; "Feb"; "Mar"; "Apr"; "May"; "Jun";
       "Jul"; "Aug"; "Sep"; "Oct"; "Nov"; "Dec"] EmptyString.

Definition clock (ms : Z) : string :=
  let t := ms mod ms_per_day in
  pad 2 (t / 3600000) ++ ":" ++ pad 2 (t / 60000 mod 60) ++ ":"
  ++ pad 2 (t / 1000 mod 60).

Definition iso (ms : Z) : string :=
  let '(y, m, d) := civil_from_days (ms / ms_per_day) in
  pad 4 y ++ "-" ++ pad 2 m ++ "-" ++ pad 2 d ++ "T" ++ clock ms
  ++ "." ++ pad 3 (ms mod 1000) ++ "Z".

Definition utc (ms : Z) : string :=
  let days := ms / ms_per_day in
  let '(y, m, d) := civil_from_days days in
  day_name days ++ ", " ++ pad 2 d ++ " " ++ month_name m ++ " " ++ pad 4 y
  ++ " " ++ clock ms ++ " GMT".

Definition local (ms : Z) : string :=
  let days := ms / ms_per_day in
  let '(y, m, d) := civil_from_days days in
  day_name days ++ " " ++ month_name m ++ " " ++ pad 2 d ++ " " ++ pad 4 y
  ++ " " ++ clock ms ++ " GMT+0000 (Coordinated Universal Time)".

(** The double quote, which stands around the name of an option. *)
Definition quote : string := String (ascii_of_nat 34) EmptyString.

Definition out_of_range (name : string) (lower upper value : Z) : JsError :=
  RangeError "ERR_OUT_OF_RANGE"
             ("The value of " ++ quote ++ name ++ quote ++ " is out of range. It must be >= "
              ++ pretty lower ++ " and <= " ++ pretty upper ++ ". Received "
              ++ pretty value).

(** [createGzip(options)]: the level has to lie between [Z_MIN_LEVEL]
    and [Z_MAX_LEVEL], the strategy between [Z_DEFAULT_STRATEGY] and
    [Z_FIXED]. *)
Definition zlib (options : ZlibOptions) : Result (string -> string) :=
  if negb ((-1 <=? level options) && (level options <=? 9))
  then Throw (out_of_range "options.level" (-1) 9 (level options))
  else if negb ((0 <=? strategy options) && (strategy options <=? 4))
  then Throw (out_of_range "options.strategy" 0 4 (strategy options))
  else Ok (fun content => "gzip(" ++ content ++ ")").

Definition divides (n amount : Z) : bool := (0 <? n) && (amount mod n =? 0).

(** [createStream(generator, {size, interval, immutable})], for a size
    and an interval that the validators of the transport have let
    through. *)
Definition rotating_stream (size interval : string) (immutable : bool) : Result unit :=
  match Validator.exec_num_unit Validator.time_units interval with
  | Some (num, unit) =>
      let n := Validator.parseInt10 num in
      if Ascii.eqb unit "h" && negb (divides n 24)
      then Throw (Error "An integer divider of 24 is expected as hours for 'options.interval'")
      else if Ascii.eqb unit "m" && negb (divides n 60)
      then Throw (Error "An integer divider of 60 is expected as minutes for 'options.interval'")
      else if Ascii.eqb unit "s" && negb (divides n 60)
      then Throw (Error "An integer divider of 60 is expected as seconds for 'options.interval'")
      else Ok tt
  | None => Throw (Error ("Unknown 'options.interval' format: " ++ interval))
  end.

#[export] Instance platform : Platform := {|
  join := Posix.join;
  basename := Posix.basename;
  dirname := Posix.dirname;
  toISOString := iso;
  toUTCString := utc;
  toLocalString := local;
  createGzip := zlib;
  pretty_print line :=
    if String.eqb line EmptyString then Throw (Error "nothing to format")
    else Ok line;
  createStream := rotating_stream
|}.

End Reference.

(** ** Sample states *)

Section Samples.
Import Reference.

Definition default_compression : ZlibOptions := {| level := 6; strategy := 0 |}.

(** Compression options that [node:zlib] rejects. *)
Definition level_ten : ZlibOptions := {| level := 10; strategy := 0 |}.

(** A log directory with one rotated file. *)
Definition one_log : gmap string Node :=
  {[ "logs" := Directory 0; "logs/app-1.log" := File "hello" 5 ]}.

(** A state with one rotated file, at time 1000. *)
Definition one_rotated_file : State :=
  boot one_log 1000 (ErrorLogger.createErrorLogger None 100 60000).


(** Day 10, a retention of one day: two old logs, a fresh one, a file
    of another kind and a directory named like a log. *)
Definition log_directory : State :=
  boot {[ "logs" := Directory 0;
              "logs/app.log" := File "live" 863999999;
              "logs/app-1.log" := File "old" 5;
              "logs/app-1.log.gz" := File "older" 4;
              "logs/app-2.log" := File "fresh" 800000000;
              "logs/notes.txt" := File "keep" 1;
              "logs/other-1.log" := File "theirs" 1;
              "logs/app-dir.log" := Directory 2 ]}
          864000000 (ErrorLogger.createErrorLogger None 100 60000).

(** A notification for the rotated file and the six promises of its
    listener settling one after the other. *)
Definition one_listener : list Event :=
  [Rotated "logs/app-1.log"; Settled 0; Settled 0; Settled 0; Settled 0; Settled 0;
   Settled 0].

(** The transport after that listener has run to its end. *)
Definition rotated_once : World :=
  run_events default_compression one_listener
             (start one_log 1000 (ErrorLogger.createErrorLogger None 100 60000)).

(** Two notifications for the same file before the first listener has
    recorded it: both listeners are let in, both find the file, the
    first compresses and removes it, the second finds it gone when
    [compressFile] looks and records the path a second time, three
    seconds after the first. *)
Definition overlapping : list Event :=
  [Rotated "logs/app-1.log"; Rotated "logs/app-1.log";
   Settled 0; Settled 1;
   Settled 0; Settled 0; Settled 0; Settled 0; Settled 0;
   Elapsed 4000; Settled 0].

Definition rotated_twice : World :=
  run_events default_compression overlapping
             (start one_log 1000 (ErrorLogger.createErrorLogger None 100 60000)).

(** An enabled transport that formats its lines. *)
Definition running : Active.t :=
  Active.mk "logs" "app" "100K" "1d" true true 30 default_compression "iso"
            false true true one_rotated_file.



(** Options that would fail every check if they were looked at. *)
Definition disabled_and_malformed : Options.t :=
  Options.mk None None (Some false) (Some "-5X") (Some "soon") None None None
             None None (Some "ISO") None None.

(** A base name of 200 characters. *)
Definition long_name : string := string_of_list_ascii (repeat "a"%char 200).

(** Options that name the directory and leave the rest to the
    defaults. *)
Definition only_dir : Options.t :=
  Options.mk (Some "logs") None None None None None None None
             None None None None None.

(** The transport that [only_dir] starts on an empty file system at
    time 1000. *)
Definition started : Active.t :=
  match pinoTransportRotatingFile only_dir ∅ 1000 with
  | Ok (Running a) => a
  | _ => running
  end.

End Samples.

(** * The vocabulary of the properties *)

(** A string the grammar [<n><unit>] describes: a non-empty run of
    decimal digits that denotes a positive integer, then one unit
    letter. *)
Definition well_formed (units : list ascii) (s : string) : Prop :=
  exists (num : string) (unit : ascii),
    s = num ++ String unit EmptyString
    /\ num <> EmptyString
    /\ Str.all_digits num = true
    /\ 0 < Validator.parseInt10 num
    /\ In unit units.

(** The two messages a rejected size can carry; both name the field. *)
Definition size_error (size : string) (e : JsError) : Prop :=
  e = Error ("Invalid size format: " ++ size ++ ". Expected format: <number><B|K|M|G>")
  \/ e = Error ("Size must be positive: " ++ size).

Definition interval_error (interval : string) (e : JsError) : Prop :=
  e = Error ("Invalid interval format: " ++ interval
             ++ ". Expected format: <number><s|m|h|d|M>")
  \/ e = Error ("Interval must be positive: " ++ interval).

Definition format_error (format : string) (e : JsError) : Prop :=
  e = Error ("Invalid timestampFormat: " ++ format
             ++ ". Expected one of: iso, unix, utc, rfc2822, epoch").

(** The [epoch] timestamp as the specification words it: the integer
    part of the milliseconds since the epoch divided by 1000, as a
    numeral. *)
Definition integer_seconds (ms : Z) : string := pretty (Z.quot ms 1000).

(** A node the sweep removes: a file last modified before the cutoff. *)
Definition expired (cutoff : Z) (n : option Node) : bool :=
  match n with
  | Some (File _ mtime) => mtime <? cutoff
  | _ => false
  end.

Section Vocabulary.
Context `{Platform}.

(** [p] is the path of one of the listed names. *)
Definition listed (dir : string) (files : list string) (p : string) : bool :=
  existsb (fun file => String.eqb (join dir file) p) files.

(** [p] is an entry of [dir] that the sweep removes: a file directly in
    [dir], named like a log of [filename], last modified before
    [cutoff]. *)
Definition swept (dir filename : string) (cutoff : Z) (files : gmap string Node)
    (p : string) : Prop :=
  exists (content : string) (mtime : Z),
    files !! p = Some (File content mtime)
    /\ join dir (basename p) = p
    /\ is_log_of filename (basename p) = true
    /\ mtime < cutoff.

(** The state after [message] and [error] are logged. *)
Definition logged (message : string) (error : Js.Value) (s : State) : State :=
  set_errorLogger (ErrorLogger.log (now s) message error (errorLogger s)) s.

(** The state when the compression of [rotatedFile] with the transform
    [gz] has gone through in one piece. *)
Definition compressed (gz : string -> string) (rotatedFile content : string)
    (s : State) : State :=
  {| fs := delete rotatedFile
             (<[(rotatedFile ++ ".gz")%string := File (gz content) (now s)]>
                (fs s));
     now := now s;
     errorLogger := errorLogger s;
     compressedFiles := <[rotatedFile := now s]> (compressedFiles s);
     timeouts := (now s + MAX_COMPRESSION_AGE, rotatedFile) :: timeouts s;
     compressions :=
       (compressions s ++ [(rotatedFile, (rotatedFile ++ ".gz")%string)])%list;
     delivered := delivered s |}.

(** The state in which [compressFile] leaves after it has logged the
    error it throws. *)
Definition failed (src : string) (e : JsError) (s : State) : State :=
  set_errorLogger
    (ErrorLogger.log (now s) ("Error compressing file " ++ src) (Js.VError e)
                     (errorLogger s)) s.

(** The state after the listener has recorded [rotatedFile]. *)
Definition recorded (rotatedFile : string) (s : State) : State :=
  snd (setTimeout_delete rotatedFile MAX_COMPRESSION_AGE (snd (ledger_set rotatedFile s))).


(** Every pending timeout is due in the future, and not later than
    [MAX_COMPRESSION_AGE] from now; every entry has the timeout that was
    set when it was recorded. *)
Definition ledger_invariant (s : State) : Prop :=
  (forall d p, In (d, p) (timeouts s) ->
     now s < d <= now s + MAX_COMPRESSION_AGE)
  /\ (forall p t, compressedFiles s !! p = Some t ->
        In (t + MAX_COMPRESSION_AGE, p) (timeouts s)).


(** The parts of the state the ledger lives in. *)
Definition same_ledger (s s' : State) : Prop :=
  compressedFiles s' = compressedFiles s
  /\ timeouts s' = timeouts s
  /\ now s' = now s.

End Vocabulary.

(** ** More vocabulary *)

Section LoggerVocabulary.
Import ErrorLogger.

(** The writes go to the logger's target and carry something; the
    buffered lines are not empty. *)
Definition well_kept (l : t) : Prop :=
  Forall (fun w => fst w = target (errorLogFile l) /\ snd w <> EmptyString) (written l)
  /\ Forall (fun x => x <> EmptyString) (buffer l).

(** The events that are not [destroy]. *)
Definition alive (e : LoggerLife.Event) : Prop := e <> LoggerLife.Destroyed.

End LoggerVocabulary.

Definition zero_magnitude (units : list ascii) (s : string) : Prop :=
  exists (zeros : string) (unit : ascii),
    s = zeros ++ String unit EmptyString
    /\ zeros <> EmptyString
    /\ forallb (Ascii.eqb "0") (list_ascii_of_string zeros) = true
    /\ In unit units.

Definition name_char (a : ascii) : bool := Generator.is_alnum a || Ascii.eqb a "-".

Fixpoint single_hyphens (s : string) : bool :=
  match s with
  | String a ((String b _) as rest) =>
      negb (Ascii.eqb a "-" && Ascii.eqb b "-") && single_hyphens rest
  | _ => true
  end.

Definition no_separator (a : ascii) : bool :=
  negb (Ascii.eqb a "-" || Ascii.eqb a ":" || Ascii.eqb a "T" || Ascii.eqb a ".").

Definition all_chars (p : ascii -> bool) (s : string) : bool :=
  forallb p (list_ascii_of_string s).


Definition dir_missing (options : Options.t) : Prop :=
  Options.dir options = None \/ Options.dir options = Some EmptyString.

(** * The model at work *)

Section ValidatorExamples.

Example validateSize_100K : Validator.validateSize "100K" = Ok tt.
Proof. reflexivity. Qed.

Example validateSize_0K :
  Validator.validateSize "0K" = Throw (Error "Size must be positive: 0K").
Proof. reflexivity. Qed.

Example validateInterval_1w :
  Validator.validateInterval "1w"
  = Throw (Error "Invalid interval format: 1w. Expected format: <number><s|m|h|d|M>").
Proof. reflexivity. Qed.

Example validateTimestampFormat_bad :
  Validator.validateTimestampFormat "ISO"
  = Throw (Error "Invalid timestampFormat: ISO. Expected one of: iso, unix, utc, rfc2822, epoch").
Proof. reflexivity. Qed.

End ValidatorExamples.

Section GeneratorExamples.
Import Generator Reference.

Example generator_live :
  generator TimeNull "logs" "app" "iso" = "logs/app.log".
Proof. reflexivity. Qed.

Example generator_iso :
  generator (TimeDate 1742582096123) "logs" "app" "iso" = "logs/app-20250321183456.log".
Proof. vm_compute. reflexivity. Qed.

Example generator_unix :
  generator (TimeDate 1742582096123) "logs" "app" "unix" = "logs/app-1742582096123.log".
Proof. vm_compute. reflexivity. Qed.

Example generator_utc :
  generator (TimeDate 1742582096123) "logs" "app" "utc"
  = "logs/app-Fri-21-Mar-2025-18-34-56-GMT.log".
Proof. vm_compute. reflexivity. Qed.

Example generator_rfc2822 :
  generator (TimeDate 1742582096123) "logs" "app" "rfc2822"
  = "logs/app-Fri-Mar-21-2025-18-34-56-GMT-0000-Coordinated-Universal-Time-.log".
Proof. vm_compute. reflexivity. Qed.

Example generator_epoch :
  generator (TimeDate 1742582096123) "logs" "app" "epoch" = "logs/app-1742582096.log".
Proof. vm_compute. reflexivity. Qed.

End GeneratorExamples.

Section ErrorLoggerExamples.
Import ErrorLogger Reference.

Example log_line_with_cause :
  line 1742582096123 "Error compressing file a.log" (Js.VError (Error "boom"))
  = "2025-03-21T18:34:56.123Z - Error compressing file a.log: Error: boom" ++ newline.
Proof. vm_compute. reflexivity. Qed.

Example log_line_without_cause :
  line 0 "Deleted old log file: logs/app.log" Js.VUndefined
  = "1970-01-01T00:00:00.000Z - Deleted old log file: logs/app.log" ++ newline.
Proof. vm_compute. reflexivity. Qed.

Example two_lines_stay_buffered :
  let l := log_all [(0, "a", Js.VUndefined); (1, "b", Js.VUndefined)]
                   (createErrorLogger (Some "errors.log") 100 60000) in
  written l = [] /\ length (buffer l) = 2%nat.
Proof. vm_compute. split; reflexivity. Qed.

Example capacity_two_flushes_at_two :
  let l := log_all [(0, "a", Js.VUndefined); (1, "b", Js.VUndefined)]
                   (createErrorLogger (Some "errors.log") 2 60000) in
  written l = [(ErrorFile "errors.log",
                "1970-01-01T00:00:00.000Z - a" ++ newline
                ++ "1970-01-01T00:00:00.001Z - b" ++ newline)]
  /\ buffer l = [].
Proof. vm_compute. split; reflexivity. Qed.

End ErrorLoggerExamples.

Section RetentionExamples.
Import Reference.

Example cleanupOldFiles_log_directory :
  let result := cleanupOldFiles "logs" "app" 1 log_directory in
  fst result = Ok tt
  /\ fs (snd result)
     = {[ "logs" := Directory 0;
          "logs/app.log" := File "live" 863999999;
          "logs/app-2.log" := File "fresh" 800000000;
          "logs/notes.txt" := File "keep" 1;
          "logs/other-1.log" := File "theirs" 1;
          "logs/app-dir.log" := Directory 2 ]}
  /\ length (ErrorLogger.buffer (errorLogger (snd result))) = 3%nat.
Proof. vm_compute. repeat split; reflexivity. Qed.

End RetentionExamples.

(** * Properties *)

(** ** Strings *)

Module StringFacts.

Lemma length_append (s t : string) :
  String.length (s ++ t) = (String.length s + String.length t)%nat.
Proof.
  induction s as [|a s IH]; [reflexivity|].
  change (S (String.length (s ++ t)) = S (String.length s + String.length t)).
  now rewrite IH.
Qed.

Lemma append_assoc (a b c : string) : (a ++ b) ++ c = a ++ (b ++ c).
Proof.
  induction a as [|x a IH]; [reflexivity|].
  change (String x ((a ++ b) ++ c) = String x (a ++ (b ++ c))). now rewrite IH.
Qed.

Lemma append_empty_r (a : string) : a ++ EmptyString = a.
Proof.
  induction a as [|x a IH]; [reflexivity|].
  change (String x (a ++ EmptyString) = String x a). now rewrite IH.
Qed.

End StringFacts.

(** ** Properties of the validators *)

Module ValidatorFacts.
Import Validator.

Lemma unsnoc_app (num : string) (unit : ascii) :
  Str.unsnoc (num ++ String unit EmptyString) = Some (num, unit).
Proof.
  induction num as [|a num IH]; [reflexivity|].
  change (Str.unsnoc (String a (num ++ String unit EmptyString))
          = Some (String a num, unit)).
  destruct num as [|b num]; [reflexivity|].
  change (match Str.unsnoc (String b num ++ String unit EmptyString) with
          | Some (init, last) => Some (String a init, last)
          | None => None
          end = Some (String a (String b num), unit)).
  now rewrite IH.
Qed.

Lemma unsnoc_inv (s init : string) (last : ascii) :
  Str.unsnoc s = Some (init, last) -> s = init ++ String last EmptyString.
Proof.
  revert init last. induction s as [|a s IH]; intros init last H; [discriminate|].
  cbn [Str.unsnoc] in H. destruct s as [|b s'].
  - injection H as <- <-. reflexivity.
  - destruct (Str.unsnoc (String b s')) as [[i l]|] eqn:E; [|discriminate].
    injection H as <- <-.
    change (String a (String b s') = String a (i ++ String l EmptyString)).
    f_equal. now apply IH.
Qed.

Lemma unsnoc_none (s : string) : Str.unsnoc s = None -> s = EmptyString.
Proof.
  induction s as [|a s IH]; [reflexivity|].
  cbn [Str.unsnoc]. destruct s as [|b s']; [discriminate|].
  destruct (Str.unsnoc (String b s')) as [[i l]|]; [discriminate|].
  intros _. discriminate (IH eq_refl).
Qed.

Lemma existsb_eqb_In (unit : ascii) (units : list ascii) :
  existsb (Ascii.eqb unit) units = true <-> In unit units.
Proof.
  rewrite existsb_exists. split.
  - intros (x & Hin & Heq). apply Ascii.eqb_eq in Heq. now subst.
  - intros Hin. exists unit. split; [assumption|apply Ascii.eqb_refl].
Qed.

Lemma exec_num_unit_some (units : list ascii) (s num : string) (unit : ascii) :
  exec_num_unit units s = Some (num, unit) <->
  s = num ++ String unit EmptyString /\ num <> EmptyString
  /\ Str.all_digits num = true /\ In unit units.
Proof.
  unfold exec_num_unit. split.
  - destruct (Str.unsnoc s) as [[i l]|] eqn:E; [|discriminate].
    destruct (negb (i =? EmptyString)%string) eqn:Hne; [|discriminate].
    destruct (Str.all_digits i) eqn:Hd; [|discriminate].
    destruct (existsb (Ascii.eqb l) units) eqn:Hu; [|discriminate].
    cbn. intros H. injection H as <- <-.
    repeat split.
    + now apply unsnoc_inv.
    + intros ->. discriminate.
    + assumption.
    + now apply existsb_eqb_In.
  - intros (-> & Hne & Hd & Hu). rewrite unsnoc_app, Hd.
    apply existsb_eqb_In in Hu. rewrite Hu.
    destruct num; [contradiction|reflexivity].
Qed.

Lemma sizeUnits_truthy (unit : ascii) :
  In unit storage_units -> falsy_entry (sizeUnits unit) = false.
Proof.
  cbn. intros [<-|[<-|[<-|[<-|[]]]]]; reflexivity.
Qed.

Lemma timeUnits_truthy (unit : ascii) :
  In unit time_units -> falsy_entry (timeUnits unit) = false.
Proof.
  cbn. intros [<-|[<-|[<-|[<-|[<-|[]]]]]]; reflexivity.
Qed.

Lemma validateSize_ok_iff (size : string) :
  validateSize size = Ok tt <-> well_formed storage_units size.
Proof.
  unfold validateSize, well_formed. split.
  - destruct (exec_num_unit storage_units size) as [[num unit]|] eqn:E; [|discriminate].
    apply exec_num_unit_some in E as (-> & Hne & Hd & Hu).
    destruct (parseInt10 num <=? 0) eqn:Hp; [discriminate|].
    intros _. exists num, unit. apply Z.leb_gt in Hp. tauto.
  - intros (num & unit & -> & Hne & Hd & Hp & Hu).
    assert (E : exec_num_unit storage_units (num ++ String unit EmptyString)
                = Some (num, unit)) by now apply exec_num_unit_some.
    rewrite E. apply Z.leb_gt in Hp. rewrite Hp.
    now rewrite sizeUnits_truthy.
Qed.

Lemma validateInterval_ok_iff (interval : string) :
  validateInterval interval = Ok tt <-> well_formed time_units interval.
Proof.
  unfold validateInterval, well_formed. split.
  - destruct (exec_num_unit time_units interval) as [[num unit]|] eqn:E; [|discriminate].
    apply exec_num_unit_some in E as (-> & Hne & Hd & Hu).
    destruct (parseInt10 num <=? 0) eqn:Hp; [discriminate|].
    intros _. exists num, unit. apply Z.leb_gt in Hp. tauto.
  - intros (num & unit & -> & Hne & Hd & Hp & Hu).
    assert (E : exec_num_unit time_units (num ++ String unit EmptyString)
                = Some (num, unit)) by now apply exec_num_unit_some.
    rewrite E. apply Z.leb_gt in Hp. rewrite Hp.
    now rewrite timeUnits_truthy.
Qed.

Lemma validateSize_cases (size : string) :
  validateSize size = Ok tt \/ exists e, validateSize size = Throw e /\ size_error size e.
Proof.
  unfold validateSize, size_error.
  destruct (exec_num_unit storage_units size) as [[num unit]|] eqn:E.
  - apply exec_num_unit_some in E as (-> & Hne & Hd & Hu).
    destruct (parseInt10 num <=? 0); [right; eauto|].
    rewrite sizeUnits_truthy by assumption. now left.
  - right; eauto.
Qed.

Lemma validateInterval_cases (interval : string) :
  validateInterval interval = Ok tt
  \/ exists e, validateInterval interval = Throw e /\ interval_error interval e.
Proof.
  unfold validateInterval, interval_error.
  destruct (exec_num_unit time_units interval) as [[num unit]|] eqn:E.
  - apply exec_num_unit_some in E as (-> & Hne & Hd & Hu).
    destruct (parseInt10 num <=? 0); [right; eauto|].
    rewrite timeUnits_truthy by assumption. now left.
  - right; eauto.
Qed.

Lemma includes_In (l : list string) (x : string) : includes l x = true <-> In x l.
Proof.
  unfold includes. rewrite existsb_exists. split.
  - intros (y & Hin & Heq). apply String.eqb_eq in Heq. now subst.
  - intros Hin. exists x. split; [assumption|apply String.eqb_refl].
Qed.

End ValidatorFacts.

(** ** Decimal numerals *)

(** [n.toString()] for an integer [n] is stdpp's [pretty]; the lemmas
    below relate it to [Validator.parseInt10]. *)
Module Decimal.
Import Validator.

Lemma list_ascii_app (s t : string) :
  list_ascii_of_string (s ++ t)
  = (list_ascii_of_string s ++ list_ascii_of_string t)%list.
Proof.
  induction s as [|a s IH]; [reflexivity|].
  change (a :: list_ascii_of_string (s ++ t)
          = a :: (list_ascii_of_string s ++ list_ascii_of_string t)%list).
  now rewrite IH.
Qed.

Lemma all_digits_snoc (d : string) (c : ascii) :
  Str.all_digits (d ++ String c EmptyString)
  = Str.all_digits d && Str.is_digit c.
Proof.
  unfold Str.all_digits. rewrite list_ascii_app, forallb_app. cbn.
  now rewrite andb_true_r.
Qed.

Lemma parseInt10_snoc (d : string) (c : ascii) :
  parseInt10 (d ++ String c EmptyString) = 10 * parseInt10 d + Str.digit_value c.
Proof.
  unfold parseInt10. rewrite list_ascii_app, fold_left_app. reflexivity.
Qed.

Lemma pretty_N_char_digit (x : N) :
  (x < 10)%N ->
  Str.is_digit (pretty_N_char x) = true
  /\ Str.digit_value (pretty_N_char x) = Z.of_N x.
Proof.
  intros Hx.
  assert (x = 0 \/ x = 1 \/ x = 2 \/ x = 3 \/ x = 4 \/ x = 5 \/ x = 6
          \/ x = 7 \/ x = 8 \/ x = 9)%N as H by lia.
  repeat (destruct H as [->|H]; [split; reflexivity|]).
  subst x. split; reflexivity.
Qed.

Lemma app_assoc_snoc (d : string) (c : ascii) (s : string) :
  (d ++ String c EmptyString) ++ s = d ++ String c s.
Proof.
  induction d as [|a d IH]; [reflexivity|].
  change (String a ((d ++ String c EmptyString) ++ s) = String a (d ++ String c s)).
  now rewrite IH.
Qed.

Lemma pretty_N_go_digits (x : N) (s : string) :
  exists d : string,
    pretty_N_go x s = d ++ s
    /\ Str.all_digits d = true
    /\ parseInt10 d = Z.of_N x
    /\ ((0 < x)%N -> d <> EmptyString).
Proof.
  revert s. induction (N.lt_wf_0 x) as [x _ IH]. intros s.
  destruct (N.eq_dec x 0%N) as [->|Hx].
  - exists EmptyString. rewrite pretty_N_go_0. repeat split. lia.
  - assert (0 < x)%N as Hpos by lia.
    rewrite pretty_N_go_step by assumption.
    destruct (IH (x `div` 10)%N (N.div_lt x 10 Hpos eq_refl)
                 (String (pretty_N_char (x `mod` 10)) s))
      as (d & Hd & Hall & Hval & _).
    destruct (pretty_N_char_digit (x `mod` 10)%N) as [Hc Hv].
    { apply N.mod_lt. lia. }
    exists (d ++ String (pretty_N_char (x `mod` 10)) EmptyString).
    repeat split.
    + now rewrite app_assoc_snoc.
    + now rewrite all_digits_snoc, Hall, Hc.
    + rewrite parseInt10_snoc, Hval, Hv.
      rewrite (N.div_mod x 10) at 3 by lia. lia.
    + intros _. destruct d; discriminate.
Qed.

Lemma pretty_positive_digits (n : positive) :
  pretty (Z.pos n) <> EmptyString
  /\ Str.all_digits (pretty (Z.pos n)) = true
  /\ parseInt10 (pretty (Z.pos n)) = Z.pos n.
Proof.
  change (pretty (Z.pos n)) with (pretty_N_go (N.pos n) EmptyString).
  destruct (pretty_N_go_digits (N.pos n) EmptyString) as (d & -> & Hall & Hval & Hne).
  assert (d ++ EmptyString = d) as ->.
  { clear. induction d as [|a d IH]; [reflexivity|].
    change (String a (d ++ EmptyString) = String a d). now rewrite IH. }
  repeat split; [apply Hne; lia|assumption|assumption].
Qed.

End Decimal.

Section ValidatorTheorems.
Import Validator ValidatorFacts.

(** The decimal numeral of a positive integer followed by a unit letter
    is a well-formed size or interval string. *)
Lemma numeral_well_formed (units : list ascii) (n : positive) (unit : ascii) :
  In unit units -> well_formed units (pretty (Z.pos n) ++ String unit EmptyString).
Proof.
  intros Hu. destruct (Decimal.pretty_positive_digits n) as (Hne & Hall & Hval).
  exists (pretty (Z.pos n)), unit. rewrite Hval. repeat split; auto; lia.
Qed.

(** C2. A size string [<n><unit>] with a positive integer [n] and a unit
    among B, K, M, G passes [validateSize]; every other string is
    rejected with an error whose message names the size field.  The same
    holds for interval strings over s, m, h, d, M, and
    [validateTimestampFormat] accepts exactly the five literals and
    rejects every other format with an error naming [timestampFormat]. *)
Theorem validators_accept_exactly_well_formed :
  (forall (n : positive) (unit : ascii), In unit storage_units ->
     validateSize (pretty (Z.pos n) ++ String unit EmptyString) = Ok tt)
  /\ (forall size : string, well_formed storage_units size ->
        validateSize size = Ok tt)
  /\ (forall size : string, ~ well_formed storage_units size ->
        exists e, validateSize size = Throw e /\ size_error size e)
  /\ (forall (n : positive) (unit : ascii), In unit time_units ->
        validateInterval (pretty (Z.pos n) ++ String unit EmptyString) = Ok tt)
  /\ (forall interval : string, well_formed time_units interval ->
        validateInterval interval = Ok tt)
  /\ (forall interval : string, ~ well_formed time_units interval ->
        exists e, validateInterval interval = Throw e /\ interval_error interval e)
  /\ (forall format : string, In format validFormats ->
        validateTimestampFormat format = Ok tt)
  /\ (forall format : string, ~ In format validFormats ->
        exists e, validateTimestampFormat format = Throw e /\ format_error format e).
Proof.
  repeat split.
  - intros n unit Hu. apply validateSize_ok_iff. now apply numeral_well_formed.
  - intros size H. now apply validateSize_ok_iff.
  - intros size H. destruct (validateSize_cases size) as [Hok|Herr]; [|assumption].
    apply validateSize_ok_iff in Hok. contradiction.
  - intros n unit Hu. apply validateInterval_ok_iff. now apply numeral_well_formed.
  - intros interval H. now apply validateInterval_ok_iff.
  - intros interval H.
    destruct (validateInterval_cases interval) as [Hok|Herr]; [|assumption].
    apply validateInterval_ok_iff in Hok. contradiction.
  - intros format H. apply includes_In in H.
    unfold validateTimestampFormat. now rewrite H.
  - intros format H. unfold validateTimestampFormat.
    destruct (includes validFormats format) eqn:E.
    + apply includes_In in E. contradiction.
    + eexists. split; reflexivity.
Qed.

End ValidatorTheorems.

(** ** Properties of the filename generator *)

Module GeneratorFacts.
Import Generator.

Lemma length_slice0 (n : nat) (s : string) :
  (String.length (Str.slice0 n s) <= n)%nat.
Proof.
  revert s. induction n as [|n IH]; intros s; [cbn; lia|].
  destruct s as [|a s]; cbn; [lia|]. specialize (IH s). lia.
Qed.

Lemma slice0_short (n : nat) (s : string) :
  (String.length s <= n)%nat -> Str.slice0 n s = s.
Proof.
  revert s. induction n as [|n IH]; intros s Hs.
  - destruct s; [reflexivity|cbn in Hs; lia].
  - destruct s as [|a s]; [reflexivity|]. cbn in *. rewrite IH; [reflexivity|lia].
Qed.

Lemma slice0_prefix (n : nat) (s : string) :
  Str.startsWith (Str.slice0 n s) s = true.
Proof.
  revert s. induction n as [|n IH]; intros s; [reflexivity|].
  destruct s as [|a s]; [reflexivity|]. cbn. now rewrite Ascii.eqb_refl.
Qed.

Section WithPlatform.
Context `{Platform}.

Lemma truncate_slice0 (fullName : string) :
  truncate fullName = Str.slice0 200 fullName.
Proof.
  unfold truncate. destruct (200 <? String.length fullName)%nat eqn:E; [reflexivity|].
  apply Nat.ltb_ge in E. symmetry. now apply slice0_short.
Qed.

Lemma length_truncate (fullName : string) :
  (String.length (truncate fullName) <= 200)%nat.
Proof. rewrite truncate_slice0. apply length_slice0. Qed.

Lemma generator_present (time : TimeArg) (dir filename timestampFormat : string) :
  falsy time = false ->
  generator time dir filename timestampFormat
  = join dir (truncate (filename ++ "-"
                        ++ timestamp timestampFormat (getTime time) ++ ".log")).
Proof. intros Hp. unfold generator. now rewrite Hp. Qed.

End WithPlatform.

(** The nearest integer to [m / 1000] for [0 <= m], the larger one on a
    tie. *)
Lemma nearest_second (m : Z) :
  0 <= m ->
  let n := (m + 500) / 1000 in
  1000 * n - 500 <= m < 1000 * n + 500.
Proof.
  intros Hm n. subst n.
  pose proof (Z.div_mod (m + 500) 1000 ltac:(lia)).
  pose proof (Z.mod_pos_bound (m + 500) 1000 ltac:(lia)). lia.
Qed.

End GeneratorFacts.

Section GeneratorTheorems.
Import Generator GeneratorFacts.
Context `{Platform}.

(** C9. With an absent instant the generator returns the live file's
    path, the directory joined with [baseName.log], whatever the
    timestamp format. *)
Theorem generator_absent_instant (dir filename timestampFormat : string) :
  generator TimeNull dir filename timestampFormat = join dir (filename ++ ".log")
  /\ forall other : string,
       generator TimeNull dir filename other
       = generator TimeNull dir filename timestampFormat.
Proof.
  unfold generator. cbn [falsy].
  split; [reflexivity|].
  intros other. reflexivity.
Qed.

(** The number [0] is falsy, so the generator reads it as an absent
    instant too. *)
Lemma generator_number_zero (dir filename timestampFormat : string) :
  generator (TimeNumber 0) dir filename timestampFormat = join dir (filename ++ ".log").
Proof. reflexivity. Qed.

(** C6, as the code has it.  With the format [epoch] the timestamp is
    the instant's milliseconds divided by 1000 and rounded to the
    nearest integer, a half going away from zero, written after the
    sign.  From the epoch on it is the integer part of the seconds when
    the millisecond remainder is below 500 and one more otherwise. *)
Theorem generator_epoch_rounds_to_nearest
    (time : TimeArg) (dir filename : string) :
  Generator.falsy time = false ->
  let ms := getTime time in
  let n := (Z.abs ms + 500) / 1000 in
  generator time dir filename "epoch"
  = join dir (truncate (filename ++ "-"
                        ++ ((if ms <? 0 then "-" else EmptyString) ++ pretty n) ++ ".log"))
  /\ 1000 * n - 500 <= Z.abs ms < 1000 * n + 500
  /\ (0 <= ms -> ms mod 1000 < 500 -> n = ms / 1000)
  /\ (0 <= ms -> 500 <= ms mod 1000 -> n = ms / 1000 + 1).
Proof.
  intros Hp ms n. split; [|split; [|split]].
  - rewrite generator_present by assumption. reflexivity.
  - apply nearest_second. lia.
  - intros Hms Hr. subst n. rewrite Z.abs_eq by assumption.
    pose proof (Z.div_mod ms 1000 ltac:(lia)).
    pose proof (Z.mod_pos_bound ms 1000 ltac:(lia)).
    symmetry. apply (Z.div_unique (ms + 500) 1000 (ms / 1000) (ms mod 1000 + 500)); lia.
  - intros Hms Hr. subst n. rewrite Z.abs_eq by assumption.
    pose proof (Z.div_mod ms 1000 ltac:(lia)).
    pose proof (Z.mod_pos_bound ms 1000 ltac:(lia)).
    symmetry.
    apply (Z.div_unique (ms + 500) 1000 (ms / 1000 + 1) (ms mod 1000 - 500)); lia.
Qed.

End GeneratorTheorems.

(** ** Paths *)

Module PosixFacts.
Import Posix StringFacts.















End PosixFacts.

Section PathTheorems.
Import Generator GeneratorFacts PosixFacts StringFacts.
Context `{Platform}.


End PathTheorems.

Section GeneratorWitnesses.
Import Generator Reference.

(** At 1999 ms the code names the file with [2], the integer part of the
    seconds is [1]. *)
Lemma generator_epoch_not_integer_part :
  generator (TimeDate 1999) "logs" "app" "epoch" = "logs/app-2.log"
  /\ generator (TimeDate 1999) "logs" "app" "epoch"
     <> join "logs" ("app-" ++ integer_seconds 1999 ++ ".log").
Proof. split; [vm_compute; reflexivity|vm_compute; discriminate]. Qed.

Lemma generator_epoch_rounds_witness :
  Generator.falsy (TimeDate 1999) = false
  /\ generator (TimeDate 1999) "logs" "app" "epoch"
     = join "logs" (truncate ("app" ++ "-" ++ (EmptyString ++ pretty 2) ++ ".log")).
Proof.
  split; [reflexivity|].
  exact (proj1 (generator_epoch_rounds_to_nearest
                  (TimeDate 1999) "logs" "app" eq_refl)).
Defined.



End GeneratorWitnesses.

(** ** Properties of the error logger *)

Module ErrorLoggerFacts.
Import ErrorLogger.

Section WithPlatform.
Context `{Platform}.

Lemma log_all_snoc (calls : list Call) (c : Call) (l : t) :
  log_all (calls ++ [c]) l
  = (let '(now, message, error) := c in log now message error (log_all calls l)).
Proof. unfold log_all. now rewrite fold_left_app. Qed.

(** Below the capacity the lines pile up in the buffer and nothing else
    changes. *)
Lemma log_all_below_capacity (file : option string) (capacity interval : Z)
    (calls : list Call) :
  Z.of_nat (length calls) < capacity ->
  log_all calls (createErrorLogger file capacity interval)
  = {| errorLogFile := file;
       bufferSize := capacity;
       flushIntervalMs := interval;
       buffer := map call_line calls;
       flushInterval := true;
       written := [] |}.
Proof.
  induction calls as [|c calls IH] using rev_ind; intros Hlen; [reflexivity|].
  rewrite length_app in Hlen. cbn [length] in Hlen.
  rewrite log_all_snoc, IH by lia.
  destruct c as [[now message] error]. unfold log. cbn [bufferSize buffer].
  rewrite length_app, length_map. cbn [length].
  destruct (capacity <=? Z.of_nat (length calls + 1)) eqn:E.
  - apply Z.leb_le in E. lia.
  - cbn. now rewrite map_app.
Qed.

(** The call that fills the buffer flushes it: one write of all the
    lines, joined, and an empty buffer. *)
Lemma log_all_at_capacity (file : option string) (capacity interval : Z)
    (calls : list Call) :
  0 < capacity ->
  Z.of_nat (length calls) = capacity ->
  log_all calls (createErrorLogger file capacity interval)
  = {| errorLogFile := file;
       bufferSize := capacity;
       flushIntervalMs := interval;
       buffer := [];
       flushInterval := true;
       written := [(target file, Str.concat (map call_line calls))] |}.
Proof.
  intros Hcap Hlen.
  destruct calls as [|c calls] using rev_ind; [cbn in Hlen; lia|]. clear IHcalls.
  rewrite length_app in Hlen. cbn [length] in Hlen.
  rewrite log_all_snoc, log_all_below_capacity by lia.
  destruct c as [[now message] error]. unfold log. cbn [bufferSize buffer].
  rewrite length_app, length_map. cbn [length].
  destruct (capacity <=? Z.of_nat (length calls + 1)) eqn:E.
  - unfold flush. cbn [buffer errorLogFile bufferSize flushIntervalMs flushInterval written].
    rewrite map_app. cbn [map call_line].
    destruct (map call_line calls ++ [line now message error])%list eqn:Hb; [|reflexivity].
    apply app_eq_nil in Hb as [_ Hb]. discriminate.
  - apply Z.leb_gt in E. lia.
Qed.

Lemma flush_nonempty (l : t) :
  buffer l <> [] ->
  buffer (flush l) = []
  /\ written (flush l)
     = (written l ++ [(target (errorLogFile l), Str.concat (buffer l))])%list.
Proof.
  intros Hne. unfold flush. destruct (buffer l) eqn:E; [contradiction|].
  split; reflexivity.
Qed.

Lemma flush_empty (l : t) : buffer l = [] -> flush l = l.
Proof. intros E. unfold flush. now rewrite E. Qed.

End WithPlatform.

End ErrorLoggerFacts.

Section ErrorLoggerTheorems.
Import ErrorLogger ErrorLoggerFacts.
Context `{Platform}.

(** C4. An error logger created with capacity 100 writes nothing to its
    sink during the first 99 calls of [log] as long as its timer has not
    fired; the 100th call makes exactly one write, the concatenation of
    the 100 buffered lines, and leaves the buffer empty; when the timer
    fires on a buffer that is not empty, exactly one write of the
    concatenation of the buffered lines is made and the buffer is empty
    afterwards.  Every buffered line is the ISO instant of the call,
    [" - "], the message, [": "] and the cause when there is one, and a
    newline. *)
Theorem error_logger_flush_discipline
    (file : option string) (interval : Z) (calls : list Call) :
  let fresh := createErrorLogger file 100 interval in
  ((length calls < 100)%nat ->
     written (log_all calls fresh) = []
     /\ buffer (log_all calls fresh) = map call_line calls)
  /\ (length calls = 100%nat ->
        written (log_all calls fresh)
        = [(target file, Str.concat (map call_line calls))]
        /\ buffer (log_all calls fresh) = [])
  /\ ((0 < length calls < 100)%nat ->
        written (interval_elapsed (log_all calls fresh))
        = [(target file, Str.concat (map call_line calls))]
        /\ buffer (interval_elapsed (log_all calls fresh)) = [])
  /\ (forall (now : Z) (message : string) (error : Js.Value),
        call_line (now, message, error)
        = toISOString now ++ " - " ++ message
          ++ (if Js.truthy error then ": " ++ Js.toString error else EmptyString)
          ++ newline).
Proof.
  intros fresh. subst fresh. repeat split.
  - rewrite log_all_below_capacity by lia. reflexivity.
  - rewrite log_all_below_capacity by lia. reflexivity.
  - rewrite log_all_at_capacity by lia. reflexivity.
  - rewrite log_all_at_capacity by lia. reflexivity.
  - rewrite log_all_below_capacity by lia. unfold interval_elapsed.
    cbn [flushInterval].
    match goal with |- written (flush ?l) = _ =>
      destruct (flush_nonempty l) as [_ Hw] end.
    + cbn [buffer]. destruct calls; [cbn in *; lia|discriminate].
    + rewrite Hw. reflexivity.
  - rewrite log_all_below_capacity by lia. unfold interval_elapsed.
    cbn [flushInterval].
    match goal with |- buffer (flush ?l) = _ =>
      destruct (flush_nonempty l) as [Hb _] end.
    + cbn [buffer]. destruct calls; [cbn in *; lia|discriminate].
    + exact Hb.
Qed.

(** With an empty buffer the timer writes nothing. *)
Lemma interval_elapsed_idle (l : t) :
  buffer l = [] -> interval_elapsed l = l.
Proof.
  intros E. unfold interval_elapsed. destruct (flushInterval l); [|reflexivity].
  now apply flush_empty.
Qed.

End ErrorLoggerTheorems.

Section ErrorLoggerWitness.
Import ErrorLogger Reference.

Lemma error_logger_flush_discipline_witness :
  (length [(0, "a", Js.VUndefined)] < 100)%nat
  /\ length (repeat (0, "a", Js.VUndefined) 100) = 100%nat
  /\ written (log_all [(0, "a", Js.VUndefined)] (createErrorLogger None 100 60000)) = []
  /\ buffer (log_all (repeat (0, "a", Js.VUndefined) 100)
                     (createErrorLogger None 100 60000)) = [].
Proof.
  assert (H1 : (length [(0, "a", Js.VUndefined)] < 100)%nat) by (cbn; lia).
  assert (H2 : length (repeat (0, "a", Js.VUndefined) 100) = 100%nat)
    by apply repeat_length.
  split; [exact H1|]. split; [exact H2|]. split.
  - exact (proj1 (proj1 (error_logger_flush_discipline
                           None 60000 [(0, "a", Js.VUndefined)]) H1)).
  - exact (proj2 (proj1 (proj2 (error_logger_flush_discipline
                                  None 60000 (repeat (0, "a", Js.VUndefined) 100)))
                        H2)).
Defined.

End ErrorLoggerWitness.

(** ** Properties of the compression worker *)

Module CompressionFacts.
Export StringFacts.

(** A path and the path of its [.gz] sibling differ. *)
Lemma gz_sibling_differs (src : string) : src <> src ++ ".gz".
Proof.
  intros E. apply (f_equal String.length) in E.
  rewrite length_append in E. cbn in E. lia.
Qed.

Section WithPlatform.
Context `{Platform}.

(** Opening the destination, by what it and its directory hold. *)
Lemma open_for_writing_ok (dest : string) (files : gmap string Node) (parent : Z) :
  (forall m, files !! dest <> Some (Directory m)) ->
  files !! dirname dest = Some (Directory parent) ->
  Fs.open_for_writing dest files = Ok tt.
Proof.
  intros Hdest Hparent. unfold Fs.open_for_writing. rewrite Hparent.
  destruct (files !! dest) as [[c m|m]|] eqn:E; try reflexivity.
  exfalso. now apply (Hdest m).
Qed.

Lemma open_for_writing_directory (dest : string) (files : gmap string Node) (m : Z) :
  files !! dest = Some (Directory m) ->
  Fs.open_for_writing dest files = Throw (SystemError "EISDIR" "open" dest).
Proof. intros E. unfold Fs.open_for_writing. now rewrite E. Qed.

Lemma open_for_writing_no_directory (dest : string) (files : gmap string Node) :
  files !! dest = None ->
  files !! dirname dest = None ->
  Fs.open_for_writing dest files = Throw (SystemError "ENOENT" "open" dest).
Proof. intros E E'. unfold Fs.open_for_writing. now rewrite E, E'. Qed.

(** The ways through [compressFile], by what the source path holds, what
    [createGzip] says and whether the destination can be opened. *)
Lemma compressFile_missing (src dest : string) (options : ZlibOptions) (s : State) :
  fs s !! src = None ->
  compressFile src dest options s
  = (Ok tt,
     set_errorLogger
       (ErrorLogger.log (now s) ("Skipping compression, file does not exist: " ++ src)
                        Js.VUndefined (errorLogger s)) s).
Proof.
  intros Hsrc. unfold compressFile, try_catch, fileExists, Fs.access, log,
    mbind, io_bind, mret, io_ret, try_catch.
  rewrite Hsrc. reflexivity.
Qed.

Lemma compressFile_directory (src dest : string) (options : ZlibOptions) (s : State)
    (mtime : Z) :
  fs s !! src = Some (Directory mtime) ->
  compressFile src dest options s
  = (Ok tt,
     set_errorLogger
       (ErrorLogger.log (now s) ("Skipping compression, source is a directory: " ++ src)
                        Js.VUndefined (errorLogger s)) s).
Proof.
  intros Hsrc. unfold compressFile, try_catch, fileExists, Fs.access, Fs.stat, log,
    mbind, io_bind, mret, io_ret, try_catch.
  rewrite Hsrc. cbn. rewrite Hsrc. reflexivity.
Qed.

Lemma compressFile_rejected_options (src dest : string) (options : ZlibOptions)
    (s : State) (content : string) (mtime : Z) (e : JsError) :
  fs s !! src = Some (File content mtime) ->
  createGzip options = Throw e ->
  compressFile src dest options s = (Throw e, failed src e s).
Proof.
  intros Hsrc Hgz.
  unfold compressFile, try_catch, fileExists, Fs.access, Fs.stat, lift,
    log, throw, mbind, io_bind, mret, io_ret, try_catch, failed.
  rewrite Hsrc. cbn. rewrite Hsrc. cbn. rewrite Hgz. reflexivity.
Qed.

Lemma compressFile_unopened (src dest : string) (options : ZlibOptions)
    (s : State) (content : string) (mtime : Z) (gz : string -> string) (e : JsError) :
  fs s !! src = Some (File content mtime) ->
  createGzip options = Ok gz ->
  Fs.open_for_writing dest (fs s) = Throw e ->
  compressFile src dest options s = (Throw e, failed src e s).
Proof.
  intros Hsrc Hgz Hopen.
  unfold compressFile, try_catch, fileExists, Fs.access, Fs.stat, lift,
    Fs.pipelineAsync, log, throw, mbind, io_bind, mret, io_ret, try_catch, failed.
  rewrite Hsrc. cbn. rewrite Hsrc. cbn. rewrite Hgz. cbn. rewrite Hopen.
  reflexivity.
Qed.

(** [compressFile] on a file whose destination can be opened, whatever
    the destination is, the source itself included. *)
Lemma compressFile_file_any (src dest : string) (options : ZlibOptions) (s : State)
    (content : string) (mtime : Z) (gz : string -> string) :
  fs s !! src = Some (File content mtime) ->
  createGzip options = Ok gz ->
  Fs.open_for_writing dest (fs s) = Ok tt ->
  compressFile src dest options s
  = (Ok tt, set_fs (delete src (<[dest := File (gz content) (now s)]> (fs s))) s).
Proof.
  intros Hsrc Hgz Hopen.
  unfold compressFile, try_catch, fileExists, Fs.access, Fs.stat, lift,
    Fs.pipelineAsync, Fs.read_all, Fs.unlink, log, throw, mbind, io_bind, mret,
    io_ret, try_catch.
  rewrite Hsrc. cbn. rewrite Hsrc. cbn. rewrite Hgz. cbn. rewrite Hopen, Hsrc.
  cbn. rewrite lookup_insert_eq. cbn.
  destruct (decide (dest = src)) as [->|Hne];
    [rewrite lookup_insert_eq|rewrite lookup_insert_ne by assumption; rewrite Hsrc];
    reflexivity.
Qed.

Lemma compressFile_file (src dest : string) (options : ZlibOptions) (s : State)
    (content : string) (mtime parent : Z) (gz : string -> string) :
  fs s !! src = Some (File content mtime) ->
  createGzip options = Ok gz ->
  fs s !! dirname dest = Some (Directory parent) ->
  (forall m, fs s !! dest <> Some (Directory m)) ->
  compressFile src dest options s
  = (Ok tt, set_fs (delete src (<[dest := File (gz content) (now s)]> (fs s))) s).
Proof.
  intros Hsrc Hgz Hparent Hdest.
  apply (compressFile_file_any _ _ _ _ content mtime); try assumption.
  now apply (open_for_writing_ok _ _ parent).
Qed.

Lemma compressFile_dest_directory (src dest : string) (options : ZlibOptions)
    (s : State) (content : string) (mtime mtime' : Z) (gz : string -> string) :
  fs s !! src = Some (File content mtime) ->
  createGzip options = Ok gz ->
  fs s !! dest = Some (Directory mtime') ->
  compressFile src dest options s
  = (Throw (SystemError "EISDIR" "open" dest),
     failed src (SystemError "EISDIR" "open" dest) s).
Proof.
  intros Hsrc Hgz Hdest.
  apply (compressFile_unopened _ _ _ _ content mtime gz); try assumption.
  now apply (open_for_writing_directory _ _ mtime').
Qed.

(** Whatever the source is, [compressFile] returns or throws, and it
    leaves the files when it throws and when the source is not a
    file. *)
Lemma compressFile_cases (src dest : string) (options : ZlibOptions) (s : State) :
  (exists content mtime gz,
      fs s !! src = Some (File content mtime)
      /\ createGzip options = Ok gz
      /\ Fs.open_for_writing dest (fs s) = Ok tt
      /\ compressFile src dest options s
         = (Ok tt, set_fs (delete src (<[dest := File (gz content) (now s)]> (fs s))) s))
  \/ (exists content mtime e,
        fs s !! src = Some (File content mtime)
        /\ (createGzip options = Throw e
            \/ exists gz, createGzip options = Ok gz
                          /\ Fs.open_for_writing dest (fs s) = Throw e)
        /\ compressFile src dest options s = (Throw e, failed src e s))
  \/ ((forall content mtime, fs s !! src <> Some (File content mtime))
      /\ fst (compressFile src dest options s) = Ok tt
      /\ fs (snd (compressFile src dest options s)) = fs s).
Proof.
  destruct (fs s !! src) as [[content mtime|mtime]|] eqn:Hsrc.
  - destruct (createGzip options) as [gz|e] eqn:Hgz.
    + destruct (Fs.open_for_writing dest (fs s)) as [[]|e] eqn:Hopen.
      * left. exists content, mtime, gz. repeat split; try assumption.
        now apply (compressFile_file_any _ _ _ _ content mtime).
      * right. left. exists content, mtime, e. split; [reflexivity|]. split.
        -- right. exists gz. now split.
        -- now apply (compressFile_unopened _ _ _ _ content mtime gz).
    + right. left. exists content, mtime, e. split; [reflexivity|]. split.
      * now left.
      * now apply (compressFile_rejected_options _ _ _ _ content mtime).
  - right. right. rewrite (compressFile_directory _ _ _ _ mtime) by assumption.
    split; [discriminate|]. split; reflexivity.
  - right. right. rewrite compressFile_missing by assumption.
    split; [discriminate|]. split; reflexivity.
Qed.

End WithPlatform.

End CompressionFacts.

Section CompressionTheorems.
Import CompressionFacts.
Context `{Platform}.


End CompressionTheorems.

Section CompressionWitnesses.
Import Reference.

Example compressFile_one_rotated_file :
  let result := compressFile "logs/app-1.log" "logs/app-1.log.gz"
                             default_compression one_rotated_file in
  fst result = Ok tt
  /\ fs (snd result)
     = {[ "logs" := Directory 0; "logs/app-1.log.gz" := File "gzip(hello)" 1000 ]}.
Proof. vm_compute. split; reflexivity. Qed.

Example compressFile_level_ten :
  let result := compressFile "logs/app-1.log" "logs/app-1.log.gz"
                             level_ten one_rotated_file in
  fst result
  = Throw (RangeError "ERR_OUT_OF_RANGE"
             ("The value of " ++ quote ++ "options.level" ++ quote
              ++ " is out of range. It must be >= -1 and <= 9. Received 10"))
  /\ fs (snd result) = one_log.
Proof. vm_compute. split; reflexivity. Qed.



End CompressionWitnesses.

(** ** Properties of the retention sweeper *)

Module RetentionFacts.

Section WithPlatform.
Context `{Platform}.

Lemma elem_of_children (dir file : string) (m : gmap string Node) :
  file ∈ children dir m <->
  exists path : string,
    is_Some (m !! path) /\ join dir (basename path) = path /\ file = basename path.
Proof.
  unfold children. rewrite list_elem_of_omap. split.
  - intros (path & Hin & Hsome).
    apply elem_of_elements, elem_of_dom in Hin.
    destruct (String.eqb (join dir (basename path)) path) eqn:E; [|discriminate].
    apply String.eqb_eq in E. injection Hsome as <-. eauto.
  - intros (path & Hin & Hjoin & ->). exists path. split.
    + now apply elem_of_elements, elem_of_dom.
    + rewrite Hjoin, String.eqb_refl. reflexivity.
Qed.

Lemma sweep_one_state (dir : string) (cutoff : Z) (file : string) (s : State) :
  let s' := snd (sweep_one dir cutoff file s) in
  fs s' = (if expired cutoff (fs s !! join dir file)
           then delete (join dir file) (fs s) else fs s)
  /\ now s' = now s.
Proof.
  unfold sweep_one, Fs.stat, Fs.unlink, log, mbind, io_bind, mret, io_ret.
  destruct (fs s !! join dir file) as [[content mtime|mtime]|] eqn:E; cbn.
  - destruct (mtime <? cutoff); cbn; [|split; reflexivity].
    rewrite E. cbn. split; reflexivity.
  - destruct (mtime <? cutoff); cbn; [|split; reflexivity].
    rewrite E. cbn. split; reflexivity.
  - split; reflexivity.
Qed.

Lemma promise_all_cons_snd (task : IO unit) (rest : list (IO unit)) (s : State) :
  snd (promise_all (task :: rest) s) = snd (promise_all rest (snd (task s))).
Proof. cbn. destruct (task s) as [[[]|e] s']; reflexivity. Qed.

Lemma sweep_all_state (dir : string) (cutoff : Z) (files : list string) (s : State) :
  let s' := snd (promise_all (map (sweep_one dir cutoff) files) s) in
  (forall p : string,
      fs s' !! p = if listed dir files p && expired cutoff (fs s !! p)
                   then None else fs s !! p)
  /\ now s' = now s.
Proof.
  revert s. induction files as [|file files IH]; intros s; [split; reflexivity|].
  cbn [map]. cbv zeta. rewrite promise_all_cons_snd.
  destruct (sweep_one_state dir cutoff file s) as [Hfs Hnow].
  destruct (IH (snd (sweep_one dir cutoff file s))) as [IHfs IHnow].
  split; [|congruence].
  intros p. rewrite IHfs, Hfs. cbn [listed existsb]. fold (listed dir files p).
  destruct (String.eqb (join dir file) p) eqn:Ep.
  - apply String.eqb_eq in Ep. subst p. cbn [orb].
    destruct (expired cutoff (fs s !! join dir file)) eqn:Ex.
    + rewrite lookup_delete_eq. cbn. rewrite andb_false_r. reflexivity.
    + rewrite Ex, andb_false_r. reflexivity.
  - apply String.eqb_neq in Ep. cbn [orb].
    destruct (expired cutoff (fs s !! join dir file)).
    + rewrite lookup_delete_ne by assumption. reflexivity.
    + reflexivity.
Qed.

Lemma listed_true (dir : string) (files : list string) (p : string) :
  listed dir files p = true <-> exists file, file ∈ files /\ join dir file = p.
Proof.
  unfold listed. rewrite existsb_exists. split.
  - intros (file & Hin & E). apply String.eqb_eq in E.
    exists file. split; [now apply list_elem_of_In|assumption].
  - intros (file & Hin & E). exists file.
    split; [now apply list_elem_of_In|now apply String.eqb_eq].
Qed.

(** [cleanupOldFiles] never throws, and on an existing directory it
    leaves the file system that the sweep of the filtered listing
    leaves. *)
Lemma cleanupOldFiles_returns (dir filename : string) (retentionDays : Z) (s : State) :
  fst (cleanupOldFiles dir filename retentionDays s) = Ok tt.
Proof.
  unfold cleanupOldFiles, sweep, try_catch, readdir, date_now, log, mbind, io_bind.
  destruct (fs s !! dir) as [[content mtime|mtime]|]; cbn; try reflexivity.
  match goal with |- context [promise_all ?l s] => destruct (promise_all l s) as [[[]|e] s'] end;
    reflexivity.
Qed.

Lemma cleanupOldFiles_state (dir filename : string) (retentionDays : Z) (s : State)
    (mtime : Z) :
  fs s !! dir = Some (Directory mtime) ->
  let cutoff := now s - retentionDays * 24 * 60 * 60 * 1000 in
  let files := filter (is_log_of filename) (children dir (fs s)) in
  let s' := snd (cleanupOldFiles dir filename retentionDays s) in
  forall p : string,
    fs s' !! p = if listed dir files p && expired cutoff (fs s !! p)
                 then None else fs s !! p.
Proof.
  intros Hdir cutoff files s' p. subst s'.
  destruct (sweep_all_state dir cutoff files s) as [Hfs _].
  rewrite <- Hfs. f_equal.
  unfold cleanupOldFiles, sweep, try_catch, readdir, date_now, log, mbind, io_bind.
  rewrite Hdir. cbn. fold cutoff. fold files.
  destruct (promise_all (map (sweep_one dir cutoff) files) s) as [[[]|e] s']; reflexivity.
Qed.

Lemma cleanupOldFiles_missing_directory
    (dir filename : string) (retentionDays : Z) (s : State) :
  fs s !! dir = None ->
  fs (snd (cleanupOldFiles dir filename retentionDays s)) = fs s.
Proof.
  intros Hdir.
  unfold cleanupOldFiles, sweep, try_catch, readdir, date_now, log, mbind, io_bind.
  rewrite Hdir. reflexivity.
Qed.

End WithPlatform.

End RetentionFacts.

(** ** Properties of the transport pipeline *)

Module TransportFacts.
Import CompressionFacts.

(** The listener's test [compressedFiles.has(path)] on a path that [H]
    says is not in the ledger. *)
Ltac not_in_ledger H :=
  rewrite bool_decide_eq_false_2 by (rewrite H; apply is_Some_None).

Section WithPlatform.
Context `{Platform}.

(** What a [try] block throws, a handler that only logs reports and
    swallows; what it returns is returned. *)
Lemma try_catch_log (body : IO unit) (message : string) (s : State) :
  let handled := try_catch body (fun err => log message (Js.VError err)) s in
  fst handled = Ok tt
  /\ (forall e, fst (body s) = Throw e ->
        snd handled = logged message (Js.VError e) (snd (body s)))
  /\ (fst (body s) = Ok tt -> snd handled = snd (body s)).
Proof.
  unfold try_catch, log, logged. destruct (body s) as [[[]|e] s']; cbn.
  - repeat split. intros e [=].
  - repeat split; [|intros [=]]. intros e' [= ->]. reflexivity.
Qed.


(** The listener read in one piece, case by case. *)
Lemma on_rotated_known (options : ZlibOptions) (rotatedFile : string) (s : State) :
  is_Some (compressedFiles s !! rotatedFile) ->
  on_rotated options rotatedFile s = (Ok tt, s).
Proof.
  intros Hin. unfold on_rotated, compress_rotated, try_catch, ledger_has,
    mbind, io_bind, mret, io_ret.
  rewrite bool_decide_eq_true_2 by assumption. reflexivity.
Qed.

Lemma on_rotated_missing (options : ZlibOptions) (rotatedFile : string) (s : State) :
  compressedFiles s !! rotatedFile = None ->
  fs s !! rotatedFile = None ->
  on_rotated options rotatedFile s
  = (Ok tt,
     logged ("Error compressing rotated file " ++ rotatedFile)
            (Js.VError (SystemError "ENOENT" "stat" rotatedFile)) s).
Proof.
  intros Hled Hfs. unfold on_rotated, compress_rotated, try_catch, ledger_has, Fs.stat,
    mbind, io_bind, mret, io_ret.
  not_in_ledger Hled.
  rewrite Hfs. reflexivity.
Qed.

Lemma on_rotated_directory (options : ZlibOptions) (rotatedFile : string) (s : State)
    (mtime : Z) :
  compressedFiles s !! rotatedFile = None ->
  fs s !! rotatedFile = Some (Directory mtime) ->
  on_rotated options rotatedFile s
  = (Ok tt,
     logged ("Skipping compression, rotated file is a directory: " ++ rotatedFile)
            Js.VUndefined s).
Proof.
  intros Hled Hfs. unfold on_rotated, compress_rotated, try_catch, ledger_has, Fs.stat,
    mbind, io_bind, mret, io_ret.
  not_in_ledger Hled.
  rewrite Hfs. reflexivity.
Qed.

Lemma on_rotated_file (options : ZlibOptions) (rotatedFile : string) (s : State)
    (content : string) (mtime parent : Z) (gz : string -> string) :
  compressedFiles s !! rotatedFile = None ->
  fs s !! rotatedFile = Some (File content mtime) ->
  createGzip options = Ok gz ->
  fs s !! dirname (rotatedFile ++ ".gz") = Some (Directory parent) ->
  (forall m, fs s !! (rotatedFile ++ ".gz") <> Some (Directory m)) ->
  on_rotated options rotatedFile s = (Ok tt, compressed gz rotatedFile content s).
Proof.
  intros Hled Hfs Hgz Hparent Hdest.
  unfold on_rotated, compress_rotated, try_catch, ledger_has, Fs.stat,
    record_compression, mbind, io_bind, mret, io_ret.
  not_in_ledger Hled.
  rewrite Hfs. cbn.
  rewrite (compressFile_file _ _ _ _ content mtime parent gz) by assumption.
  reflexivity.
Qed.

(** When [compressFile] returns, the listener records the path. *)
Lemma on_rotated_compression_returned (options : ZlibOptions) (rotatedFile : string)
    (s : State) (content : string) (mtime : Z) :
  compressedFiles s !! rotatedFile = None ->
  fs s !! rotatedFile = Some (File content mtime) ->
  let s1 := snd (record_compression rotatedFile (rotatedFile ++ ".gz") s) in
  fst (compressFile rotatedFile (rotatedFile ++ ".gz") options s1) = Ok tt ->
  on_rotated options rotatedFile s
  = (Ok tt,
     recorded rotatedFile
       (snd (compressFile rotatedFile (rotatedFile ++ ".gz") options s1))).
Proof.
  intros Hled Hfs s1 Hok. subst s1.
  unfold on_rotated, compress_rotated, try_catch, ledger_has, Fs.stat,
    mbind, io_bind, mret, io_ret.
  not_in_ledger Hled.
  rewrite Hfs. cbn.
  destruct (compressFile rotatedFile (rotatedFile ++ ".gz") options _)
    as [[[]|e'] s2]; cbn in Hok; [|discriminate].
  reflexivity.
Qed.

(** When [compressFile] throws, the listener logs the error after
    [compressFile] has logged it, and returns. *)
Lemma on_rotated_compression_failure (options : ZlibOptions) (rotatedFile : string)
    (s : State) (content : string) (mtime : Z) (e : JsError) :
  compressedFiles s !! rotatedFile = None ->
  fs s !! rotatedFile = Some (File content mtime) ->
  let s1 := snd (record_compression rotatedFile (rotatedFile ++ ".gz") s) in
  fst (compressFile rotatedFile (rotatedFile ++ ".gz") options s1) = Throw e ->
  on_rotated options rotatedFile s
  = (Ok tt,
     logged ("Error compressing rotated file " ++ rotatedFile) (Js.VError e)
            (snd (compressFile rotatedFile (rotatedFile ++ ".gz") options s1))).
Proof.
  intros Hled Hfs s1 Hthrow. subst s1.
  unfold on_rotated, compress_rotated, try_catch, ledger_has, Fs.stat,
    mbind, io_bind, mret, io_ret.
  not_in_ledger Hled.
  rewrite Hfs. cbn.
  destruct (compressFile rotatedFile (rotatedFile ++ ".gz") options _)
    as [[[]|e'] s2]; cbn in Hthrow; [discriminate|].
  injection Hthrow as ->. reflexivity.
Qed.

(** A timeout callback deletes its path; the others stay. *)
Lemma lookup_fired (fired : list (Z * string)) (m : gmap string Z) (path : string) :
  fold_right (fun timeout m => delete (snd timeout) m) m fired !! path
  = if existsb (fun timeout => String.eqb (snd timeout) path) fired
    then None else m !! path.
Proof.
  induction fired as [|[d q] fired IH]; [reflexivity|]. cbn.
  destruct (String.eqb q path) eqn:E.
  - apply String.eqb_eq in E. subst q. cbn. apply lookup_delete_eq.
  - apply String.eqb_neq in E. cbn. rewrite lookup_delete_ne by assumption. exact IH.
Qed.

Lemma existsb_filter {A : Type} (f g : A -> bool) (l : list A) :
  existsb f (List.filter g l) = existsb (fun x => g x && f x) l.
Proof.
  induction l as [|x l IH]; [reflexivity|].
  cbn. destruct (g x); cbn; now rewrite IH.
Qed.

Lemma advance_lookup (t : Z) (s : State) (path : string) :
  compressedFiles (advance t s) !! path
  = if existsb (fun timeout => due (Z.max t (now s)) timeout
                               && String.eqb (snd timeout) path) (timeouts s)
    then None else compressedFiles s !! path.
Proof.
  unfold advance. cbn [compressedFiles]. rewrite lookup_fired.
  now rewrite existsb_filter.
Qed.

(** [compressFile] from one [await] to the next, case by case. *)
Lemma compressFile_resume_exists (src dest : string) (options : ZlibOptions) (s : State) :
  compressFile_resume src dest options SourceExists s
  = match fs s !! src with
    | Some _ => (Ok (Some SourceStat), s)
    | None =>
        (Ok None,
         logged ("Skipping compression, file does not exist: " ++ src) Js.VUndefined s)
    end.
Proof.
  unfold compressFile_resume, try_catch, fileExists, Fs.access, log, logged,
    mbind, io_bind, mret, io_ret, try_catch.
  destruct (fs s !! src); reflexivity.
Qed.

Lemma compressFile_resume_stat (src dest : string) (options : ZlibOptions) (s : State) :
  compressFile_resume src dest options SourceStat s
  = match fs s !! src with
    | Some (File _ _) =>
        match createGzip options with
        | Ok gz => (Ok (Some (Pipeline gz)), s)
        | Throw e => (Throw e, failed src e s)
        end
    | Some (Directory _) =>
        (Ok None,
         logged ("Skipping compression, source is a directory: " ++ src) Js.VUndefined s)
    | None =>
        (Throw (SystemError "ENOENT" "stat" src),
         failed src (SystemError "ENOENT" "stat" src) s)
    end.
Proof.
  unfold compressFile_resume, try_catch, Fs.stat, lift, log, logged, failed, throw,
    mbind, io_bind, mret, io_ret.
  destruct (fs s !! src) as [[c m|m]|]; cbn; try reflexivity.
  destruct (createGzip options); reflexivity.
Qed.

Lemma compressFile_resume_pipeline (src dest : string) (options : ZlibOptions)
    (gz : string -> string) (s : State) :
  compressFile_resume src dest options (Pipeline gz) s
  = match Fs.pipelineAsync src gz dest s with
    | (Ok _, s') => (Ok (Some DestExists), s')
    | (Throw e, s') => (Throw e, failed src e s')
    end.
Proof.
  unfold compressFile_resume, try_catch, log, failed, throw,
    mbind, io_bind, mret, io_ret.
  destruct (Fs.pipelineAsync src gz dest s) as [[[]|e] s']; reflexivity.
Qed.

Lemma compressFile_resume_dest (src dest : string) (options : ZlibOptions) (s : State) :
  compressFile_resume src dest options DestExists s
  = match fs s !! dest with
    | Some _ => (Ok (Some Unlink), s)
    | None =>
        let e := Error ("Compression failed: Destination file " ++ dest ++ " not found") in
        (Throw e, failed src e s)
    end.
Proof.
  unfold compressFile_resume, try_catch, fileExists, Fs.access, log, failed, throw,
    mbind, io_bind, mret, io_ret, try_catch.
  destruct (fs s !! dest); reflexivity.
Qed.

Lemma compressFile_resume_unlink (src dest : string) (options : ZlibOptions) (s : State) :
  compressFile_resume src dest options Unlink s
  = match fs s !! src with
    | Some (File _ _) => (Ok None, set_fs (delete src (fs s)) s)
    | Some (Directory _) =>
        (Throw (SystemError "EISDIR" "unlink" src),
         failed src (SystemError "EISDIR" "unlink" src) s)
    | None =>
        (Throw (SystemError "ENOENT" "unlink" src),
         failed src (SystemError "ENOENT" "unlink" src) s)
    end.
Proof.
  unfold compressFile_resume, try_catch, Fs.unlink, log, failed, throw,
    mbind, io_bind, mret, io_ret.
  destruct (fs s !! src) as [[c m|m]|]; reflexivity.
Qed.

(** The listener from one [await] to the next, by what its call of
    [compressFile] does. *)
Lemma listener_resume_compress (options : ZlibOptions) (rotatedFile : string)
    (c : CompressAwait) (s : State) :
  listener_resume options rotatedFile (InCompressFile c) s
  = match compressFile_resume rotatedFile (rotatedFile ++ ".gz") options c s with
    | (Ok (Some c'), s') => (Ok (Some (InCompressFile c')), s')
    | (Ok None, s') => (Ok None, recorded rotatedFile s')
    | (Throw e, s') =>
        (Ok None,
         logged ("Error compressing rotated file " ++ rotatedFile) (Js.VError e) s')
    end.
Proof.
  unfold listener_resume, try_catch at 1, recorded, log, logged, mbind, io_bind, mret, io_ret.
  destruct (compressFile_resume _ _ _ _ _) as [[[c'|]|e] s']; reflexivity.
Qed.

Lemma listener_resume_stat (options : ZlibOptions) (rotatedFile : string) (s : State) :
  listener_resume options rotatedFile RotatedStat s
  = match fs s !! rotatedFile with
    | Some (File _ _) =>
        (Ok (Some (InCompressFile SourceExists)),
         snd (record_compression rotatedFile (rotatedFile ++ ".gz") s))
    | Some (Directory _) =>
        (Ok None,
         logged ("Skipping compression, rotated file is a directory: " ++ rotatedFile)
                Js.VUndefined s)
    | None =>
        (Ok None,
         logged ("Error compressing rotated file " ++ rotatedFile)
                (Js.VError (SystemError "ENOENT" "stat" rotatedFile)) s)
    end.
Proof.
  unfold listener_resume, try_catch, Fs.stat, record_compression, log, logged,
    mbind, io_bind, mret, io_ret.
  destruct (fs s !! rotatedFile) as [[c m|m]|]; reflexivity.
Qed.


End WithPlatform.

End TransportFacts.

(** ** The ledger over the life of the transport *)

Section Ledger.
Context `{Platform}.
Import CompressionFacts RetentionFacts TransportFacts.

Lemma same_ledger_invariant (s s' : State) :
  same_ledger s s' -> ledger_invariant s -> ledger_invariant s'.
Proof.
  intros (Hc & Ht & Hn) [I1 I2]. unfold ledger_invariant.
  rewrite Hc, Ht, Hn. split; assumption.
Qed.

Lemma same_ledger_refl (s : State) : same_ledger s s.
Proof. repeat split. Qed.

Lemma same_ledger_trans (s1 s2 s3 : State) :
  same_ledger s1 s2 -> same_ledger s2 s3 -> same_ledger s1 s3.
Proof. intros (A1 & A2 & A3) (B1 & B2 & B3). repeat split; congruence. Qed.

Lemma same_ledger_logged (message : string) (error : Js.Value) (s : State) :
  same_ledger s (logged message error s).
Proof. repeat split. Qed.

Lemma sweep_one_same_ledger (dir : string) (cutoff : Z) (file : string) (s : State) :
  same_ledger s (snd (sweep_one dir cutoff file s)).
Proof.
  unfold sweep_one, Fs.stat, Fs.unlink, log, mbind, io_bind, mret, io_ret.
  destruct (fs s !! join dir file) as [[content mtime|mtime]|] eqn:E; cbn;
    try apply same_ledger_refl;
    destruct (mtime <? cutoff); cbn; try apply same_ledger_refl;
    rewrite E; cbn; repeat split.
Qed.

Lemma promise_all_same_ledger (tasks : list (IO unit)) :
  (forall task, In task tasks -> forall s, same_ledger s (snd (task s))) ->
  forall s, same_ledger s (snd (promise_all tasks s)).
Proof.
  induction tasks as [|task rest IH]; intros Hall s; [apply same_ledger_refl|].
  rewrite promise_all_cons_snd.
  eapply same_ledger_trans.
  - apply Hall. now left.
  - apply IH. intros task' Hin. apply Hall. now right.
Qed.

Lemma cleanupOldFiles_same_ledger (dir filename : string) (retentionDays : Z)
    (s : State) :
  same_ledger s (snd (cleanupOldFiles dir filename retentionDays s)).
Proof.
  unfold cleanupOldFiles.
  destruct (try_catch_log (sweep dir filename retentionDays)
              ("Error during log file cleanup in " ++ dir) s) as (_ & Hthrow & Hok).
  assert (Hbody : same_ledger s (snd (sweep dir filename retentionDays s))).
  { unfold sweep, readdir, date_now, mbind, io_bind.
    destruct (fs s !! dir) as [[content mtime|mtime]|]; cbn;
      try apply same_ledger_refl.
    apply promise_all_same_ledger. intros task Hin s0.
    apply in_map_iff in Hin as (file & <- & _). apply sweep_one_same_ledger. }
  destruct (fst (sweep dir filename retentionDays s)) as [[]|e] eqn:E.
  - rewrite Hok by reflexivity. exact Hbody.
  - rewrite (Hthrow e eq_refl).
    eapply same_ledger_trans; [exact Hbody|apply same_ledger_logged].
Qed.

Lemma MAX_COMPRESSION_AGE_is_24h : MAX_COMPRESSION_AGE = 86400000.
Proof. reflexivity. Qed.

Lemma pipelineAsync_same_ledger (src dest : string) (gz : string -> string) (s : State) :
  same_ledger s (snd (Fs.pipelineAsync src gz dest s)).
Proof.
  unfold Fs.pipelineAsync.
  destruct (Fs.open_for_writing dest (fs s)) as [[]|e];
    [destruct (Fs.read_all src (fs s))|]; repeat split.
Qed.

(** [compressFile] works on the files and the error logger only. *)
Lemma compressFile_resume_same_ledger (src dest : string) (options : ZlibOptions)
    (c : CompressAwait) (s : State) :
  same_ledger s (snd (compressFile_resume src dest options c s)).
Proof.
  destruct c as [| |gz| |].
  - rewrite compressFile_resume_exists. destruct (fs s !! src); repeat split.
  - rewrite compressFile_resume_stat.
    destruct (fs s !! src) as [[c m|m]|]; try (repeat split; fail).
    destruct (createGzip options); repeat split.
  - rewrite compressFile_resume_pipeline.
    pose proof (pipelineAsync_same_ledger src dest gz s) as Hp.
    destruct (Fs.pipelineAsync src gz dest s) as [[[]|e] s']; exact Hp.
  - rewrite compressFile_resume_dest. destruct (fs s !! dest); repeat split.
  - rewrite compressFile_resume_unlink.
    destruct (fs s !! src) as [[c m|m]|]; repeat split.
Qed.

(** One more round of the listener either leaves the ledger alone or
    records the file it was called for, with its timeout. *)
Lemma listener_resume_ledger (options : ZlibOptions) (rotatedFile : string)
    (at_ : Await) (s : State) :
  let s' := snd (listener_resume options rotatedFile at_ s) in
  same_ledger s s'
  \/ (fst (listener_resume options rotatedFile at_ s) = Ok None
      /\ compressedFiles s' = <[rotatedFile := now s]> (compressedFiles s)
      /\ timeouts s' = (now s + MAX_COMPRESSION_AGE, rotatedFile) :: timeouts s
      /\ now s' = now s).
Proof.
  destruct at_ as [|c]; cbv zeta.
  - left. rewrite listener_resume_stat.
    destruct (fs s !! rotatedFile) as [[c m|m]|]; repeat split.
  - rewrite listener_resume_compress.
    pose proof (compressFile_resume_same_ledger rotatedFile (rotatedFile ++ ".gz")
                  options c s) as (Hc & Ht & Hn).
    destruct (compressFile_resume _ _ _ _ _) as [[[c'|]|e] s']; cbn [fst snd] in *.
    + left. repeat split; assumption.
    + right. split; [reflexivity|]. unfold recorded. cbn. rewrite Hc, Ht, Hn.
      repeat split.
    + left. repeat split; assumption.
Qed.

Lemma recorded_invariant (rotatedFile : string) (s s' : State) :
  compressedFiles s' = <[rotatedFile := now s]> (compressedFiles s) ->
  timeouts s' = (now s + MAX_COMPRESSION_AGE, rotatedFile) :: timeouts s ->
  now s' = now s ->
  ledger_invariant s -> ledger_invariant s'.
Proof.
  intros Hc Ht Hn [I1 I2]. unfold ledger_invariant. rewrite Hc, Ht, Hn.
  pose proof MAX_COMPRESSION_AGE_is_24h as HM. split.
  - intros d p [E|Hin]; [injection E as <- <-; lia|exact (I1 d p Hin)].
  - intros p t Hp. destruct (decide (rotatedFile = p)) as [<-|Hne].
    + rewrite lookup_insert_eq in Hp. injection Hp as <-. now left.
    + rewrite lookup_insert_ne in Hp by assumption. right. now apply I2.
Qed.

Lemma listener_resume_invariant (options : ZlibOptions) (rotatedFile : string)
    (at_ : Await) (s : State) :
  ledger_invariant s ->
  ledger_invariant (snd (listener_resume options rotatedFile at_ s)).
Proof.
  intros Hinv.
  destruct (listener_resume_ledger options rotatedFile at_ s)
    as [Hsame|(_ & Hc & Ht & Hn)].
  - eapply same_ledger_invariant; eassumption.
  - eapply recorded_invariant; eassumption.
Qed.

Lemma advance_invariant (t : Z) (s : State) :
  ledger_invariant s -> ledger_invariant (advance t s).
Proof.
  intros [I1 I2]. split.
  - intros d p Hin. cbn [timeouts advance] in Hin.
    apply filter_In in Hin as [Hin Hnot].
    unfold due in Hnot. cbn in Hnot. apply negb_true_iff, Z.leb_gt in Hnot.
    specialize (I1 d p Hin). cbn [now advance]. lia.
  - intros p t0 Hp. rewrite advance_lookup in Hp.
    destruct (existsb _ (timeouts s)) eqn:Ex; [discriminate|].
    cbn [timeouts advance]. apply filter_In. split; [now apply I2|].
    apply negb_true_iff. destruct (due _ _) eqn:Hdue; [|reflexivity].
    exfalso. apply not_true_iff_false in Ex. apply Ex.
    apply existsb_exists. exists (t0 + MAX_COMPRESSION_AGE, p).
    split; [now apply I2|]. rewrite Hdue. cbn. apply String.eqb_refl.
Qed.

Lemma notify_transport (rotatedFile : string) (w : World) :
  transport (notify rotatedFile w) = transport w.
Proof. unfold notify. destruct (bool_decide _); reflexivity. Qed.

Lemma resume_transport (options : ZlibOptions) (position : nat) (w : World) :
  transport (resume options position w) = transport w
  \/ exists rotatedFile at_,
       listeners w !! position = Some (rotatedFile, at_)
       /\ transport (resume options position w)
          = snd (listener_resume options rotatedFile at_ (transport w)).
Proof.
  unfold resume. destruct (listeners w !! position) as [[rotatedFile at_]|] eqn:E;
    [|now left].
  right. exists rotatedFile, at_. split; [reflexivity|].
  destruct (listener_resume _ _ _ _) as [[[next|]|e] s']; reflexivity.
Qed.

Lemma step_invariant (options : ZlibOptions) (w : World) (e : Event) :
  ledger_invariant (transport w) -> ledger_invariant (transport (step options w e)).
Proof.
  intros Hinv.
  destruct e as [rotatedFile|position|t|dir filename retentionDays| |files];
    cbn [step set_transport transport].
  - now rewrite notify_transport.
  - destruct (resume_transport options position w) as [->|(f & at_ & _ & ->)];
      [assumption|]. now apply listener_resume_invariant.
  - now apply advance_invariant.
  - eapply same_ledger_invariant; [apply cleanupOldFiles_same_ledger|assumption].
  - eapply same_ledger_invariant; [|eassumption]. repeat split.
  - eapply same_ledger_invariant; [|eassumption]. repeat split.
Qed.

Lemma start_invariant (files : gmap string Node) (clock : Z) (logger : ErrorLogger.t) :
  ledger_invariant (transport (start files clock logger)).
Proof. split; [intros d p []|intros p t Hp; cbn in Hp; discriminate]. Qed.

Lemma run_events_invariant (options : ZlibOptions) (events : list Event) (w : World) :
  ledger_invariant (transport w) ->
  ledger_invariant (transport (run_events options events w)).
Proof.
  revert w. induction events as [|e events IH]; intros w Hinv; [assumption|].
  cbn. apply IH. now apply step_invariant.
Qed.



(** The listener read in one piece is the listener resumed six times
    with nothing in between. *)
Lemma on_rotated_settles (options : ZlibOptions) (rotatedFile : string) (s : State) :
  snd (on_rotated options rotatedFile s)
  = if bool_decide (is_Some (compressedFiles s !! rotatedFile)) then s
    else settle 6 options rotatedFile RotatedStat s.
Proof.
  pose proof (gz_sibling_differs rotatedFile) as Hgz.
  assert (Hl : is_Some (compressedFiles s !! rotatedFile)
               \/ compressedFiles s !! rotatedFile = None)
    by (destruct (compressedFiles s !! rotatedFile); eauto).
  destruct Hl as [Hin|Hled].
  { rewrite on_rotated_known by assumption.
    rewrite bool_decide_eq_true_2 by assumption. reflexivity. }
  not_in_ledger Hled.
  cbn [settle]. rewrite listener_resume_stat.
  destruct (fs s !! rotatedFile) as [[content mtime|mtime]|] eqn:Hfs.
  - set (s1 := snd (record_compression rotatedFile (rotatedFile ++ ".gz") s)).
    assert (Hfs1 : fs s1 !! rotatedFile = Some (File content mtime)) by exact Hfs.
    rewrite listener_resume_compress, compressFile_resume_exists, Hfs1.
    rewrite listener_resume_compress, compressFile_resume_stat, Hfs1.
    destruct (compressFile_cases rotatedFile (rotatedFile ++ ".gz") options s1)
      as [(c & m & gz & Hs & Hz & Hopen & E)
         |[(c & m & e & Hs & [Hz|(gz & Hz & Hopen)] & E)|(Hnot & _)]].
    + rewrite (on_rotated_compression_returned options rotatedFile s content mtime)
        by (try assumption; fold s1; now rewrite E).
      fold s1. rewrite E.
      rewrite Hz. cbn [snd].
      rewrite listener_resume_compress, compressFile_resume_pipeline.
      unfold Fs.pipelineAsync at 1. rewrite Hopen. unfold Fs.read_all. rewrite Hs.
      rewrite listener_resume_compress, compressFile_resume_dest.
      cbn [fs set_fs]. rewrite lookup_insert_eq.
      rewrite listener_resume_compress, compressFile_resume_unlink.
      cbn [fs set_fs]. rewrite lookup_insert_ne by congruence. rewrite Hs.
      reflexivity.
    + rewrite (on_rotated_compression_failure options rotatedFile s content mtime e)
        by (try assumption; fold s1; now rewrite E).
      fold s1. rewrite E, Hz. reflexivity.
    + rewrite (on_rotated_compression_failure options rotatedFile s content mtime e)
        by (try assumption; fold s1; now rewrite E).
      fold s1. rewrite E, Hz. cbn [snd].
      rewrite listener_resume_compress, compressFile_resume_pipeline.
      unfold Fs.pipelineAsync. rewrite Hopen. reflexivity.
    + exfalso. now apply (Hnot content mtime).
  - now rewrite (on_rotated_directory _ _ _ mtime).
  - now rewrite on_rotated_missing.
Qed.

End Ledger.

(** ** The retention sweep, entry by entry *)

Section RetentionTheorems.
Import RetentionFacts TransportFacts.
Context `{Platform}.

Lemma listed_expired_swept (dir filename : string) (cutoff : Z)
    (files : gmap string Node) (p : string) :
  listed dir (filter (is_log_of filename) (children dir files)) p
  && expired cutoff (files !! p) = true
  <-> swept dir filename cutoff files p.
Proof.
  rewrite andb_true_iff, listed_true. unfold swept. split.
  - intros [(file & Hin & Hjoin) Hexp].
    apply list_elem_of_filter in Hin as [Hlog Hin].
    apply elem_of_children in Hin as (path & Hsome & Hpath & ->).
    assert (path = p) as -> by congruence.
    destruct (files !! p) as [[content mtime|mtime]|] eqn:E; try discriminate.
    exists content, mtime. cbn in Hexp. apply Z.ltb_lt in Hexp.
    repeat split; try assumption. now apply Is_true_true.
  - intros (content & mtime & Hp & Hjoin & Hlog & Hold). split.
    + exists (basename p). split; [|assumption].
      apply list_elem_of_filter. split; [now apply Is_true_true|].
      apply elem_of_children. exists p. rewrite Hp. eauto.
    + rewrite Hp. cbn. now apply Z.ltb_lt.
Qed.



End RetentionTheorems.

Section RetentionWitnesses.
Import Reference RetentionFacts.



End RetentionWitnesses.

(** ** De-duplication of rotation notifications *)

Section LedgerTheorems.
Import TransportFacts.
Context `{Platform}.


End LedgerTheorems.

Section LedgerWitness.
Import Reference.

Example rotated_once_then_expired :
  let s1 := transport (run_events default_compression [Rotated "logs/app-1.log"]
                                  rotated_once) in
  let s2 := advance 86400999 s1 in
  let s3 := advance 86401000 s1 in
  listeners rotated_once = []
  /\ compressions s1 = [("logs/app-1.log", "logs/app-1.log.gz")]
  /\ fs s1 = {[ "logs" := Directory 0; "logs/app-1.log.gz" := File "gzip(hello)" 1000 ]}
  /\ compressedFiles s1 !! "logs/app-1.log" = Some 1000
  /\ compressedFiles s2 !! "logs/app-1.log" = Some 1000
  /\ compressedFiles s3 !! "logs/app-1.log" = None
  /\ timeouts s3 = [].
Proof. vm_compute. repeat split; reflexivity. Qed.

(** Two notifications that both come before the first listener has
    recorded the path: both listeners call [compressFile], the second
    records the path again, and its entry goes when the timeout of the
    first is due. *)
Example overlapping_notifications :
  let s := transport rotated_twice in
  compressions s = [("logs/app-1.log", "logs/app-1.log.gz");
                    ("logs/app-1.log", "logs/app-1.log.gz")]
  /\ fs s = {[ "logs" := Directory 0; "logs/app-1.log.gz" := File "gzip(hello)" 1000 ]}
  /\ compressedFiles s !! "logs/app-1.log" = Some 4000
  /\ timeouts s = [(86404000, "logs/app-1.log"); (86401000, "logs/app-1.log")]
  /\ compressedFiles (advance 86401000 s) !! "logs/app-1.log" = None.
Proof. vm_compute. repeat split; reflexivity. Qed.


End LedgerWitness.

(** ** Error isolation *)

Section IsolationTheorems.
Import ValidatorFacts RetentionFacts TransportFacts.
Context `{Platform}.






(** C10. A transport constructed with [enabled] set to false is the
    pass-through, whatever the other options are: a missing [dir], a
    malformed size or interval and an unknown timestamp format are not
    looked at, and nothing is thrown. *)
Theorem disabled_transport_skips_validation
    (options : Options.t) (files : gmap string Node) (clock : Z) :
  Options.enabled options = Some false ->
  pinoTransportRotatingFile options files clock = Ok PassThrough.
Proof.
  intros Hoff. unfold pinoTransportRotatingFile. rewrite Hoff. reflexivity.
Qed.

End IsolationTheorems.

Section IsolationWitnesses.
Import Reference ValidatorFacts TransportFacts.

Example construction_with_defaults :
  pinoTransportRotatingFile
    (Options.mk (Some "logs") None None None None None None (Some 0)
                None None None None None)
    one_log 1000
  = Ok (Running (Active.mk "logs" "app" "100K" "1d" true true 0 default_compression
                           "iso" false false true one_rotated_file)).
Proof. vm_compute. reflexivity. Qed.

Example construction_rejects_bad_interval :
  pinoTransportRotatingFile
    (Options.mk (Some "logs") None None None (Some "1w") None None None
                None None None None None)
    ∅ 0
  = Throw (Error "Invalid interval format: 1w. Expected format: <number><s|m|h|d|M>").
Proof. vm_compute. reflexivity. Qed.

(** An interval that the validator of the transport lets through and
    the rotating stream rejects. *)
Example construction_rejects_seven_hours :
  Validator.validateInterval "7h" = Ok tt
  /\ pinoTransportRotatingFile
       (Options.mk (Some "logs") None None None (Some "7h") None None None
                   None None None None None)
       ∅ 0
     = Throw (Error "An integer divider of 24 is expected as hours for 'options.interval'").
Proof. vm_compute. split; reflexivity. Qed.

(** A line that cannot be formatted takes the pipeline down: the error
    logger is destroyed, the failure is buffered after that, and the
    next line goes nowhere. *)
Example formatting_failure_is_logged :
  let failed := snd (write None EmptyString running) in
  fst (write None EmptyString running) = Ok tt
  /\ ErrorLogger.buffer (errorLogger (Active.state failed))
     = ["1970-01-01T00:00:01.000Z - Failed to write log in transport: "
        ++ "Error: nothing to format" ++ ErrorLogger.newline]
  /\ ErrorLogger.flushInterval (errorLogger (Active.state failed)) = false
  /\ Active.cleanupInterval failed = false
  /\ delivered (Active.state (snd (write None "{}" failed))) = []
  /\ delivered (Active.state (snd (write None "{}" running))) = ["{}"].
Proof. vm_compute. repeat split; reflexivity. Qed.


Lemma disabled_transport_witness :
  Options.enabled disabled_and_malformed = Some false
  /\ pinoTransportRotatingFile disabled_and_malformed ∅ 0 = Ok PassThrough.
Proof.
  split; [reflexivity|].
  exact (disabled_transport_skips_validation disabled_and_malformed ∅ 0 eq_refl).
Defined.

Lemma validators_witness :
  In "K"%char Validator.storage_units
  /\ Validator.validateSize (pretty (Z.pos 100) ++ String "K" EmptyString) = Ok tt
  /\ ~ well_formed Validator.storage_units "0K"
  /\ exists e, Validator.validateSize "0K" = Throw e /\ size_error "0K" e.
Proof.
  assert (H1 : In "K"%char Validator.storage_units) by (cbn; tauto).
  assert (H2 : ~ well_formed Validator.storage_units "0K").
  { intros Hwf. apply validateSize_ok_iff in Hwf. discriminate. }
  split; [exact H1|]. split; [|split; [exact H2|]].
  - exact (proj1 validators_accept_exactly_well_formed 100%positive "K"%char H1).
  - exact (proj1 (proj2 (proj2 validators_accept_exactly_well_formed)) "0K" H2).
Defined.

End IsolationWitnesses.

(** * Further properties *)

(** ** The error logger over its life *)

Module LoggerLifeFacts.
Export StringFacts.
Import ErrorLogger LoggerLife.

Lemma concat_app (l1 l2 : list string) :
  Str.concat (l1 ++ l2) = Str.concat l1 ++ Str.concat l2.
Proof.
  unfold Str.concat. induction l1 as [|x l1 IH]; [reflexivity|].
  cbn [app fold_right]. rewrite IH. symmetry. apply append_assoc.
Qed.

Lemma output_flush (l : t) : output (flush l) = output l.
Proof.
  unfold flush, output. destruct (buffer l) as [|x b] eqn:E; [now rewrite E|].
  cbn [written buffer]. rewrite map_app, concat_app. cbn [map snd Str.concat fold_right].
  rewrite !append_empty_r. reflexivity.
Qed.

Section WithPlatform.
Context `{Platform}.

Lemma output_log (now : Z) (message : string) (error : Js.Value) (l : t) :
  output (log now message error l) = output l ++ line now message error.
Proof.
  unfold log. cbn [bufferSize buffer].
  match goal with |- context [flush ?l'] => set (l1 := l') end.
  assert (H1 : output l1 = output l ++ line now message error).
  { unfold output, l1. cbn [written buffer]. rewrite concat_app. cbn.
    rewrite append_empty_r. symmetry. apply append_assoc. }
  destruct (_ <=? _); [rewrite output_flush|]; exact H1.
Qed.

Lemma output_react (l : t) (e : Event) :
  output (react l e) = output l ++ Str.concat (lines [e]).
Proof.
  destruct e as [now message error| |]; cbn [react lines omap].
  - rewrite output_log. cbn. now rewrite append_empty_r.
  - unfold interval_elapsed. cbn. rewrite append_empty_r.
    destruct (flushInterval l); [apply output_flush|reflexivity].
  - unfold destroy. cbn. rewrite append_empty_r.
    etransitivity; [|apply output_flush]. reflexivity.
Qed.

End WithPlatform.
End LoggerLifeFacts.

Module LoggerLifeFacts2.
Import ErrorLogger LoggerLife LoggerLifeFacts.

Lemma append_nonempty_r (a b : string) : b <> EmptyString -> a ++ b <> EmptyString.
Proof. destruct a; [trivial|discriminate]. Qed.

Lemma append_nonempty_l (a b : string) : a <> EmptyString -> a ++ b <> EmptyString.
Proof. destruct a; [contradiction|discriminate]. Qed.

Lemma flush_well_kept (l : t) : well_kept l -> well_kept (flush l).
Proof.
  intros [Hw Hb]. unfold flush. destruct (buffer l) as [|x b] eqn:E; [now split; [|rewrite E]|].
  split; cbn [written buffer errorLogFile]; [|constructor].
  apply Forall_app. split; [assumption|]. constructor; [|constructor].
  split; [reflexivity|]. cbn. apply append_nonempty_l. now inversion Hb.
Qed.

Lemma flush_fields (l : t) :
  errorLogFile (flush l) = errorLogFile l
  /\ bufferSize (flush l) = bufferSize l
  /\ flushInterval (flush l) = flushInterval l.
Proof. unfold flush. destruct (buffer l); repeat split. Qed.

Section WithPlatform.
Context `{Platform}.

Lemma line_nonempty (now : Z) (message : string) (error : Js.Value) :
  line now message error <> EmptyString.
Proof.
  unfold line. repeat apply append_nonempty_r. discriminate.
Qed.

Lemma log_fields (now : Z) (message : string) (error : Js.Value) (l : t) :
  errorLogFile (log now message error l) = errorLogFile l
  /\ bufferSize (log now message error l) = bufferSize l
  /\ flushInterval (log now message error l) = flushInterval l.
Proof.
  unfold log. cbn [bufferSize buffer]. destruct (_ <=? _); [|repeat split].
  match goal with |- context [flush ?l'] => destruct (flush_fields l') as (A & B & C) end.
  rewrite A, B, C. repeat split.
Qed.

Lemma react_fields (l : t) (e : Event) :
  errorLogFile (react l e) = errorLogFile l /\ bufferSize (react l e) = bufferSize l.
Proof.
  destruct e as [now message error| |]; cbn [react].
  - destruct (log_fields now message error l) as (A & B & _). now split.
  - unfold interval_elapsed. destruct (flushInterval l); [|now split].
    destruct (flush_fields l) as (A & B & _). now split.
  - unfold destroy. cbn. destruct (flush_fields l) as (A & B & _). now split.
Qed.

Lemma react_well_kept (l : t) (e : Event) : well_kept l -> well_kept (react l e).
Proof.
  intros Hk. destruct e as [now message error| |]; cbn [react].
  - unfold log. cbn [bufferSize buffer].
    match goal with |- context [flush ?l'] => assert (Hk' : well_kept l') end.
    { destruct Hk as [Hw Hb]. split; cbn [written buffer errorLogFile]; [assumption|].
      apply Forall_app. split; [assumption|].
      constructor; [apply line_nonempty|constructor]. }
    destruct (_ <=? _); [now apply flush_well_kept|assumption].
  - unfold interval_elapsed. destruct (flushInterval l); [now apply flush_well_kept|assumption].
  - unfold destroy. pose proof (flush_well_kept l Hk) as [Hw Hb]. split; assumption.
Qed.

Lemma replay_snoc (events : list Event) (e : Event) (l : t) :
  replay (events ++ [e]) l = react (replay events l) e.
Proof. unfold replay. now rewrite fold_left_app. Qed.

Lemma replay_fields (events : list Event) (l : t) :
  errorLogFile (replay events l) = errorLogFile l
  /\ bufferSize (replay events l) = bufferSize l.
Proof.
  induction events as [|e events IH] using rev_ind; [now split|].
  rewrite replay_snoc. destruct (react_fields (replay events l) e) as [A B].
  destruct IH as [A' B']. split; congruence.
Qed.

Lemma replay_well_kept (events : list Event) (l : t) :
  well_kept l -> well_kept (replay events l).
Proof.
  intros Hk. induction events as [|e events IH] using rev_ind; [assumption|].
  rewrite replay_snoc. now apply react_well_kept.
Qed.

Lemma lines_app (e1 e2 : list Event) : lines (e1 ++ e2) = (lines e1 ++ lines e2)%list.
Proof. unfold lines. apply omap_app. Qed.

Lemma output_replay (events : list Event) (l : t) :
  output (replay events l) = output l ++ Str.concat (lines events).
Proof.
  induction events as [|e events IH] using rev_ind.
  - cbn. now rewrite append_empty_r.
  - rewrite replay_snoc, output_react, IH, lines_app, concat_app. apply append_assoc.
Qed.

(** After an event the buffer is below the capacity, or empty when the
    capacity is below one. *)
Lemma react_buffer_bound (l : t) (e : Event) :
  Z.of_nat (length (buffer l)) < Z.max (bufferSize l) 1 ->
  Z.of_nat (length (buffer (react l e))) < Z.max (bufferSize l) 1.
Proof.
  intros Hb.
  assert (Hflush : forall l', Z.of_nat (length (buffer l')) < Z.max (bufferSize l) 1 ->
                     Z.of_nat (length (buffer (flush l'))) < Z.max (bufferSize l) 1).
  { intros l' Hl'. unfold flush. destruct (buffer l') eqn:E; [now rewrite E|]. cbn. lia. }
  destruct e as [now message error| |]; cbn [react].
  - unfold log. cbn [bufferSize buffer].
    destruct (_ <=? _) eqn:E.
    + unfold flush. cbn [buffer]. destruct (buffer l ++ _)%list; cbn; lia.
    + apply Z.leb_gt in E. cbn [buffer]. lia.
  - unfold interval_elapsed. destruct (flushInterval l); [now apply Hflush|assumption].
  - unfold destroy. cbn [buffer]. now apply Hflush.
Qed.

End WithPlatform.
End LoggerLifeFacts2.

Section LoggerLifeTheorems.
Import ErrorLogger ErrorLoggerFacts LoggerLife LoggerLifeFacts LoggerLifeFacts2.
Context `{Platform}.

(** X1. Whatever the capacity and however [log] calls, timer ticks and
    [destroy] calls follow one another, an error logger drops and
    repeats no line on the way from [log] to [write]: the texts it has
    handed to [write] or [console.error], taken in the order of the
    calls, followed by what it still buffers, are the lines of the
    [log] calls in their order.  Every call goes to the one target fixed
    at creation and none hands over an empty text.  Nothing is said
    about the file: each flush writes through a stream of its own, and
    in which order two writes land there is not the logger's to
    decide. *)
Theorem error_logger_loses_no_line
    (file : option string) (capacity interval : Z) (events : list Event) :
  let l := replay events (createErrorLogger file capacity interval) in
  Str.concat (map snd (written l)) ++ Str.concat (buffer l)
  = Str.concat (lines events)
  /\ Forall (fun w => fst w = target file /\ snd w <> EmptyString) (written l).
Proof.
  intros l. subst l. split.
  - pose proof (output_replay events (createErrorLogger file capacity interval)) as Ho.
    unfold output in Ho. rewrite Ho. reflexivity.
  - destruct (replay_well_kept events (createErrorLogger file capacity interval)) as [Hw _].
    { split; constructor. }
    destruct (replay_fields events (createErrorLogger file capacity interval)) as [Hf _].
    rewrite Hf in Hw. exact Hw.
Qed.

(** X2. The buffer of an error logger never reaches its capacity: after
    any replay of [log] calls, ticks and [destroy] calls it holds fewer
    lines than the capacity, and with a capacity of one or less it is
    empty, so every line is written by the call that logs it. *)
Theorem error_logger_buffer_below_capacity
    (file : option string) (capacity interval : Z) (events : list Event) :
  let l := replay events (createErrorLogger file capacity interval) in
  Z.of_nat (length (buffer l)) < Z.max capacity 1
  /\ (capacity <= 1 ->
        buffer l = []
        /\ Str.concat (map snd (written l)) = Str.concat (lines events)).
Proof.
  intros l. subst l.
  assert (Hb : Z.of_nat (length (buffer (replay events
                 (createErrorLogger file capacity interval)))) < Z.max capacity 1).
  { induction events as [|e events IH] using rev_ind; [cbn; lia|].
    rewrite replay_snoc.
    destruct (replay_fields events (createErrorLogger file capacity interval)) as [_ Hc].
    cbn [bufferSize createErrorLogger] in Hc. rewrite <- Hc at 2.
    apply react_buffer_bound. now rewrite Hc. }
  split; [exact Hb|]. intros Hc.
  assert (He : buffer (replay events (createErrorLogger file capacity interval)) = []).
  { destruct (buffer _); [reflexivity|cbn in Hb; lia]. }
  split; [exact He|].
  pose proof (output_replay events (createErrorLogger file capacity interval)) as Ho.
  unfold output in Ho. rewrite He in Ho. cbn in Ho.
  rewrite !append_empty_r in Ho. exact Ho.
Qed.

(** X3. [destroy] writes out what is buffered and stops the timer, and a
    second [destroy] changes nothing.  A logger that goes on being used
    after [destroy] still buffers, but only a full buffer is written:
    as long as fewer lines than the capacity are logged, ticks of the
    timer write nothing and the lines stay in the buffer. *)
Theorem error_logger_destroy_stops_timer (l : t) (events : list Event) :
  buffer (destroy l) = []
  /\ flushInterval (destroy l) = false
  /\ Str.concat (map snd (written (destroy l)))
     = Str.concat (map snd (written l)) ++ Str.concat (buffer l)
  /\ destroy (destroy l) = destroy l
  /\ (Forall alive events ->
      Z.of_nat (length (lines events)) < bufferSize l ->
      written (replay events (destroy l)) = written (destroy l)
      /\ buffer (replay events (destroy l)) = lines events).
Proof.
  assert (Hempty : buffer (destroy l) = []).
  { unfold destroy, flush. cbn. destruct (buffer l) eqn:E; [exact E|reflexivity]. }
  split; [exact Hempty|]. split; [reflexivity|]. split; [|split].
  - pose proof (output_flush l) as Ho. unfold output in Ho.
    unfold destroy. cbn [written]. rewrite <- Ho.
    unfold flush. destruct (buffer l) eqn:E; cbn [buffer]; [rewrite E|];
      cbn; now rewrite append_empty_r.
  - unfold destroy at 1. rewrite (flush_empty (destroy l)) by exact Hempty.
    reflexivity.
  - intros Halive Hfew.
    assert (Hc : bufferSize (destroy l) = bufferSize l).
    { unfold destroy. cbn. apply flush_fields. }
    assert (Hinv : written (replay events (destroy l)) = written (destroy l)
                   /\ buffer (replay events (destroy l)) = lines events
                   /\ flushInterval (replay events (destroy l)) = false).
    { induction events as [|e events IH] using rev_ind;
        [split; [reflexivity|split; [exact Hempty|reflexivity]]|].
      apply Forall_app in Halive as [Halive He]. inversion He as [|? ? He' _]; subst.
      rewrite lines_app, length_app in Hfew.
      destruct IH as (Hw & Hb & Hf); [assumption|lia|].
      rewrite replay_snoc, lines_app.
      destruct (replay_fields events (destroy l)) as [_ Hsize]. rewrite Hc in Hsize.
      destruct e as [now message error| |]; cbn [react].
      - change (lines [Logged now message error]) with [line now message error] in *.
        cbn [length] in Hfew. unfold log. cbn [bufferSize buffer].
        rewrite Hsize, Hb, length_app. cbn [length].
        destruct (_ <=? _) eqn:E; [apply Z.leb_le in E; lia|].
        cbn. repeat split; assumption.
      - change (lines [IntervalElapsed]) with (@nil string).
        unfold interval_elapsed. rewrite Hf, app_nil_r. repeat split; assumption.
      - contradiction He'. reflexivity. }
    destruct Hinv as (Hw & Hb & _). split; assumption.
Qed.

End LoggerLifeTheorems.

(** ** Magnitudes and units *)

(** A size or interval string whose magnitude is written with zeros
    only. *)
Module MagnitudeFacts.
Import Validator ValidatorFacts.

Lemma digit_value_bounds (a : ascii) :
  Str.is_digit a = true ->
  0 <= Str.digit_value a <= 9 /\ (Str.digit_value a = 0 <-> a = "0"%char).
Proof.
  unfold Str.is_digit, Str.digit_value. intros Hd.
  apply andb_true_iff in Hd as [Hlo Hhi].
  apply Nat.leb_le in Hlo. apply Nat.leb_le in Hhi.
  split; [lia|]. split.
  - intros Hz. assert (nat_of_ascii a = 48%nat) as E by lia.
    rewrite <- (ascii_nat_embedding a), E. reflexivity.
  - intros ->. reflexivity.
Qed.

(** On a string of digits [parseInt10] is not negative, and zero only
    when every digit is [0]. *)
Lemma parse_digits (l : list ascii) (acc : Z) :
  forallb Str.is_digit l = true -> 0 <= acc ->
  0 <= fold_left (fun acc a => 10 * acc + Str.digit_value a) l acc
  /\ (fold_left (fun acc a => 10 * acc + Str.digit_value a) l acc = 0
      <-> acc = 0 /\ forallb (Ascii.eqb "0") l = true).
Proof.
  revert acc. induction l as [|a l IH]; intros acc Hd Hacc; cbn [fold_left forallb].
  - split; [assumption|]. tauto.
  - cbn [forallb] in Hd. apply andb_true_iff in Hd as [Ha Hl].
    destruct (digit_value_bounds a Ha) as [Hb Hz].
    destruct (IH (10 * acc + Str.digit_value a) Hl ltac:(lia)) as [Hge Hiff].
    split; [assumption|]. rewrite Hiff. rewrite andb_true_iff. split.
    + intros [Hsum Hrest]. assert (acc = 0) by lia.
      assert (Str.digit_value a = 0) as Hv by lia. apply Hz in Hv. subst a.
      repeat split; assumption.
    + intros (-> & Ha0 & Hrest). apply Ascii.eqb_eq in Ha0.
      assert (a = "0"%char) as -> by (symmetry; exact Ha0).
      split; [reflexivity|assumption].
Qed.

Lemma parseInt10_nonpositive (num : string) :
  Str.all_digits num = true ->
  (parseInt10 num <= 0 <-> forallb (Ascii.eqb "0") (list_ascii_of_string num) = true).
Proof.
  intros Hd. unfold parseInt10.
  destruct (parse_digits (list_ascii_of_string num) 0 Hd ltac:(lia)) as [Hge Hiff].
  split.
  - intros Hle. apply Hiff. lia.
  - intros Hz. assert (fold_left (fun acc a => 10 * acc + Str.digit_value a)
                                  (list_ascii_of_string num) 0 = 0) as ->
      by (apply Hiff; now split). lia.
Qed.

Lemma zeros_are_digits (l : list ascii) :
  forallb (Ascii.eqb "0") l = true -> forallb Str.is_digit l = true.
Proof.
  induction l as [|a l IH]; [reflexivity|]. cbn [forallb]. intros Hz.
  apply andb_true_iff in Hz as [Ha Hl]. apply Ascii.eqb_eq in Ha. subst a.
  now rewrite IH.
Qed.

Lemma append_inj_l (p a b : string) : p ++ a = p ++ b -> a = b.
Proof.
  induction p as [|x p IH]; [trivial|].
  intros E. injection E as E. now apply IH.
Qed.

Lemma snoc_inj (a b : string) (x y : ascii) :
  a ++ String x EmptyString = b ++ String y EmptyString -> a = b /\ x = y.
Proof.
  intros E. pose proof (unsnoc_app a x) as Ha. rewrite E, unsnoc_app in Ha.
  injection Ha as -> ->. now split.
Qed.

End MagnitudeFacts.

Section MagnitudeTheorems.
Import Validator ValidatorFacts MagnitudeFacts.

(** X4. [validateSize] throws its "must be positive" error exactly for a
    non-empty run of zeros followed by a unit letter, and
    [validateInterval] likewise; a magnitude with a sign, a decimal
    point or any other character that is not a digit gets the format
    error instead. *)
Theorem positivity_error_only_for_zeros :
  (forall size : string,
      validateSize size = Throw (Error ("Size must be positive: " ++ size))
      <-> zero_magnitude storage_units size)
  /\ (forall interval : string,
        validateInterval interval
        = Throw (Error ("Interval must be positive: " ++ interval))
        <-> zero_magnitude time_units interval).
Proof.
  split.
  - intros size. unfold validateSize, zero_magnitude. split.
    + destruct (exec_num_unit storage_units size) as [[num unit]|] eqn:E;
        [|intros [=]].
      apply exec_num_unit_some in E as (-> & Hne & Hd & Hu).
      destruct (parseInt10 num <=? 0) eqn:Hp.
      * intros _. apply Z.leb_le in Hp. exists num, unit.
        repeat split; try assumption. now apply parseInt10_nonpositive.
      * rewrite sizeUnits_truthy by assumption. discriminate.
    + intros (zeros & unit & -> & Hne & Hz & Hu).
      assert (E : exec_num_unit storage_units (zeros ++ String unit EmptyString)
                  = Some (zeros, unit)).
      { apply exec_num_unit_some. repeat split; try assumption.
        now apply zeros_are_digits. }
      rewrite E.
      assert (Hp : (parseInt10 zeros <=? 0) = true).
      { apply Z.leb_le, parseInt10_nonpositive; [now apply zeros_are_digits|assumption]. }
      now rewrite Hp.
  - intros interval. unfold validateInterval, zero_magnitude. split.
    + destruct (exec_num_unit time_units interval) as [[num unit]|] eqn:E;
        [|intros [=]].
      apply exec_num_unit_some in E as (-> & Hne & Hd & Hu).
      destruct (parseInt10 num <=? 0) eqn:Hp.
      * intros _. apply Z.leb_le in Hp. exists num, unit.
        repeat split; try assumption. now apply parseInt10_nonpositive.
      * rewrite timeUnits_truthy by assumption. discriminate.
    + intros (zeros & unit & -> & Hne & Hz & Hu).
      assert (E : exec_num_unit time_units (zeros ++ String unit EmptyString)
                  = Some (zeros, unit)).
      { apply exec_num_unit_some. repeat split; try assumption.
        now apply zeros_are_digits. }
      rewrite E.
      assert (Hp : (parseInt10 zeros <=? 0) = true).
      { apply Z.leb_le, parseInt10_nonpositive; [now apply zeros_are_digits|assumption]. }
      now rewrite Hp.
Qed.

(** X5. A string passes both [validateSize] and [validateInterval]
    exactly when it is a positive magnitude followed by [M], the one
    letter that is both a size unit and a time unit. *)
Theorem size_and_interval_share_only_M (s : string) :
  validateSize s = Ok tt /\ validateInterval s = Ok tt
  <-> well_formed ["M"%char] s.
Proof.
  rewrite validateSize_ok_iff, validateInterval_ok_iff. unfold well_formed. split.
  - intros [(num & unit & -> & Hne & Hd & Hp & Hu) (num' & unit' & E & _ & _ & _ & Hu')].
    apply snoc_inj in E as [<- <-].
    exists num, unit. repeat split; try assumption.
    cbn in Hu, Hu'. cbn.
    destruct Hu as [<-|[<-|[<-|[<-|[]]]]];
      destruct Hu' as [E|[E|[E|[E|[E|[]]]]]]; try discriminate E; tauto.
  - intros (num & unit & -> & Hne & Hd & Hp & [<-|[]]).
    split; exists num, "M"%char; repeat split; try assumption; cbn; tauto.
Qed.

End MagnitudeTheorems.

(** ** Sanitized timestamps *)

(** A character of a sanitized timestamp: a letter, a digit or a
    hyphen. *)
(** No two hyphens in a row. *)
(** None of the characters the [iso] format strips or cuts at. *)
Module SanitizeFacts.
Import Generator.

Lemma all_chars_cons (p : ascii -> bool) (a : ascii) (s : string) :
  all_chars p (String a s) = p a && all_chars p s.
Proof. reflexivity. Qed.

Lemma hyphenate_name_chars (s : string) : all_chars name_char (hyphenate s) = true.
Proof.
  induction s as [|a s IH]; [reflexivity|].
  cbn [hyphenate]. rewrite all_chars_cons, IH, andb_true_r.
  unfold name_char. destruct (is_alnum a) eqn:E; [now rewrite E|reflexivity].
Qed.

Lemma collapse_cons (a : ascii) (s : string) :
  collapse_hyphens (String a s)
  = if Ascii.eqb a "-"
    then match s with
         | String b _ =>
             if Ascii.eqb b "-" then collapse_hyphens s
             else String a (collapse_hyphens s)
         | EmptyString => String a EmptyString
         end
    else String a (collapse_hyphens s).
Proof. reflexivity. Qed.

Lemma collapse_all_chars (p : ascii -> bool) (s : string) :
  all_chars p s = true -> all_chars p (collapse_hyphens s) = true.
Proof.
  induction s as [|a s IH]; [trivial|].
  rewrite all_chars_cons. intros Ha. apply andb_true_iff in Ha as [Ha Hs].
  specialize (IH Hs). rewrite collapse_cons.
  destruct (Ascii.eqb a "-").
  - destruct s as [|b r]; [now rewrite all_chars_cons, Ha|].
    destruct (Ascii.eqb b "-"); [exact IH|].
    now rewrite all_chars_cons, Ha, IH.
  - now rewrite all_chars_cons, Ha, IH.
Qed.

(** [collapse_hyphens] keeps the first character. *)
Lemma collapse_head (b : ascii) (r : string) :
  exists r', collapse_hyphens (String b r) = String b r'.
Proof.
  revert b. induction r as [|c r IH]; intros b.
  - rewrite collapse_cons. destruct (Ascii.eqb b "-"); eauto.
  - rewrite collapse_cons. destruct (Ascii.eqb b "-") eqn:Eb; [|eauto].
    destruct (Ascii.eqb c "-") eqn:Ec; [|eauto].
    apply Ascii.eqb_eq in Eb, Ec. subst. apply IH.
Qed.

Lemma single_hyphens_cons (a b : ascii) (r : string) :
  single_hyphens (String a (String b r))
  = negb (Ascii.eqb a "-" && Ascii.eqb b "-") && single_hyphens (String b r).
Proof. reflexivity. Qed.

Lemma collapse_single_hyphens (s : string) :
  single_hyphens (collapse_hyphens s) = true.
Proof.
  induction s as [|a s IH]; [reflexivity|].
  rewrite collapse_cons. destruct s as [|b r].
  - destruct (Ascii.eqb a "-"); reflexivity.
  - destruct (collapse_head b r) as [r' Hr].
    destruct (Ascii.eqb a "-") eqn:Ea.
    + destruct (Ascii.eqb b "-") eqn:Eb; [exact IH|].
      rewrite Hr in *. rewrite single_hyphens_cons, Ea, Eb, IH. reflexivity.
    + rewrite Hr in *. rewrite single_hyphens_cons, Ea, IH. reflexivity.
Qed.

Lemma name_char_not_space (a : ascii) : name_char a = true -> is_space a = false.
Proof.
  unfold name_char, is_alnum, is_space. intros Hn.
  apply orb_true_iff in Hn as [Hn|Hn].
  - repeat (apply orb_true_iff in Hn as [Hn|Hn]);
      apply andb_true_iff in Hn as [Hlo _]; apply Nat.leb_le in Hlo;
      apply orb_false_iff; split;
      [apply andb_false_iff; right; apply Nat.leb_gt; lia|apply Nat.eqb_neq; lia
      |apply andb_false_iff; right; apply Nat.leb_gt; lia|apply Nat.eqb_neq; lia
      |apply andb_false_iff; right; apply Nat.leb_gt; lia|apply Nat.eqb_neq; lia].
  - apply Ascii.eqb_eq in Hn. subst a. reflexivity.
Qed.

Lemma trim_start_name_chars (s : string) :
  all_chars name_char s = true -> trim_start s = s.
Proof.
  destruct s as [|a s]; [reflexivity|].
  rewrite all_chars_cons. intros Ha. apply andb_true_iff in Ha as [Ha _].
  cbn [trim_start]. now rewrite (name_char_not_space a Ha).
Qed.

Lemma rev_rev (s : string) : Str.rev (Str.rev s) = s.
Proof.
  unfold Str.rev. rewrite list_ascii_of_string_of_list_ascii, List.rev_involutive.
  apply string_of_list_ascii_of_string.
Qed.

Lemma all_chars_rev (p : ascii -> bool) (s : string) :
  all_chars p s = true -> all_chars p (Str.rev s) = true.
Proof.
  unfold all_chars, Str.rev. rewrite list_ascii_of_string_of_list_ascii.
  rewrite !forallb_forall. intros Hall a Hin. apply Hall. now apply in_rev.
Qed.

(** On a string of letters, digits and hyphens [trim] changes
    nothing. *)
Lemma trim_name_chars (s : string) : all_chars name_char s = true -> trim s = s.
Proof.
  intros Hs. unfold trim. rewrite (trim_start_name_chars s Hs).
  rewrite (trim_start_name_chars (Str.rev s)) by now apply all_chars_rev.
  apply rev_rev.
Qed.

Lemma strip_no_separators (s : string) :
  all_chars (fun a => negb (Ascii.eqb a "-" || Ascii.eqb a ":" || Ascii.eqb a "T"))
            (strip_separators s) = true.
Proof.
  induction s as [|a s IH]; [reflexivity|].
  cbn [strip_separators].
  destruct (Ascii.eqb a "-" || Ascii.eqb a ":" || Ascii.eqb a "T")%char eqn:E; [exact IH|].
  rewrite all_chars_cons, IH, andb_true_r.
  change ((a =? "-")%char || (a =? ":")%char || (a =? "T")%char) with
    ((Ascii.eqb a "-" || Ascii.eqb a ":" || Ascii.eqb a "T")%char).
  now rewrite E.
Qed.

Lemma before_dot_no_separator (s : string) :
  all_chars (fun a => negb (Ascii.eqb a "-" || Ascii.eqb a ":" || Ascii.eqb a "T")) s = true ->
  all_chars no_separator (before_dot s) = true.
Proof.
  induction s as [|a s IH]; [trivial|].
  rewrite all_chars_cons. intros Ha. apply andb_true_iff in Ha as [Ha Hs].
  cbn [before_dot]. destruct (Ascii.eqb a ".") eqn:E; [reflexivity|].
  rewrite all_chars_cons, (IH Hs), andb_true_r.
  unfold no_separator. apply negb_true_iff in Ha. rewrite Ha, E. reflexivity.
Qed.

End SanitizeFacts.

Section SanitizeTheorems.
Import Generator SanitizeFacts.
Context `{Platform}.

(** X6. Whatever text the runtime renders a date as, the timestamp of
    the [utc] and [rfc2822] formats is made of letters, digits and
    hyphens only, never has two hyphens in a row, and is left as it is
    by the final [trim]; the timestamp of the [iso] format, and of any
    format name the switch does not know, holds no hyphen, colon, [T]
    or dot. *)
Theorem timestamps_are_sanitized (timestampFormat : string) (ms : Z) :
  (timestampFormat = "utc" \/ timestampFormat = "rfc2822" ->
     all_chars name_char (timestamp timestampFormat ms) = true
     /\ single_hyphens (timestamp timestampFormat ms) = true
     /\ (timestampFormat = "utc" ->
           timestamp timestampFormat ms = collapse_hyphens (hyphenate (toUTCString ms)))
     /\ (timestampFormat = "rfc2822" ->
           timestamp timestampFormat ms
           = collapse_hyphens (hyphenate (toLocalString ms))))
  /\ (~ In timestampFormat ["unix"; "utc"; "rfc2822"; "epoch"] ->
        all_chars no_separator (timestamp timestampFormat ms) = true).
Proof.
  assert (Hclean : forall text,
             all_chars name_char (collapse_hyphens (hyphenate text)) = true).
  { intros text. apply collapse_all_chars, hyphenate_name_chars. }
  split.
  - intros [-> | ->]; unfold timestamp; cbn [String.eqb Ascii.eqb Bool.eqb];
      rewrite trim_name_chars by apply Hclean;
      (split; [apply Hclean|split; [apply collapse_single_hyphens|]]);
      split; intros E; try reflexivity; discriminate E.
  - intros Hnot. unfold timestamp.
    assert (Hiso : all_chars no_separator
                     (before_dot (strip_separators (toISOString ms))) = true)
      by apply before_dot_no_separator, strip_no_separators.
    destruct (String.eqb timestampFormat "iso"); [exact Hiso|].
    destruct (String.eqb timestampFormat "unix") eqn:E1;
      [apply String.eqb_eq in E1; subst; exfalso; apply Hnot; cbn; tauto|].
    destruct (String.eqb timestampFormat "utc") eqn:E2;
      [apply String.eqb_eq in E2; subst; exfalso; apply Hnot; cbn; tauto|].
    destruct (String.eqb timestampFormat "rfc2822") eqn:E3;
      [apply String.eqb_eq in E3; subst; exfalso; apply Hnot; cbn; tauto|].
    destruct (String.eqb timestampFormat "epoch") eqn:E4;
      [apply String.eqb_eq in E4; subst; exfalso; apply Hnot; cbn; tauto|].
    exact Hiso.
Qed.

End SanitizeTheorems.

(** ** Names of rotated files *)

Module NameFacts.
Import Generator GeneratorFacts CompressionFacts LoggerLifeFacts MagnitudeFacts SanitizeFacts.

Lemma slice0_app_long (n : nat) (a b : string) :
  (n <= String.length a)%nat -> Str.slice0 n (a ++ b) = Str.slice0 n a.
Proof.
  revert a. induction n as [|n IH]; intros a Hn; [reflexivity|].
  destruct a as [|x a]; [cbn in Hn; lia|].
  change (String x (Str.slice0 n (a ++ b)) = String x (Str.slice0 n a)).
  rewrite IH; [reflexivity|cbn in Hn; lia].
Qed.

Lemma slice0_app_short (n : nat) (a b : string) :
  (String.length a <= n)%nat ->
  Str.slice0 n (a ++ b) = a ++ Str.slice0 (n - String.length a) b.
Proof.
  revert n. induction a as [|x a IH]; intros n Hn.
  - cbn. now rewrite Nat.sub_0_r.
  - destruct n as [|n]; [cbn in Hn; lia|].
    change (String x (Str.slice0 n (a ++ b))
            = String x (a ++ Str.slice0 (n - String.length a) b)).
    rewrite IH; [reflexivity|cbn in Hn; lia].
Qed.


Lemma string_of_list_app (l1 l2 : list ascii) :
  string_of_list_ascii (l1 ++ l2) = string_of_list_ascii l1 ++ string_of_list_ascii l2.
Proof.
  induction l1 as [|x l1 IH]; [reflexivity|].
  cbn [app string_of_list_ascii].
  change (String x (string_of_list_ascii (l1 ++ l2))
          = String x (string_of_list_ascii l1 ++ string_of_list_ascii l2)).
  now rewrite IH.
Qed.

Lemma rev_app (a b : string) : Str.rev (a ++ b) = Str.rev b ++ Str.rev a.
Proof.
  unfold Str.rev. rewrite Decimal.list_ascii_app, List.rev_app_distr.
  apply string_of_list_app.
Qed.


Lemma append_inj_r (a b s : string) : a ++ s = b ++ s -> a = b.
Proof.
  intros E. apply (f_equal Str.rev) in E. rewrite !rev_app in E.
  apply append_inj_l in E. apply (f_equal Str.rev) in E.
  now rewrite !rev_rev in E.
Qed.


End NameFacts.

Section NameTheorems.
Import Generator GeneratorFacts CompressionFacts LoggerLifeFacts MagnitudeFacts NameFacts.
Context `{Platform}.

(** X7. When the base name alone has 200 characters or more, the cut at
    200 removes the whole timestamp: every rotated file gets the same
    path, the directory joined with the first 200 characters of the
    base name, whatever the instant and the format. *)
Theorem long_base_name_hides_the_timestamp
    (time : TimeArg) (dir filename timestampFormat : string) :
  Generator.falsy time = false ->
  (200 <= String.length filename)%nat ->
  generator time dir filename timestampFormat = join dir (Str.slice0 200 filename).
Proof.
  intros Hp Hlong. rewrite generator_present by assumption.
  rewrite truncate_slice0. now rewrite slice0_app_long.
Qed.


(** X9. The name of a rotated file is never the name of the live file:
    for every present instant the name handed to [join] differs from
    [baseName.log], cut or not. *)
Theorem rotated_name_is_not_the_live_name
    (time : TimeArg) (dir filename timestampFormat : string) :
  Generator.falsy time = false ->
  exists name : string,
    generator time dir filename timestampFormat = join dir name
    /\ name <> filename ++ ".log".
Proof.
  intros Hp. eexists. split; [now apply generator_present|].
  rewrite truncate_slice0.
  destruct (le_lt_dec 200 (String.length filename)) as [Hlong|Hshort].
  - intros E. apply (f_equal String.length) in E.
    pose proof (length_slice0 200
                  (filename ++ "-" ++ timestamp timestampFormat (getTime time) ++ ".log")).
    rewrite length_append in E. cbn [String.length] in E. lia.
  - rewrite slice0_app_short by lia.
    intros E. apply append_inj_l in E.
    destruct (200 - String.length filename)%nat as [|n] eqn:En; [lia|].
    discriminate E.
Qed.

(** X10. With the [unix] format two instants that differ give names that
    differ, as long as neither name is longer than 200 characters. *)
Theorem unix_names_do_not_collide
    (time1 time2 : TimeArg) (filename : string) :
  let name := fun time => filename ++ "-" ++ timestamp "unix" (getTime time) ++ ".log" in
  (String.length (name time1) <= 200)%nat ->
  (String.length (name time2) <= 200)%nat ->
  truncate (name time1) = truncate (name time2) ->
  getTime time1 = getTime time2.
Proof.
  intros name H1 H2. rewrite !truncate_slice0, !slice0_short by assumption.
  subst name. cbv beta. intros E.
  apply append_inj_l in E. apply (append_inj_l "-") in E.
  apply append_inj_r in E. unfold timestamp in E. cbn [String.eqb Ascii.eqb Bool.eqb] in E.
  now apply pretty_Z_inj in E.
Qed.

End NameTheorems.

(** ** The workers on the file system *)

Module WorkerFacts.
Import CompressionFacts RetentionFacts TransportFacts.

Section WithPlatform.
Context `{Platform}.


Lemma sweep_not_directory (dir filename : string) (retentionDays : Z) (s : State) :
  (forall m, fs s !! dir <> Some (Directory m)) ->
  fs (snd (cleanupOldFiles dir filename retentionDays s)) = fs s.
Proof.
  intros Hdir.
  unfold cleanupOldFiles, sweep, try_catch, readdir, date_now, log, mbind, io_bind.
  destruct (fs s !! dir) as [[c m|m]|] eqn:E; [reflexivity| |reflexivity].
  exfalso. now apply (Hdir m).
Qed.

(** After a sweep a path holds what it held, or nothing when it held an
    expired file that the sweep listed. *)
Lemma cleanupOldFiles_lookup (dir filename : string) (retentionDays : Z) (s : State)
    (p : string) :
  let cutoff := now s - retentionDays * 24 * 60 * 60 * 1000 in
  let s' := snd (cleanupOldFiles dir filename retentionDays s) in
  fs s' !! p = fs s !! p
  \/ (fs s' !! p = None
      /\ expired cutoff (fs s !! p) = true
      /\ listed dir (filter (is_log_of filename) (children dir (fs s))) p = true
      /\ exists m, fs s !! dir = Some (Directory m)).
Proof.
  intros cutoff s'. subst s'.
  destruct (fs s !! dir) as [[c m|m]|] eqn:E.
  - left. rewrite sweep_not_directory; [reflexivity|]. intros m' E'. congruence.
  - pose proof (cleanupOldFiles_state dir filename retentionDays s m E p) as Hp.
    cbv zeta in Hp. fold cutoff in Hp.
    destruct (listed dir _ p) eqn:Hl; [|left; exact Hp].
    destruct (expired cutoff (fs s !! p)) eqn:Hx; [|left; exact Hp].
    right. repeat split; eauto.
  - left. rewrite sweep_not_directory; [reflexivity|]. intros m' E'. congruence.
Qed.

Lemma expired_monotone (c1 c2 : Z) (n : option Node) :
  c1 <= c2 -> expired c1 n = true -> expired c2 n = true.
Proof.
  destruct n as [[c m|m]|]; cbn; try discriminate.
  intros Hle Hx. apply Z.ltb_lt in Hx. apply Z.ltb_lt. lia.
Qed.

End WithPlatform.
End WorkerFacts.

Section WorkerTheorems.
Import CompressionFacts RetentionFacts TransportFacts WorkerFacts.
Context `{Platform}.

(** X11. A call of [compressFile] that nothing interrupts, for any
    source and destination.  On a source that is a file it throws what
    [createGzip] throws when zlib rejects the options, the error of
    opening the destination when the destination is a directory, and
    the same when the destination has no directory to be created in;
    in each of these cases the files are as they were.  It never
    changes a path other than the source and the destination, and when
    the source is not a file it returns and changes no path at all.
    It has no guard against a destination equal to the source: called so
    on a file it returns normally and the file is gone. *)
Theorem compressFile_failure_and_frame
    (src dest : string) (options : ZlibOptions) (s : State) :
  let result := compressFile src dest options s in
  (forall (content : string) (mtime : Z),
      fs s !! src = Some (File content mtime) ->
      (forall e : JsError,
          createGzip options = Throw e ->
          fst result = Throw e /\ fs (snd result) = fs s)
      /\ (forall (gz : string -> string) (m : Z),
            createGzip options = Ok gz ->
            fs s !! dest = Some (Directory m) ->
            fst result = Throw (SystemError "EISDIR" "open" dest)
            /\ fs (snd result) = fs s)
      /\ (forall gz : string -> string,
            createGzip options = Ok gz ->
            fs s !! dest = None ->
            fs s !! dirname dest = None ->
            fst result = Throw (SystemError "ENOENT" "open" dest)
            /\ fs (snd result) = fs s))
  /\ (forall p : string, p <> src -> p <> dest -> fs (snd result) !! p = fs s !! p)
  /\ ((forall content mtime, fs s !! src <> Some (File content mtime)) ->
        fst result = Ok tt /\ fs (snd result) = fs s)
  /\ (forall (content : string) (mtime parent : Z) (gz : string -> string),
        dest = src -> fs s !! src = Some (File content mtime) ->
        createGzip options = Ok gz ->
        fs s !! dirname src = Some (Directory parent) ->
        fst result = Ok tt /\ fs (snd result) !! src = None).
Proof.
  intros result. subst result. repeat apply conj.
  - intros content mtime Hsrc. repeat apply conj.
    + intros e Hgz.
      rewrite (compressFile_rejected_options _ _ _ _ content mtime e) by assumption.
      split; reflexivity.
    + intros gz m Hgz Hdest.
      rewrite (compressFile_dest_directory _ _ _ _ content mtime m gz) by assumption.
      split; reflexivity.
    + intros gz Hgz Hdest Hparent.
      rewrite (compressFile_unopened _ _ _ _ content mtime gz
                 (SystemError "ENOENT" "open" dest))
        by (try assumption; now apply open_for_writing_no_directory).
      split; reflexivity.
  - intros p Hp1 Hp2.
    destruct (compressFile_cases src dest options s)
      as [(c & m & gz & _ & _ & _ & E)|[(c & m & e & _ & _ & E)|(_ & _ & E)]].
    + rewrite E. cbn [snd fs set_fs]. rewrite lookup_delete_ne by congruence.
      apply lookup_insert_ne. congruence.
    + rewrite E. reflexivity.
    + now rewrite E.
  - intros Hnot.
    destruct (compressFile_cases src dest options s)
      as [(c & m & gz & Hs & _)|[(c & m & e & Hs & _)|(_ & Hok & E)]].
    + exfalso. now apply (Hnot c m).
    + exfalso. now apply (Hnot c m).
    + now split.
  - intros content mtime parent gz -> Hsrc Hgz Hparent.
    rewrite (compressFile_file_any src src options s content mtime gz);
      [split; [reflexivity|apply lookup_delete_eq]|assumption|assumption|].
    apply (open_for_writing_ok _ _ parent); [|assumption].
    intros m E. congruence.
Qed.

(** X12. A retention sweep only removes: every path that holds
    something afterwards held the same before, a path that lost its
    content held a file older than the cutoff, and a directory is never
    removed.  The sweep leaves the clock, the ledger of compressed files
    and its timeouts as they were. *)
Theorem retention_sweep_only_removes
    (dir filename : string) (retentionDays : Z) (s : State) :
  let cutoff := now s - retentionDays * (24 * 60 * 60 * 1000) in
  let s' := snd (cleanupOldFiles dir filename retentionDays s) in
  fs s' ⊆ fs s
  /\ (forall p : string, fs s' !! p <> fs s !! p ->
        fs s' !! p = None
        /\ exists content mtime, fs s !! p = Some (File content mtime) /\ mtime < cutoff)
  /\ (forall (p : string) (mtime : Z),
        fs s !! p = Some (Directory mtime) -> fs s' !! p = Some (Directory mtime))
  /\ now s' = now s
  /\ compressedFiles s' = compressedFiles s
  /\ timeouts s' = timeouts s.
Proof.
  intros cutoff s'.
  assert (Hc : now s - retentionDays * 24 * 60 * 60 * 1000 = cutoff)
    by (subst cutoff; lia).
  assert (Hl : forall p, fs s' !! p = fs s !! p
                         \/ (fs s' !! p = None /\ expired cutoff (fs s !! p) = true)).
  { intros p. destruct (cleanupOldFiles_lookup dir filename retentionDays s p)
      as [E|(E & Hx & _)]; [now left|]. right. rewrite Hc in Hx. now split. }
  split; [|split; [|split]].
  - apply map_subseteq_spec. intros p x Hp.
    destruct (Hl p) as [E|[E _]]; congruence.
  - intros p Hne. destruct (Hl p) as [E|[E Hx]]; [contradiction|].
    split; [assumption|].
    destruct (fs s !! p) as [[content mtime|mtime]|]; try discriminate.
    exists content, mtime. split; [reflexivity|]. now apply Z.ltb_lt.
  - intros p mtime Hp. destruct (Hl p) as [E|[_ Hx]]; [congruence|].
    rewrite Hp in Hx. discriminate.
  - destruct (cleanupOldFiles_same_ledger dir filename retentionDays s) as (A & B & C).
    repeat split; assumption.
Qed.

(** X13. Sweeping twice in a row without the clock or the files
    changing in between removes nothing more than sweeping once. *)
Theorem retention_sweep_is_idempotent
    (dir filename : string) (retentionDays : Z) (s : State) :
  let once := snd (cleanupOldFiles dir filename retentionDays s) in
  fs (snd (cleanupOldFiles dir filename retentionDays once)) = fs once.
Proof.
  intros once. apply map_eq. intros p.
  destruct (cleanupOldFiles_lookup dir filename retentionDays once p)
    as [E|(E & Hx & Hl & m & Hdir)]; [exact E|]. exfalso.
  destruct (cleanupOldFiles_same_ledger dir filename retentionDays s) as (_ & _ & Hnow).
  fold once in Hnow. rewrite Hnow in Hx.
  assert (Hswept : swept dir filename (now s - retentionDays * 24 * 60 * 60 * 1000)
                         (fs once) p).
  { apply listed_expired_swept. now rewrite Hl, Hx. }
  destruct Hswept as (content & mtime & Hf & Hj & Hlog & Hold).
  assert (Hp0 : fs s !! p = Some (File content mtime)).
  { destruct (cleanupOldFiles_lookup dir filename retentionDays s p)
      as [E1|(E1 & _)]; fold once in E1; congruence. }
  assert (Hdir0 : fs s !! dir = Some (Directory m)).
  { destruct (cleanupOldFiles_lookup dir filename retentionDays s dir)
      as [E1|(E1 & _)]; fold once in E1; congruence. }
  pose proof (cleanupOldFiles_state dir filename retentionDays s m Hdir0 p) as Hp.
  cbv zeta in Hp. fold once in Hp.
  assert (Hswept0 : swept dir filename (now s - retentionDays * 24 * 60 * 60 * 1000)
                          (fs s) p).
  { exists content, mtime. repeat split; assumption. }
  apply listed_expired_swept in Hswept0. rewrite Hswept0 in Hp. congruence.
Qed.

(** X14. A longer retention keeps at least as much: every path that
    survives a sweep with [retentionDays] at [r1] survives, with the
    same content, the sweep of the same state with a larger [r2]. *)
Theorem longer_retention_keeps_more
    (dir filename : string) (r1 r2 : Z) (s : State) :
  r1 <= r2 ->
  fs (snd (cleanupOldFiles dir filename r1 s))
  ⊆ fs (snd (cleanupOldFiles dir filename r2 s)).
Proof.
  intros Hr. apply map_subseteq_spec. intros p x Hp.
  destruct (cleanupOldFiles_lookup dir filename r2 s p)
    as [E|(_ & Hx & Hl & m & Hdir)].
  - rewrite E. destruct (cleanupOldFiles_lookup dir filename r1 s p)
      as [E1|(E1 & _)]; congruence.
  - exfalso.
    pose proof (cleanupOldFiles_state dir filename r1 s m Hdir p) as Hp1.
    cbv zeta in Hp1. rewrite Hl in Hp1.
    rewrite (expired_monotone (now s - r2 * 24 * 60 * 60 * 1000)
               (now s - r1 * 24 * 60 * 60 * 1000)) in Hp1 by (try assumption; lia).
    cbn in Hp1. congruence.
Qed.

End WorkerTheorems.

(** ** The listener and its ledger *)

Module ListenerFacts.
Import CompressionFacts RetentionFacts TransportFacts WorkerFacts.

Section WithPlatform.
Context `{Platform}.

Lemma filter_none_left {A : Type} (f : A -> bool) (l : list A) :
  (forall x, In x l -> f x = true) -> List.filter (fun x => negb (f x)) l = [].
Proof.
  induction l as [|x l IH]; intros Hall; [reflexivity|].
  cbn [List.filter]. rewrite (Hall x) by now left. cbn [negb].
  apply IH. intros y Hy. apply Hall. now right.
Qed.



End WithPlatform.
End ListenerFacts.

Section ListenerTheorems.
Import CompressionFacts RetentionFacts TransportFacts WorkerFacts ListenerFacts.
Context `{Platform}.


(** X16. The ledger is a cache of the last 24 hours.  In every world the
    transport can reach, through any interleaving of notifications,
    steps of listeners, clock advances, sweeps, flushes and changes of
    the files, an entry of [compressedFiles] is younger than 24 hours,
    and once the clock has moved 24 hours on, the ledger is empty and no
    timeout is pending. *)
Theorem ledger_holds_only_the_last_day
    (options : ZlibOptions) (events : list Event)
    (files : gmap string Node) (clock : Z) (logger : ErrorLogger.t) :
  let s := transport (run_events options events (start files clock logger)) in
  (forall (p : string) (t : Z),
      compressedFiles s !! p = Some t -> now s - 24 * 60 * 60 * 1000 < t <= now s)
  /\ (forall t' : Z,
        now s + 24 * 60 * 60 * 1000 <= t' ->
        compressedFiles (advance t' s) = ∅ /\ timeouts (advance t' s) = []).
Proof.
  intros s.
  assert (Hinv : ledger_invariant s) by apply run_events_invariant, start_invariant.
  destruct Hinv as [I1 I2]. pose proof MAX_COMPRESSION_AGE_is_24h as HM. split.
  - intros p t Hp. pose proof (I1 _ _ (I2 p t Hp)). lia.
  - intros t' Ht'.
    assert (Hdue : forall x, In x (timeouts s) -> due (Z.max t' (now s)) x = true).
    { intros [d p] Hin. unfold due. cbn. apply Z.leb_le.
      specialize (I1 d p Hin). lia. }
    split.
    + apply map_eq. intros p. rewrite lookup_empty, advance_lookup.
      destruct (existsb _ (timeouts s)) eqn:Ex; [reflexivity|].
      destruct (compressedFiles s !! p) as [t|] eqn:Hp; [|reflexivity]. exfalso.
      apply not_true_iff_false in Ex. apply Ex. apply existsb_exists.
      exists (t + MAX_COMPRESSION_AGE, p). split; [now apply I2|].
      rewrite (Hdue _ (I2 p t Hp)). cbn. apply String.eqb_refl.
    + unfold advance. cbn [timeouts]. now apply filter_none_left.
Qed.

(** X17. Compression renews the age that the retention sweep looks at:
    the [.gz] file that [compressFile] writes at time [t] carries that
    time, and it survives every sweep run, with no other change to it,
    before [t] plus the retention period, however old the rotated file
    was.  This holds for a call of [compressFile] read in one piece, and
    for the file as it is when the pipeline of a call taken [await] by
    [await] has settled. *)
Theorem compressed_file_is_kept_for_the_retention_period
    (options : ZlibOptions) (src content : string) (mtime parent : Z)
    (gz : string -> string) (s : State)
    (dir filename : string) (retentionDays t' : Z) :
  fs s !! src = Some (File content mtime) ->
  createGzip options = Ok gz ->
  fs s !! dirname (src ++ ".gz") = Some (Directory parent) ->
  (forall m, fs s !! (src ++ ".gz") <> Some (Directory m)) ->
  0 <= retentionDays ->
  t' <= now s + retentionDays * (24 * 60 * 60 * 1000) ->
  let s1 := advance t' (snd (compressFile src (src ++ ".gz") options s)) in
  let s2 := advance t' (snd (compressFile_resume src (src ++ ".gz") options
                                                 (Pipeline gz) s)) in
  fs (snd (cleanupOldFiles dir filename retentionDays s1)) !! (src ++ ".gz")
  = Some (File (gz content) (now s))
  /\ fs (snd (cleanupOldFiles dir filename retentionDays s2)) !! (src ++ ".gz")
     = Some (File (gz content) (now s)).
Proof.
  intros Hfs Hgz Hparent Hdest Hr Ht' s1 s2.
  assert (Hkept : forall s' : State,
             fs s' !! (src ++ ".gz") = Some (File (gz content) (now s)) ->
             now s' = Z.max t' (now s) ->
             fs (snd (cleanupOldFiles dir filename retentionDays s')) !! (src ++ ".gz")
             = Some (File (gz content) (now s))).
  { intros s' Hfile Hnow.
    destruct (cleanupOldFiles_lookup dir filename retentionDays s' (src ++ ".gz"))
      as [E|(_ & Hx & _)]; [congruence|].
    rewrite Hfile in Hx. unfold expired in Hx. apply Z.ltb_lt in Hx.
    rewrite Hnow in Hx. lia. }
  split; apply Hkept.
  - subst s1. rewrite (compressFile_file _ _ _ _ content mtime parent gz) by assumption.
    cbn [snd advance fs now set_fs].
    rewrite lookup_delete_ne by apply gz_sibling_differs. apply lookup_insert_eq.
  - subst s1. now rewrite (compressFile_file _ _ _ _ content mtime parent gz) by assumption.
  - subst s2. rewrite compressFile_resume_pipeline. unfold Fs.pipelineAsync.
    rewrite (open_for_writing_ok _ _ parent) by assumption.
    unfold Fs.read_all. rewrite Hfs.
    cbn [snd advance fs now set_fs]. apply lookup_insert_eq.
  - subst s2. rewrite compressFile_resume_pipeline. unfold Fs.pipelineAsync.
    rewrite (open_for_writing_ok _ _ parent) by assumption.
    unfold Fs.read_all. now rewrite Hfs.
Qed.

End ListenerTheorems.

(** ** Construction and shutdown *)

(** The [dir] option is absent or empty. *)
Section ConstructionTheorems.
Import ErrorLogger ErrorLoggerFacts LoggerLife LoggerLifeFacts
       CompressionFacts RetentionFacts TransportFacts WorkerFacts.
Context `{Platform}.

Lemma construction_sweep (dir filename : string) (retentionDays : Z) (s0 : State) :
  (if 0 <? retentionDays
   then cleanupOldFiles dir filename retentionDays;; mret true
   else mret false) s0
  = (Ok (0 <? retentionDays),
     if 0 <? retentionDays
     then snd (cleanupOldFiles dir filename retentionDays s0) else s0).
Proof.
  destruct (0 <? retentionDays); [|reflexivity].
  unfold mbind, io_bind.
  pose proof (cleanupOldFiles_returns dir filename retentionDays s0) as Hret.
  destruct (cleanupOldFiles dir filename retentionDays s0) as [[[]|e] s1];
    [reflexivity|discriminate].
Qed.

(** X18. An enabled transport checks its options in a fixed order and
    stops at the first that fails: a missing or empty [dir], then the
    size, then the interval, then the timestamp format, each with its
    own error, and then what [createStream] makes of the size, the
    interval and the [immutable] flag, the defaults standing in for
    absent options.  When all five pass, the construction succeeds
    whatever the file system holds: the transport runs with the options
    and their defaults, the daily cleanup timer is set exactly when
    [retentionDays] is positive, and its state is the start state,
    swept once in that case. *)
Theorem construction_checks_in_order
    (options : Options.t) (files : gmap string Node) (clock : Z) :
  let size := default "100K" (Options.size options) in
  let interval := default "1d" (Options.interval options) in
  let format := default "iso" (Options.timestampFormat options) in
  let filename := default "app" (Options.filename options) in
  let immutable := default true (Options.immutable options) in
  let retentionDays := default 30 (Options.retentionDays options) in
  let result := pinoTransportRotatingFile options files clock in
  default true (Options.enabled options) = true ->
  (dir_missing options -> result = Throw (Error "Missing required option: dir"))
  /\ (forall dir : string,
        Options.dir options = Some dir -> dir <> EmptyString ->
        (forall e, Validator.validateSize size = Throw e -> result = Throw e)
        /\ (Validator.validateSize size = Ok tt ->
            (forall e, Validator.validateInterval interval = Throw e -> result = Throw e)
            /\ (Validator.validateInterval interval = Ok tt ->
                (forall e, Validator.validateTimestampFormat format = Throw e ->
                           result = Throw e)
                /\ (Validator.validateTimestampFormat format = Ok tt ->
                    (forall e, createStream size interval immutable = Throw e ->
                               result = Throw e)
                    /\ (createStream size interval immutable = Ok tt ->
                        exists a : Active.t,
                          result = Ok (Running a)
                          /\ Active.dir a = dir
                          /\ Active.filename a = filename
                          /\ Active.retentionDays a = retentionDays
                          /\ Active.compress a = default true (Options.compress options)
                          /\ Active.cleanupInterval a = (0 <? retentionDays)
                          /\ Active.piped a = true
                          /\ Active.state a
                             = let s0 := boot files clock
                                           (createErrorLogger
                                              (Options.errorLogFile options) 100
                                              (default (60 * 1000)
                                                 (Options.errorFlushIntervalMs options))) in
                               if 0 <? retentionDays
                               then snd (cleanupOldFiles dir filename retentionDays s0)
                               else s0))))).
Proof.
  intros size interval format filename immutable retentionDays result Hon. subst result.
  unfold pinoTransportRotatingFile. rewrite Hon. cbn [negb]. split.
  - intros [Hd|Hd]; rewrite Hd; reflexivity.
  - intros dir Hdir Hne. rewrite Hdir.
    assert (Hneb : String.eqb dir EmptyString = false) by now apply String.eqb_neq.
    rewrite Hneb. fold size interval format filename immutable retentionDays.
    unfold check. split.
    + intros e He. now rewrite He.
    + intros Hs. rewrite Hs. split.
      * intros e He. now rewrite He.
      * intros Hi. rewrite Hi. split.
        -- intros e He. now rewrite He.
        -- intros Hf. rewrite Hf. split.
           ++ intros e He. now rewrite He.
           ++ intros Hc. rewrite Hc. rewrite construction_sweep.
              eexists. split; [reflexivity|]. repeat split.
Qed.

(** X19. Starting with a positive retention on a file system where the
    log directory does not exist yet does not fail: the transport runs,
    the files are untouched, and the failed listing is one line in the
    buffer of the error logger. *)
Theorem construction_survives_a_missing_directory
    (options : Options.t) (files : gmap string Node) (clock : Z)
    (dir : string) (a : Active.t) :
  files !! dir = None ->
  Options.dir options = Some dir ->
  0 < default 30 (Options.retentionDays options) ->
  pinoTransportRotatingFile options files clock = Ok (Running a) ->
  fs (Active.state a) = files
  /\ Active.cleanupInterval a = true
  /\ buffer (errorLogger (Active.state a))
     = [line clock ("Error during log file cleanup in " ++ dir)
             (Js.VError (SystemError "ENOENT" "scandir" dir))]
  /\ written (errorLogger (Active.state a)) = [].
Proof.
  intros Hfiles Hdir Hr. unfold pinoTransportRotatingFile.
  destruct (negb (default true (Options.enabled options))); [discriminate|].
  rewrite Hdir. destruct (String.eqb dir EmptyString); [discriminate|].
  unfold check.
  destruct (Validator.validateSize _) as [[]|e1]; [|discriminate].
  destruct (Validator.validateInterval _) as [[]|e2]; [|discriminate].
  destruct (Validator.validateTimestampFormat _) as [[]|e3]; [|discriminate].
  destruct (createStream _ _ _) as [[]|e4]; [|discriminate].
  rewrite construction_sweep. apply Z.ltb_lt in Hr. rewrite Hr.
  intros [= <-]. cbn [Active.state Active.cleanupInterval].
  unfold cleanupOldFiles, sweep, try_catch, readdir, log, mbind, io_bind.
  cbn [fs boot]. rewrite Hfiles. cbn.
  repeat split.
Qed.

(** X20. [close] empties the error logger into its sink and stops its
    flush timer and the cleanup timer: afterwards the buffer is empty,
    nothing that was buffered is lost, the cleanup timer does nothing,
    and closing again changes nothing.  It leaves the files, the ledger
    and the pending ledger timeouts as they are, and it does not remove
    the rotation listener: a rotation announced after [close] is still
    handled as before. *)
Theorem close_flushes_and_keeps_the_listener (a : Active.t) :
  let c := close a in
  buffer (errorLogger (Active.state c)) = []
  /\ flushInterval (errorLogger (Active.state c)) = false
  /\ Str.concat (map snd (written (errorLogger (Active.state c))))
     = Str.concat (map snd (written (errorLogger (Active.state a))))
       ++ Str.concat (buffer (errorLogger (Active.state a)))
  /\ cleanup_timer c = (Ok tt, c)
  /\ close c = c
  /\ fs (Active.state c) = fs (Active.state a)
  /\ compressedFiles (Active.state c) = compressedFiles (Active.state a)
  /\ timeouts (Active.state c) = timeouts (Active.state a)
  /\ (forall rotatedFile : string,
        Active.compress a = true ->
        Active.state (snd (emit_rotated rotatedFile c))
        = snd (on_rotated (Active.compressionOptions a) rotatedFile (Active.state c))).
Proof.
  intros c. subst c.
  assert (Hempty : forall l, buffer (destroy l) = []).
  { intros l. unfold destroy, flush. cbn.
    destruct (buffer l) eqn:E; [exact E|reflexivity]. }
  repeat apply conj.
  - apply Hempty.
  - reflexivity.
  - cbn [close Active.state Active.set_state Active.set_cleanupInterval Active.set_piped
         errorLogger set_errorLogger].
    pose proof (output_flush (errorLogger (Active.state a))) as Ho.
    unfold output in Ho. unfold destroy. cbn [written]. rewrite <- Ho.
    unfold flush. destruct (buffer (errorLogger (Active.state a))) eqn:E;
      cbn [buffer]; [rewrite E|]; cbn; now rewrite append_empty_r.
  - reflexivity.
  - unfold close. cbn [Active.state Active.set_state Active.set_cleanupInterval Active.set_piped
                       errorLogger set_errorLogger].
    set (l := errorLogger (Active.state a)).
    assert (Hd : destroy (destroy l) = destroy l).
    { unfold destroy at 1. rewrite (flush_empty (destroy l)) by apply Hempty.
      reflexivity. }
    rewrite Hd. reflexivity.
  - reflexivity.
  - reflexivity.
  - reflexivity.
  - intros rotatedFile Hc. unfold emit_rotated.
    cbn [close Active.compress Active.set_state Active.set_cleanupInterval Active.set_piped].
    rewrite Hc. unfold run.
    cbn [Active.state Active.set_state Active.set_cleanupInterval Active.set_piped
         Active.compressionOptions].
    destruct (on_rotated _ _ _) as [r s']. reflexivity.
Qed.

End ConstructionTheorems.

(** ** The further properties on the reference platform *)

Section ValidatorInstances.
Import Validator.

Lemma positivity_error_witness :
  zero_magnitude storage_units "00K"
  /\ validateSize "00K" = Throw (Error ("Size must be positive: " ++ "00K")).
Proof.
  assert (H1 : zero_magnitude storage_units "00K").
  { exists "00", "K"%char. repeat split; [discriminate|cbn; tauto]. }
  split; [exact H1|].
  exact (proj2 (proj1 positivity_error_only_for_zeros "00K") H1).
Defined.

Lemma size_and_interval_witness :
  well_formed ["M"%char] "5M"
  /\ validateSize "5M" = Ok tt /\ validateInterval "5M" = Ok tt.
Proof.
  assert (H1 : well_formed ["M"%char] "5M").
  { exists "5", "M"%char. repeat split; [discriminate|cbn; tauto]. }
  split; [exact H1|].
  exact (proj2 (size_and_interval_share_only_M "5M") H1).
Defined.

End ValidatorInstances.

Section ReferenceInstances.
Import Reference Generator ErrorLogger.

Lemma error_logger_buffer_below_capacity_witness :
  1 <= 1
  /\ buffer (LoggerLife.replay [LoggerLife.Logged 0 "a" Js.VUndefined]
                              (createErrorLogger None 1 60000)) = [].
Proof.
  assert (H1 : 1 <= 1) by lia.
  split; [exact H1|].
  exact (proj1 (proj2 (error_logger_buffer_below_capacity
                         None 1 60000 [LoggerLife.Logged 0 "a" Js.VUndefined]) H1)).
Defined.

Lemma error_logger_destroy_witness :
  Forall alive [LoggerLife.Logged 0 "a" Js.VUndefined; LoggerLife.IntervalElapsed]
  /\ Z.of_nat (length (LoggerLife.lines
                         [LoggerLife.Logged 0 "a" Js.VUndefined;
                          LoggerLife.IntervalElapsed]))
     < bufferSize (createErrorLogger None 100 60000)
  /\ written (LoggerLife.replay
                [LoggerLife.Logged 0 "a" Js.VUndefined; LoggerLife.IntervalElapsed]
                (destroy (createErrorLogger None 100 60000)))
     = written (destroy (createErrorLogger None 100 60000)).
Proof.
  assert (H1 : Forall alive [LoggerLife.Logged 0 "a" Js.VUndefined;
                             LoggerLife.IntervalElapsed])
    by (repeat constructor; discriminate).
  assert (H2 : Z.of_nat (length (LoggerLife.lines
                                   [LoggerLife.Logged 0 "a" Js.VUndefined;
                                    LoggerLife.IntervalElapsed]))
               < bufferSize (createErrorLogger None 100 60000))
    by (cbn; lia).
  split; [exact H1|]. split; [exact H2|].
  exact (proj1 (proj2 (proj2 (proj2 (proj2
           (error_logger_destroy_stops_timer
              (createErrorLogger None 100 60000)
              [LoggerLife.Logged 0 "a" Js.VUndefined; LoggerLife.IntervalElapsed]))))
           H1 H2)).
Defined.

Lemma timestamps_are_sanitized_witness :
  ("utc" = "utc" \/ "utc" = "rfc2822")
  /\ all_chars name_char (timestamp "utc" 0) = true.
Proof.
  assert (H1 : "utc" = "utc" \/ "utc" = "rfc2822") by (left; reflexivity).
  split; [exact H1|].
  exact (proj1 (proj1 (timestamps_are_sanitized "utc" 0) H1)).
Defined.

Lemma long_base_name_witness :
  Generator.falsy (TimeDate 1) = false
  /\ (200 <= String.length long_name)%nat
  /\ generator (TimeDate 1) "logs" long_name "iso"
     = join "logs" (Str.slice0 200 long_name).
Proof.
  assert (H1 : Generator.falsy (TimeDate 1) = false) by reflexivity.
  assert (H2 : (200 <= String.length long_name)%nat)
    by (apply Nat.leb_le; vm_compute; reflexivity).
  split; [exact H1|]. split; [exact H2|].
  exact (long_base_name_hides_the_timestamp (TimeDate 1) "logs" long_name "iso" H1 H2).
Defined.


Lemma rotated_name_witness :
  Generator.falsy (TimeDate 1) = false
  /\ exists name : string,
       generator (TimeDate 1) "logs" "app" "unix" = join "logs" name
       /\ name <> "app" ++ ".log".
Proof.
  assert (H1 : Generator.falsy (TimeDate 1) = false) by reflexivity.
  split; [exact H1|].
  exact (rotated_name_is_not_the_live_name (TimeDate 1) "logs" "app" "unix" H1).
Defined.

Lemma unix_names_witness :
  (String.length ("app" ++ "-" ++ timestamp "unix" (getTime (TimeDate 5)) ++ ".log")
   <= 200)%nat
  /\ truncate ("app" ++ "-" ++ timestamp "unix" (getTime (TimeDate 5)) ++ ".log")
     = truncate ("app" ++ "-" ++ timestamp "unix" (getTime (TimeNumber 5)) ++ ".log")
  /\ getTime (TimeDate 5) = getTime (TimeNumber 5).
Proof.
  assert (H1 : (String.length
                  ("app" ++ "-" ++ timestamp "unix" (getTime (TimeDate 5)) ++ ".log")
                <= 200)%nat)
    by (apply Nat.leb_le; vm_compute; reflexivity).
  assert (H2 : truncate ("app" ++ "-" ++ timestamp "unix" (getTime (TimeDate 5)) ++ ".log")
               = truncate ("app" ++ "-" ++ timestamp "unix" (getTime (TimeNumber 5))
                           ++ ".log")) by reflexivity.
  split; [exact H1|]. split; [exact H2|].
  exact (unix_names_do_not_collide (TimeDate 5) (TimeNumber 5) "app" H1 H1 H2).
Defined.

Lemma compressFile_frame_witness :
  "logs/other.log" <> "logs/app-1.log"
  /\ "logs/other.log" <> "logs/app-1.log.gz"
  /\ fs (snd (compressFile "logs/app-1.log" "logs/app-1.log.gz" default_compression
                           one_rotated_file)) !! "logs/other.log"
     = fs one_rotated_file !! "logs/other.log".
Proof.
  assert (H1 : "logs/other.log" <> "logs/app-1.log") by discriminate.
  assert (H2 : "logs/other.log" <> "logs/app-1.log.gz") by discriminate.
  split; [exact H1|]. split; [exact H2|].
  exact (proj1 (proj2 (compressFile_failure_and_frame
                         "logs/app-1.log" "logs/app-1.log.gz"
                         default_compression one_rotated_file))
               "logs/other.log" H1 H2).
Defined.

Lemma sweep_only_removes_witness :
  fs log_directory !! "logs/app-dir.log" = Some (Directory 2)
  /\ fs (snd (cleanupOldFiles "logs" "app" 1 log_directory)) !! "logs/app-dir.log"
     = Some (Directory 2).
Proof.
  assert (H1 : fs log_directory !! "logs/app-dir.log" = Some (Directory 2))
    by (vm_compute; reflexivity).
  split; [exact H1|].
  exact (proj1 (proj2 (proj2 (retention_sweep_only_removes "logs" "app" 1 log_directory)))
               "logs/app-dir.log" 2 H1).
Defined.

Lemma longer_retention_witness :
  1 <= 2
  /\ fs (snd (cleanupOldFiles "logs" "app" 1 log_directory))
     ⊆ fs (snd (cleanupOldFiles "logs" "app" 2 log_directory)).
Proof.
  assert (H1 : 1 <= 2) by lia.
  split; [exact H1|].
  exact (longer_retention_keeps_more "logs" "app" 1 2 log_directory H1).
Defined.


Lemma ledger_last_day_witness :
  now (transport rotated_once) + 24 * 60 * 60 * 1000 <= 86401000
  /\ compressedFiles (advance 86401000 (transport rotated_once)) = ∅.
Proof.
  assert (H1 : now (transport rotated_once) + 24 * 60 * 60 * 1000 <= 86401000)
    by (vm_compute; discriminate).
  split; [exact H1|].
  exact (proj1 (proj2 (ledger_holds_only_the_last_day
                         default_compression one_listener one_log 1000
                         (createErrorLogger None 100 60000)) 86401000 H1)).
Defined.

Lemma compressed_file_is_kept_witness :
  fs one_rotated_file !! "logs/app-1.log" = Some (File "hello" 5)
  /\ createGzip default_compression = Ok (fun content => "gzip(" ++ content ++ ")")
  /\ fs one_rotated_file !! dirname ("logs/app-1.log" ++ ".gz") = Some (Directory 0)
  /\ (forall m, fs one_rotated_file !! ("logs/app-1.log" ++ ".gz") <> Some (Directory m))
  /\ 0 <= 1
  /\ 5000 <= now one_rotated_file + 1 * (24 * 60 * 60 * 1000)
  /\ fs (snd (cleanupOldFiles "logs" "app" 1
                (advance 5000 (snd (compressFile "logs/app-1.log"
                                                 ("logs/app-1.log" ++ ".gz")
                                                 default_compression one_rotated_file)))))
     !! ("logs/app-1.log" ++ ".gz")
     = Some (File "gzip(hello)" (now one_rotated_file))
  /\ fs (snd (cleanupOldFiles "logs" "app" 1
                (advance 5000
                   (snd (compressFile_resume "logs/app-1.log"
                           ("logs/app-1.log" ++ ".gz") default_compression
                           (Pipeline (fun content => "gzip(" ++ content ++ ")"))
                           one_rotated_file)))))
     !! ("logs/app-1.log" ++ ".gz")
     = Some (File "gzip(hello)" (now one_rotated_file)).
Proof.
  assert (H1 : fs one_rotated_file !! "logs/app-1.log" = Some (File "hello" 5))
    by (vm_compute; reflexivity).
  assert (H2 : createGzip default_compression
               = Ok (fun content => "gzip(" ++ content ++ ")")) by reflexivity.
  assert (H3 : fs one_rotated_file !! dirname ("logs/app-1.log" ++ ".gz")
               = Some (Directory 0)) by (vm_compute; reflexivity).
  assert (H4 : forall m, fs one_rotated_file !! ("logs/app-1.log" ++ ".gz")
                         <> Some (Directory m))
    by (intros m; vm_compute; discriminate).
  assert (H5 : 0 <= 1) by lia.
  assert (H6 : 5000 <= now one_rotated_file + 1 * (24 * 60 * 60 * 1000))
    by (vm_compute; discriminate).
  split; [exact H1|]. split; [exact H2|]. split; [exact H3|]. split; [exact H4|].
  split; [exact H5|]. split; [exact H6|].
  exact (compressed_file_is_kept_for_the_retention_period
           default_compression "logs/app-1.log" "hello" 5 0
           (fun content => "gzip(" ++ content ++ ")") one_rotated_file
           "logs" "app" 1 5000 H1 H2 H3 H4 H5 H6).
Defined.

Lemma construction_order_witness :
  default true (Options.enabled Options.empty) = true
  /\ dir_missing Options.empty
  /\ pinoTransportRotatingFile Options.empty ∅ 0
     = Throw (Error "Missing required option: dir").
Proof.
  assert (H1 : default true (Options.enabled Options.empty) = true) by reflexivity.
  assert (H2 : dir_missing Options.empty) by (left; reflexivity).
  split; [exact H1|]. split; [exact H2|].
  exact (proj1 (construction_checks_in_order Options.empty ∅ 0 H1) H2).
Defined.

Lemma construction_missing_directory_witness :
  (∅ : gmap string Node) !! "logs" = None
  /\ Options.dir only_dir = Some "logs"
  /\ 0 < default 30 (Options.retentionDays only_dir)
  /\ pinoTransportRotatingFile only_dir ∅ 1000 = Ok (Running started)
  /\ fs (Active.state started) = ∅.
Proof.
  assert (H1 : (∅ : gmap string Node) !! "logs" = None) by reflexivity.
  assert (H2 : Options.dir only_dir = Some "logs") by reflexivity.
  assert (H3 : 0 < default 30 (Options.retentionDays only_dir)) by (cbn; lia).
  assert (H4 : pinoTransportRotatingFile only_dir ∅ 1000 = Ok (Running started))
    by (vm_compute; reflexivity).
  split; [exact H1|]. split; [exact H2|]. split; [exact H3|]. split; [exact H4|].
  exact (proj1 (construction_survives_a_missing_directory
                  only_dir ∅ 1000 "logs" started H1 H2 H3 H4)).
Defined.

Lemma close_witness :
  Active.compress running = true
  /\ Active.state (snd (emit_rotated "logs/app-1.log" (close running)))
     = snd (on_rotated (Active.compressionOptions running) "logs/app-1.log"
                       (Active.state (close running))).
Proof.
  assert (H1 : Active.compress running = true) by reflexivity.
  split; [exact H1|].
  exact (proj2 (proj2 (proj2 (proj2 (proj2 (proj2 (proj2 (proj2
           (close_flushes_and_keeps_the_listener running))))))))
           "logs/app-1.log" H1).
Defined.

End ReferenceInstances.
